(** * A rotating log-file writer (hooks/file/file.go)

    Shallow embedding of [fileLogWriter] and of the operating-system
    services it calls.  The writer's methods become functions that thread
    an explicit [World] (file system, clock, standard error) and the
    receiver record; Go's [error] results are [option error] values with
    [None] for [nil]. *)

From Stdlib Require Import ZArith Lia Ascii String.
From stdpp Require Import gmap strings list fin_maps pretty.

Open Scope Z_scope.

(** ** Machine integers

    Go's [int] and [int64] are 64-bit two's complement on the platforms
    the writer runs on. *)

Definition minInt64 : Z := - 2 ^ 63.
Definition maxInt64 : Z := 2 ^ 63 - 1.

Definition wrap64 (z : Z) : Z := (z + 2 ^ 63) mod 2 ^ 64 - 2 ^ 63.

Definition inInt64 (z : Z) : Prop := minInt64 <= z <= maxInt64.

(** ** Strings

    A Go string is a sequence of bytes; so is a Rocq [string]. *)

Definition byte_of (n : nat) : ascii := ascii_of_nat n.

Definition len (s : string) : Z := Z.of_nat (String.length s).

(** [s[i]] on a string: [None] is the run-time panic of an index out of
    range. *)
Definition index (s : string) (i : Z) : option ascii :=
  if (0 <=? i) && (i <? len s) then String.get (Z.to_nat i) s else None.

Definition bytes (s : string) : list ascii := list_ascii_of_string s.

Module Strings.

Definition HasPrefix (s p : string) : bool := String.prefix p s.

Definition HasSuffix (s suf : string) : bool :=
  let n := String.length s in
  let k := String.length suf in
  (k <=? n)%nat && String.eqb (String.substring (n - k) k s) suf.

Definition TrimSuffix (s suf : string) : string :=
  if HasSuffix s suf
  then String.substring 0 (String.length s - String.length suf) s
  else s.

(** [bytes.Count(b, sep)] for the one-byte separator the writer uses. *)
Definition Count (b : list ascii) (sep : ascii) : Z :=
  Z.of_nat (List.length (filter (λ c, c = sep) b)).

End Strings.

Module Filepath.

Definition isSep (c : ascii) : bool := Ascii.eqb c "/".

(** Scan from the last byte towards the first, as [filepath.Ext] does:
    [acc] is the part of the path already passed over. *)
Fixpoint extScan (rpath : list ascii) (acc : string) : string :=
  match rpath with
  | [] => EmptyString
  | c :: rest =>
      if isSep c then EmptyString
      else if Ascii.eqb c "." then String c acc
      else extScan rest (String c acc)
  end.

Definition Ext (path : string) : string :=
  extScan (rev (bytes path)) EmptyString.

Fixpoint dropSeps (rpath : list ascii) : list ascii :=
  match rpath with
  | c :: rest => if isSep c then dropSeps rest else rpath
  | [] => []
  end.

Fixpoint lastElem (rpath : list ascii) (acc : string) : string :=
  match rpath with
  | [] => acc
  | c :: rest => if isSep c then acc else lastElem rest (String c acc)
  end.

Fixpoint dropElem (rpath : list ascii) : list ascii :=
  match rpath with
  | c :: rest => if isSep c then rpath else dropElem rest
  | [] => []
  end.

(** [filepath.Base]: the last element of the path, trailing separators
    removed; ["."] for the empty path and ["/"] for a path of
    separators only. *)
Definition Base (path : string) : string :=
  match bytes path with
  | [] => "."
  | _ =>
      match dropSeps (rev (bytes path)) with
      | [] => "/"
      | r => lastElem r EmptyString
      end
  end.

(** [filepath.Dir]: all but the last element.  [filepath.Clean], which
    the library applies to the result, is taken on paths that have no
    empty, [.] or [..] element, where it only removes the trailing
    separators. *)
Definition Dir (path : string) : string :=
  let d := dropElem (rev (bytes path)) in
  match d with
  | [] => "."
  | _ =>
      match dropSeps d with
      | [] => "/"
      | r => string_of_list_ascii (rev r)
      end
  end.

End Filepath.

(** Decimal rendering with zero padding, as [%03d] and the numeric fields
    of [Time.Format] produce for the non-negative values met here. *)
Fixpoint zeros (n : nat) : string :=
  match n with
  | O => EmptyString
  | S n' => String "0" (zeros n')
  end.

Definition padInt (width : nat) (z : Z) : string :=
  if z <? 0 then String "-" (let d := pretty (Z.to_N (- z)) in
                             String.append (zeros (width - String.length d)) d)
  else let d := pretty (Z.to_N z) in
       String.append (zeros (width - String.length d)) d.

(** ** Time

    A [time.Time] is an instant, in nanoseconds since the Unix epoch; the
    calendar fields are read in UTC. *)

Module Time.

Definition t : Type := Z.

Definition Hour : Z := 3600 * 1000000000.

Definition unixSec (x : t) : Z := x / 1000000000.
Definition Nanosecond (x : t) : Z := x mod 1000000000.

Definition daysSinceEpoch (x : t) : Z := unixSec x / 86400.
Definition secOfDay (x : t) : Z := unixSec x mod 86400.

(** Proleptic Gregorian date of a day number (days since 1970-01-01). *)
Definition civil (z : Z) : Z * Z * Z :=
  let z := z + 719468 in
  let era := z / 146097 in
  let doe := z mod 146097 in
  let yoe := (doe - doe / 1460 + doe / 36524 - doe / 146096) / 365 in
  let y := yoe + era * 400 in
  let doy := doe - (365 * yoe + yoe / 4 - yoe / 100) in
  let mp := (5 * doy + 2) / 153 in
  let d := doy - (153 * mp + 2) / 5 + 1 in
  let m := if mp <? 10 then mp + 3 else mp - 9 in
  (if m <=? 2 then y + 1 else y, m, d).

Definition Date (x : t) : Z * Z * Z := civil (daysSinceEpoch x).

Definition Clock (x : t) : Z * Z * Z :=
  let s := secOfDay x in (s / 3600, s mod 3600 / 60, s mod 60).

Definition Year (x : t) : Z := (Date x).1.1.
Definition Month (x : t) : Z := (Date x).1.2.
Definition Day (x : t) : Z := (Date x).2.
Definition Hour_ (x : t) : Z := (Clock x).1.1.

(** [t.Add(d)] and [t.Before(u)]. *)
Definition Add (x : t) (d : Z) : t := x + d.
Definition Before (x u : t) : bool := x <? u.

(** [t.Format(layout)] for layouts made of the reference fields [2006],
    [01], [02], [15] and literal bytes. *)
Fixpoint Format (x : t) (layout : string) : string :=
  match layout with
  | String "2" (String "0" (String "0" (String "6" rest))) =>
      String.append (padInt 4 (Year x)) (Format x rest)
  | String "0" (String "1" rest) =>
      String.append (padInt 2 (Month x)) (Format x rest)
  | String "0" (String "2" rest) =>
      String.append (padInt 2 (Day x)) (Format x rest)
  | String "1" (String "5" rest) =>
      String.append (padInt 2 (Hour_ x)) (Format x rest)
  | String c rest => String c (Format x rest)
  | EmptyString => EmptyString
  end.

(** The instant of a civil date and time of day (inverse of [Date] and
    [Clock]), used to write test instants down. *)
Definition daysFromCivil (y m d : Z) : Z :=
  let y := if m <=? 2 then y - 1 else y in
  let era := y / 400 in
  let yoe := y - era * 400 in
  let doy := (153 * (if m >? 2 then m - 3 else m + 9) + 2) / 5 + d - 1 in
  let doe := yoe * 365 + yoe / 4 - yoe / 100 + doy in
  era * 146097 + doe - 719468.

Definition at_ (y m d hh mm ss : Z) : t :=
  ((daysFromCivil y m d * 86400) + hh * 3600 + mm * 60 + ss) * 1000000000.

End Time.

Example Time_at_date : Time.Date (Time.at_ 2024 2 29 13 5 7) = (2024, 2, 29).
Proof. reflexivity. Qed.

Example Time_format :
  Time.Format (Time.at_ 2024 2 9 3 5 7) "2006-01-02-15" = "2024-02-09-03"%string.
Proof. vm_compute. reflexivity. Qed.

Example Ext_ex : Filepath.Ext "logs/app.v1.log" = ".log"%string
  ∧ Filepath.Ext "logs.d/app" = EmptyString
  ∧ Filepath.Dir "logs/app.log" = "logs"%string
  ∧ Filepath.Dir "app.log" = "."%string
  ∧ Filepath.Base "logs/app.log" = "app.log"%string
  ∧ Strings.TrimSuffix "logs/app.log" ".log" = "logs/app"%string.
Proof. vm_compute. repeat split. Qed.

(** ** Errors

    [errno] are the sentinel causes; [error] are the error values the
    writer can see or build.  [Error] is the message of an error, which
    [fmt.Errorf] splices into the message of the error it makes. *)

Inductive errno : Type :=
| ENOENT | EACCES | EISDIR | ENOTDIR | EEXIST | ENOTEMPTY | EINVAL | EBADF
| ErrClosed.

Inductive error : Type :=
| ErrInvalid                                  (* os.ErrInvalid: nil *os.File *)
| EOF                                         (* io.EOF *)
| PathError (op path : string) (e : errno)    (* *os.PathError *)
| LinkError (op old new : string) (e : errno) (* *os.LinkError *)
| NumError (func num msg : string)            (* *strconv.NumError *)
| ErrorString (msg : string).                 (* errors.New, fmt.Errorf *)

Definition errno_msg (e : errno) : string :=
  match e with
  | ENOENT => "no such file or directory"
  | EACCES => "permission denied"
  | EISDIR => "is a directory"
  | ENOTDIR => "not a directory"
  | EEXIST => "file exists"
  | ENOTEMPTY => "directory not empty"
  | EINVAL => "invalid argument"
  | EBADF => "bad file descriptor"
  | ErrClosed => "file already closed"
  end.

Definition quote (s : string) : string :=
  String (byte_of 34) (String.append s (String (byte_of 34) EmptyString)).

Definition Error (e : error) : string :=
  match e with
  | ErrInvalid => "invalid argument"
  | EOF => "EOF"
  | PathError op path e =>
      String.append op (String.append " " (String.append path
        (String.append ": " (errno_msg e))))
  | LinkError op old new e =>
      String.append op (String.append " " (String.append old
        (String.append " " (String.append new
          (String.append ": " (errno_msg e))))))
  | NumError func num msg =>
      String.append "strconv." (String.append func
        (String.append ": parsing " (String.append (quote num)
          (String.append ": " msg))))
  | ErrorString msg => msg
  end.

(** [fmt.Errorf(prefix + "%v", err)] and [fmt.Errorf(prefix + "%s", s)]. *)
Definition Errorf (prefix : string) (arg : string) : error :=
  ErrorString (String.append prefix arg).

#[global] Instance errno_eq_dec : EqDecision errno.
Proof. solve_decision. Defined.

#[global] Instance error_eq_dec : EqDecision error.
Proof. solve_decision. Defined.

(** [strconv.ParseInt(s, 8, 64)]. *)
Module Strconv.

Definition octDigit (c : ascii) : option Z :=
  let n := Z.of_nat (nat_of_ascii c) in
  if (48 <=? n) && (n <=? 55) then Some (n - 48) else None.

Fixpoint octDigits (cs : list ascii) (acc : Z) : option Z :=
  match cs with
  | [] => Some acc
  | c :: rest =>
      match octDigit c with
      | Some d => octDigits rest (8 * acc + d)
      | None => None
      end
  end.

Definition syntaxErr (s : string) : error := NumError "ParseInt" s "invalid syntax".
Definition rangeErr (s : string) : error := NumError "ParseInt" s "value out of range".

Definition ParseOctal (s : string) : error + Z :=
  let signed (neg : bool) (ds : list ascii) :=
    match ds with
    | [] => inl (syntaxErr s)
    | _ =>
        match octDigits ds 0 with
        | None => inl (syntaxErr s)
        | Some v =>
            let v := if neg then - v else v in
            if (minInt64 <=? v) && (v <=? maxInt64) then inr v
            else inl (rangeErr s)
        end
    end in
  match bytes s with
  | [] => inl (syntaxErr s)
  | c :: rest =>
      if Ascii.eqb c "-" then signed true rest
      else if Ascii.eqb c "+" then signed false rest
      else signed false (c :: rest)
  end.

End Strconv.

Example ParseOctal_ex :
  Strconv.ParseOctal "0660" = inr 432 ∧ Strconv.ParseOctal "0440" = inr 288
  ∧ Strconv.ParseOctal "rw" = inl (Strconv.syntaxErr "rw").
Proof. vm_compute. repeat split. Qed.

(** ** Diagnostics

    The lines the writer prints on standard error, one constructor per
    format string of the source; the goroutine id, the wall-clock stamp
    and the rendering of the receiver that each line also carries are
    left out. *)

Inductive LogEvent : Type :=
| LogUseExist                                         (* newFileWriter use exist *)
| LogCreateNew                                        (* newFileWriter create new *)
| LogWriteMsg (day hour : Z)                          (* WriteMsg day %d, hour %d *)
| LogWriteMsgErr (when : Time.t) (name : string) (e : error)
| LogDoRotate (logTime : Time.t)                      (* doRotate logTime *)
| LogFileExist (fName : string)                       (* file exist *)
| LogSkipRotate (name : string)                       (* skip rotate file *)
| LogRenameFailed (old new : string) (e : error)      (* Rename %s to %s failed *)
| LogRenameOk (old new : string)                      (* Rename %s to %s ok *)
| LogUseFileName (fName : string)                     (* use file name *)
| LogRenameLog (old new : string).                    (* Rename log %s to %s ok *)

#[global] Instance LogEvent_eq_dec : EqDecision LogEvent.
Proof. solve_decision. Defined.

(** ** The operating system

    Paths name inodes; an open [*os.File] is an entry of [files] that
    keeps its inode however the path is renamed or removed afterwards.
    The process runs as the (unprivileged) owner of every file, so the
    owner bits of the mode decide access. *)

Record Inode : Type := mkInode {
  i_dir : bool;
  i_data : list ascii;
  i_mtime : Time.t;
  i_mode : Z
}.

Record File : Type := mkFile {
  f_name : string;
  f_ino : nat;
  f_pos : nat;
  f_wr : bool;       (* opened O_WRONLY|O_APPEND rather than O_RDONLY *)
  f_closed : bool
}.

Record FileInfo : Type := mkFileInfo {
  Size : Z;
  Mode : Z;
  ModTime : Time.t;
  IsDir : bool
}.

Record World : Type := mkWorld {
  names : gmap string nat;
  inodes : gmap nat Inode;
  files : gmap nat File;
  now : Time.t;
  umask : Z;
  stderr : list LogEvent;
  sweeps : nat        (* [go w.deleteOldLog()] statements executed *)
}.

Definition set_names (f : gmap string nat → gmap string nat) (σ : World) : World :=
  mkWorld (f (names σ)) (inodes σ) (files σ) (now σ) (umask σ) (stderr σ) (sweeps σ).
Definition set_inodes (f : gmap nat Inode → gmap nat Inode) (σ : World) : World :=
  mkWorld (names σ) (f (inodes σ)) (files σ) (now σ) (umask σ) (stderr σ) (sweeps σ).
Definition set_files (f : gmap nat File → gmap nat File) (σ : World) : World :=
  mkWorld (names σ) (inodes σ) (f (files σ)) (now σ) (umask σ) (stderr σ) (sweeps σ).
Definition set_now (t : Time.t) (σ : World) : World :=
  mkWorld (names σ) (inodes σ) (files σ) t (umask σ) (stderr σ) (sweeps σ).

(** [fmt.Fprintf(os.Stderr, ...)] *)
Definition eprint (e : LogEvent) (σ : World) : World :=
  mkWorld (names σ) (inodes σ) (files σ) (now σ) (umask σ) (stderr σ ++ [e]) (sweeps σ).

(** [go f()]: the call is only recorded; it runs when the scheduler
    picks it, see [deleteOldLog]. *)
Definition spawn (σ : World) : World :=
  mkWorld (names σ) (inodes σ) (files σ) (now σ) (umask σ) (stderr σ) (S (sweeps σ)).

Module OS.

Definition ownerRead (i : Inode) : bool := Z.testbit (i_mode i) 8.
Definition ownerWrite (i : Inode) : bool := Z.testbit (i_mode i) 7.

Definition permBits (perm : Z) : Z := Z.land perm 511.

Definition resolve (σ : World) (path : string) : option (nat * Inode) :=
  ino ← names σ !! path; i ← inodes σ !! ino; Some (ino, i).

Definition info (i : Inode) : FileInfo :=
  mkFileInfo (Z.of_nat (length (i_data i))) (i_mode i) (i_mtime i) (i_dir i).

Definition Lstat (σ : World) (path : string) : error + FileInfo :=
  match resolve σ path with
  | Some (_, i) => inr (info i)
  | None => inl (PathError "lstat" path ENOENT)
  end.

Definition newFile (σ : World) (f : File) : World * nat :=
  let fd := fresh (dom (files σ)) in
  (set_files (insert fd f) σ, fd).

(** [os.OpenFile(name, O_WRONLY|O_APPEND|O_CREATE, perm)] *)
Definition OpenFile (σ : World) (name : string) (perm : Z) : World * (error + nat) :=
  let fail e := (σ, inl (PathError "open" name e)) in
  match resolve σ name with
  | Some (ino, i) =>
      if i_dir i then fail EISDIR
      else if negb (ownerWrite i) then fail EACCES
      else let '(σ', fd) := newFile σ (mkFile name ino 0 true false) in (σ', inr fd)
  | None =>
      match resolve σ (Filepath.Dir name) with
      | None => fail ENOENT
      | Some (_, d) =>
          if negb (i_dir d) then fail ENOTDIR
          else if negb (ownerWrite d) then fail EACCES
          else
            let ino := fresh (dom (inodes σ)) in
            let mode := Z.land (permBits perm) (Z.lnot (umask σ)) in
            let σ1 := set_inodes (insert ino (mkInode false [] (now σ) mode)) σ in
            let σ2 := set_names (insert name ino) σ1 in
            let '(σ', fd) := newFile σ2 (mkFile name ino 0 true false) in
            (σ', inr fd)
      end
  end.

(** [os.Open(name)] *)
Definition Open (σ : World) (name : string) : World * (error + nat) :=
  match resolve σ name with
  | Some (ino, i) =>
      if negb (ownerRead i) then (σ, inl (PathError "open" name EACCES))
      else let '(σ', fd) := newFile σ (mkFile name ino 0 false false) in (σ', inr fd)
  | None => (σ, inl (PathError "open" name ENOENT))
  end.

Definition Chmod (σ : World) (name : string) (mode : Z) : World * option error :=
  match resolve σ name with
  | Some (ino, i) =>
      (set_inodes (insert ino (mkInode (i_dir i) (i_data i) (i_mtime i) (permBits mode))) σ,
       None)
  | None => (σ, Some (PathError "chmod" name ENOENT))
  end.

(** An open file and its inode: the error is the one every method of
    [*os.File] gives for a nil or closed receiver. *)
Definition valid (σ : World) (op : string) (f : option nat) : error + (nat * File * Inode) :=
  match f with
  | None => inl ErrInvalid
  | Some fd =>
      match files σ !! fd with
      | None => inl ErrInvalid
      | Some fl =>
          if f_closed fl then inl (PathError op (f_name fl) ErrClosed)
          else match inodes σ !! f_ino fl with
               | None => inl (PathError op (f_name fl) EBADF)
               | Some i => inr (fd, fl, i)
               end
      end
  end.

Definition Stat (σ : World) (f : option nat) : error + FileInfo :=
  match valid σ "stat" f with
  | inl e => inl e
  | inr (_, _, i) => inr (info i)
  end.

(** [f.Write(b)] on a file opened with [O_APPEND]. *)
Definition Write (σ : World) (f : option nat) (b : list ascii) : World * (Z * option error) :=
  match valid σ "write" f with
  | inl e => (σ, (0, Some e))
  | inr (fd, fl, i) =>
      if negb (f_wr fl) then (σ, (0, Some (PathError "write" (f_name fl) EBADF)))
      else
        match b with
        | [] => (σ, (0, None))
        | _ =>
            let i' := mkInode (i_dir i) (i_data i ++ b) (now σ) (i_mode i) in
            (set_inodes (insert (f_ino fl) i') σ, (Z.of_nat (length b), None))
        end
  end.

(** [f.Read(buf)] with a buffer of [size] bytes: the bytes read, and
    [io.EOF] at the end of the file. *)
Definition Read (σ : World) (f : option nat) (size : nat) : World * (list ascii * option error) :=
  match valid σ "read" f with
  | inl e => (σ, ([], Some e))
  | inr (fd, fl, i) =>
      if f_wr fl then (σ, ([], Some (PathError "read" (f_name fl) EBADF)))
      else if i_dir i then (σ, ([], Some (PathError "read" (f_name fl) EISDIR)))
      else
        match take size (drop (f_pos fl) (i_data i)) with
        | [] => (σ, ([], Some EOF))
        | chunk =>
            let fl' := mkFile (f_name fl) (f_ino fl) (f_pos fl + length chunk)
                         (f_wr fl) (f_closed fl) in
            (set_files (insert fd fl') σ, (chunk, None))
        end
  end.

Definition Close (σ : World) (f : option nat) : World * option error :=
  match valid σ "close" f with
  | inl e => (σ, Some e)
  | inr (fd, fl, _) =>
      (set_files (insert fd (mkFile (f_name fl) (f_ino fl) (f_pos fl) (f_wr fl) true)) σ,
       None)
  end.

Definition Sync (σ : World) (f : option nat) : World * option error :=
  match valid σ "sync" f with
  | inl e => (σ, Some e)
  | inr _ => (σ, None)
  end.

(** The paths below the directory [dir]. *)
Definition below (dir path : string) : bool :=
  if String.eqb dir "." then negb (String.prefix "/" path) && negb (String.eqb path ".")
  else if String.eqb dir "/" then String.prefix "/" path && negb (String.eqb path "/")
  else String.prefix (String.append dir "/") path.

Definition hasEntries (σ : World) (dir : string) : bool :=
  bool_decide (filter (λ kv, below dir kv.1 = true) (names σ) ≠ ∅).

Definition writableDir (σ : World) (dir : string) : option errno :=
  match resolve σ dir with
  | None => Some ENOENT
  | Some (_, d) =>
      if negb (i_dir d) then Some ENOTDIR
      else if negb (ownerWrite d) then Some EACCES
      else None
  end.

(** Moving a directory moves what is below it. *)
Definition rekey (old new path : string) : string :=
  if String.eqb path old then new
  else if String.prefix (String.append old "/") path
  then String.append new
         (String.substring (String.length old) (String.length path - String.length old) path)
  else path.

Definition moveTree (old new : string) (m : gmap string nat) : gmap string nat :=
  list_to_map (map (λ kv, (rekey old new kv.1, kv.2)) (map_to_list m)).

(** [os.Rename(oldpath, newpath)] *)
Definition Rename (σ : World) (old new : string) : World * option error :=
  let fail e := (σ, Some (LinkError "rename" old new e)) in
  match resolve σ old with
  | None => fail ENOENT
  | Some (ino, i) =>
      match writableDir σ (Filepath.Dir old), writableDir σ (Filepath.Dir new) with
      | Some e, _ => fail e
      | None, Some e => fail e
      | None, None =>
          if String.eqb old new then (σ, None)
          else if i_dir i then
            if String.prefix (String.append old "/") new then fail EINVAL
            else match resolve σ new with
                 | Some (_, j) =>
                     if negb (i_dir j) then fail ENOTDIR
                     else if hasEntries σ new then fail ENOTEMPTY
                     else (set_names (λ m, moveTree old new (delete new m)) σ, None)
                 | None => (set_names (moveTree old new) σ, None)
                 end
          else match resolve σ new with
               | Some (_, j) =>
                   if i_dir j then fail EISDIR
                   else (set_names (λ m, <[new := ino]> (delete old m)) σ, None)
               | None => (set_names (λ m, <[new := ino]> (delete old m)) σ, None)
               end
      end
  end.

(** [os.Remove(name)] *)
Definition Remove (σ : World) (name : string) : World * option error :=
  let fail e := (σ, Some (PathError "remove" name e)) in
  match resolve σ name with
  | None => fail ENOENT
  | Some (_, i) =>
      match writableDir σ (Filepath.Dir name) with
      | Some e => fail e
      | None =>
          if i_dir i && hasEntries σ name then fail ENOTEMPTY
          else (set_names (delete name) σ, None)
      end
  end.

(** What [filepath.Walk(root, fn)] hands to [fn]: the root, then every
    path below it, each with the result of its [lstat] ([None] when
    that failed).  The callback of the writer removes at most the path
    it is called on, so the files met are those present at the start. *)
Definition lstatOpt (σ : World) (path : string) : option FileInfo :=
  match Lstat σ path with
  | inr fi => Some fi
  | inl _ => None
  end.

Definition walkEntries (σ : World) (root : string) : list (string * option FileInfo) :=
  match Lstat σ root with
  | inl _ => [(root, None)]
  | inr fi =>
      (root, Some fi) ::
      (if IsDir fi
       then (λ kv, (kv.1, lstatOpt σ kv.1)) <$>
              filter (λ kv, below root kv.1 = true) (map_to_list (names σ))
       else [])
  end.

Definition Now (σ : World) : Time.t := now σ.

End OS.

(** ** The writer *)

(** RFC5424 log message levels. *)
Definition LevelError : Z := 0.
Definition LevelWarn : Z := 1.
Definition LevelInfo : Z := 2.
Definition LevelDebug : Z := 3.

Definition y1 : string := "0123456789".
Definition y2 : string := "0123456789012345678901234567890123456789012345678901234567890123456789012345678901234567890123456789".
Definition y3 : string := "0000000000111111111122222222223333333333444444444455555555556666666666777777777788888888889999999999".
Definition y4 : string := "0123456789012345678901234567890123456789012345678901234567890123456789012345678901234567890123456789".
Definition mo1 : string := "000000000111".
Definition mo2 : string := "123456789012".
Definition d1 : string := "0000000001111111111222222222233".
Definition d2 : string := "1234567890123456789012345678901".
Definition h1 : string := "000000000011111111112222".
Definition h2 : string := "012345678901234567890123".
Definition mi1 : string := "000000000011111111112222222222333333333344444444445555555555".
Definition mi2 : string := "012345678901234567890123456789012345678901234567890123456789".
Definition s1 : string := "000000000011111111112222222222333333333344444444445555555555".
Definition s2 : string := "012345678901234567890123456789012345678901234567890123456789".
Definition ns1 : string := "0123456789".

(** The struct, without its [sync.RWMutex]: the embedding runs one call
    at a time, where [Lock] and [Unlock] do nothing. *)
Record fileLogWriter : Type := mkWriter {
  Filename : string;
  fileWriter : option nat;       (* *os.File; [None] is nil *)
  MaxLines : Z;
  maxLinesCurLines : Z;
  MaxSize : Z;
  maxSizeCurSize : Z;
  StripColors : bool;
  Hourly : bool;
  HourlyOpenDate : Z;
  Daily : bool;
  MaxDays : Z;
  DailyOpenDate : Z;
  dailyOpenTime : Time.t;
  Rotate : bool;
  Level : Z;
  Perm : string;
  RotatePerm : string;
  fileNameOnly : string;
  suffix : string
}.

Definition with_fileWriter (f : option nat) (w : fileLogWriter) : fileLogWriter :=
  mkWriter (Filename w) f (MaxLines w) (maxLinesCurLines w) (MaxSize w)
    (maxSizeCurSize w) (StripColors w) (Hourly w) (HourlyOpenDate w) (Daily w)
    (MaxDays w) (DailyOpenDate w) (dailyOpenTime w) (Rotate w) (Level w) (Perm w)
    (RotatePerm w) (fileNameOnly w) (suffix w).

Definition with_counters (nlines nbytes : Z) (w : fileLogWriter) : fileLogWriter :=
  mkWriter (Filename w) (fileWriter w) (MaxLines w) nlines (MaxSize w)
    nbytes (StripColors w) (Hourly w) (HourlyOpenDate w) (Daily w)
    (MaxDays w) (DailyOpenDate w) (dailyOpenTime w) (Rotate w) (Level w) (Perm w)
    (RotatePerm w) (fileNameOnly w) (suffix w).

Definition with_open (t : Time.t) (day hour : Z) (w : fileLogWriter) : fileLogWriter :=
  mkWriter (Filename w) (fileWriter w) (MaxLines w) (maxLinesCurLines w) (MaxSize w)
    (maxSizeCurSize w) (StripColors w) (Hourly w) hour (Daily w)
    (MaxDays w) day t (Rotate w) (Level w) (Perm w)
    (RotatePerm w) (fileNameOnly w) (suffix w).

Definition with_names (only suf : string) (w : fileLogWriter) : fileLogWriter :=
  mkWriter (Filename w) (fileWriter w) (MaxLines w) (maxLinesCurLines w) (MaxSize w)
    (maxSizeCurSize w) (StripColors w) (Hourly w) (HourlyOpenDate w) (Daily w)
    (MaxDays w) (DailyOpenDate w) (dailyOpenTime w) (Rotate w) (Level w) (Perm w)
    (RotatePerm w) only suf.

(** The literal of [newFileWriter]; the fields it leaves out have their
    zero values. *)
Definition defaultWriter : fileLogWriter :=
  mkWriter EmptyString None 0 0 0 0 true true 0 true 7 0
    (Time.at_ 1 1 1 0 0 0) true LevelDebug "0660" "0440" EmptyString EmptyString.

Definition needRotate (w : fileLogWriter) (size day hour : Z) : bool :=
  ((0 <? MaxLines w) && (MaxLines w <=? maxLinesCurLines w)) ||
  ((0 <? MaxSize w) && (MaxSize w <=? maxSizeCurSize w)) ||
  (Daily w && negb (day =? DailyOpenDate w)) ||
  (Hourly w && negb (hour =? HourlyOpenDate w)).

(** [formatTimeHeader]: [None] is the panic of an index out of range.
    Go's [/] and [%] truncate, hence [Z.quot] and [Z.rem]. *)
Definition formatTimeHeader (when : Time.t) : option (list ascii * Z * Z) :=
  let '(y, mo, d) := Time.Date when in
  let '(h, mi, s) := Time.Clock when in
  let ns := Z.quot (Time.Nanosecond when) 1000000 in
  b0 ← index y1 (Z.rem (Z.quot y 1000) 10);
  b1 ← index y2 (Z.quot y 100);
  b2 ← index y3 (y - Z.quot y 100 * 100);
  b3 ← index y4 (y - Z.quot y 100 * 100);
  b5 ← index mo1 (mo - 1);
  b6 ← index mo2 (mo - 1);
  b8 ← index d1 (d - 1);
  b9 ← index d2 (d - 1);
  b11 ← index h1 h;
  b12 ← index h2 h;
  b14 ← index mi1 mi;
  b15 ← index mi2 mi;
  b17 ← index s1 s;
  b18 ← index s2 s;
  b20 ← index ns1 (Z.quot ns 100);
  b21 ← index ns1 (Z.quot (Z.rem ns 100) 10);
  b22 ← index ns1 (Z.rem ns 10);
  Some ([b0; b1; b2; b3; "/"; b5; b6; "/"; b8; b9; " "; b11; b12; ":";
         b14; b15; ":"; b17; b18; "."; b20; b21; b22; " "]%char, d, h).

Example formatTimeHeader_ex :
  formatTimeHeader (Time.at_ 2024 2 29 13 5 7 + 123456789) =
    Some (bytes "2024/02/29 13:05:07.123 ", 29, 13).
Proof. vm_compute. reflexivity. Qed.

(** The pattern of [Strip]; [esc], [csi] and [bel] are the source's
    \u001B, \u009B (two bytes in UTF-8) and \u0007. *)
Definition esc : string := String (byte_of 27) EmptyString.
Definition csi : string := String (byte_of 194) (String (byte_of 155) EmptyString).
Definition bel : string := String (byte_of 7) EmptyString.
Definition bs : string := String (byte_of 92) EmptyString.

Definition ansi : string :=
  String.concat EmptyString
    ["["; esc; csi; "][["; bs; "]()#;?]*(?:(?:(?:[a-zA-Z"; bs; "d]*(?:;[a-zA-Z"; bs;
     "d]*)*)?"; bel; ")|(?:(?:"; bs; "d{1,4}(?:;"; bs; "d{0,4})*)?["; bs;
     "dA-PRZcf-ntqry=><~]))"]%string.

Definition maxSuffixNum : Z := 999.
Definition newline : ascii := byte_of 10.
Definition readBuf : nat := Z.to_nat 32768.


(** ** The libraries the writer is linked with

    The writer's functions below take [json.Unmarshal] and
    [Regexp.ReplaceAllString] as parameters, and what is proved of them
    holds for every decoder and every matcher.  [Json] and [Regexp] are
    the ones the examples run with. *)

Module Json.

(** A decoder for the flat objects of the documentation of [Init]:
    members whose values are strings without escapes, integers,
    booleans or null. *)
Inductive value : Type :=
| VString (s : string)
| VInt (z : Z)
| VBool (b : bool)
| VNull.

Definition isSpace (c : ascii) : bool :=
  let n := nat_of_ascii c in
  (n =? 32)%nat || (n =? 9)%nat || (n =? 10)%nat || (n =? 13)%nat.

Definition isDigit (c : ascii) : bool :=
  let n := nat_of_ascii c in (48 <=? n)%nat && (n <=? 57)%nat.

Fixpoint skipSpace (l : list ascii) : list ascii :=
  match l with
  | c :: r => if isSpace c then skipSpace r else l
  | [] => []
  end.

Fixpoint strBody (l : list ascii) : option (string * list ascii) :=
  match l with
  | [] => None
  | c :: r =>
      if (nat_of_ascii c =? 34)%nat then Some (EmptyString, r)
      else if (nat_of_ascii c =? 92)%nat then None
      else '(s, r') ← strBody r; Some (String c s, r')
  end.

Fixpoint digits (l : list ascii) (acc : Z) : Z * list ascii :=
  match l with
  | c :: r =>
      if isDigit c then digits r (10 * acc + (Z.of_nat (nat_of_ascii c) - 48))
      else (acc, l)
  | [] => (acc, [])
  end.

Definition number (l : list ascii) : option (value * list ascii) :=
  match l with
  | c :: r =>
      if isDigit c then
        (* no leading zero before another digit *)
        match c, r with
        | "0"%char, d :: _ => if isDigit d then None else Some (VInt 0, r)
        | _, _ => let '(z, r') := digits l 0 in Some (VInt z, r')
        end
      else None
  | [] => None
  end.

Definition parseValue (l : list ascii) : option (value * list ascii) :=
  match l with
  | "t" :: "r" :: "u" :: "e" :: r => Some (VBool true, r)
  | "f" :: "a" :: "l" :: "s" :: "e" :: r => Some (VBool false, r)
  | "n" :: "u" :: "l" :: "l" :: r => Some (VNull, r)
  | "-" :: r => '(v, r') ← number r;
                match v with
                | VInt z => Some (VInt (- z), r')
                | _ => None
                end
  | c :: r => if (nat_of_ascii c =? 34)%nat
              then '(s, r') ← strBody r; Some (VString s, r')
              else number l
  | [] => None
  end%char.

(** The members after the opening brace, up to the closing one. *)
Fixpoint members (n : nat) (l : list ascii) : option (list (string * value) * list ascii) :=
  match n with
  | O => None
  | S n' =>
      match skipSpace l with
      | c :: r =>
          if (nat_of_ascii c =? 34)%nat then
            '(k, r1) ← strBody r;
            match skipSpace r1 with
            | ":"%char :: r2 =>
                '(v, r3) ← parseValue (skipSpace r2);
                match skipSpace r3 with
                | ","%char :: r4 => '(ms, r5) ← members n' r4; Some ((k, v) :: ms, r5)
                | "}"%char :: r4 => Some ([(k, v)], r4)
                | _ => None
                end
            | _ => None
            end
          else None
      | [] => None
      end
  end.

Definition object (s : string) : option (list (string * value)) :=
  match skipSpace (bytes s) with
  | "{"%char :: r =>
      match skipSpace r with
      | "}"%char :: r' =>
          match skipSpace r' with
          | [] => Some []
          | _ => None
          end
      | _ =>
          '(ms, r') ← members (length r) r;
          match skipSpace r' with
          | [] => Some ms
          | _ => None
          end
      end
  | _ => None
  end.

Definition lower (c : ascii) : ascii :=
  let n := nat_of_ascii c in
  if (65 <=? n)%nat && (n <=? 90)%nat then ascii_of_nat (n + 32) else c.

Fixpoint toLower (s : string) : string :=
  match s with
  | String c r => String (lower c) (toLower r)
  | EmptyString => EmptyString
  end.

Definition typeError (tag : string) : error :=
  ErrorString (String.append
    "json: cannot unmarshal into Go struct field fileLogWriter." tag).

Section Field.
Variable key : string.
Variable v : value.

Definition tagged (tag : string) : bool := String.eqb (toLower key) tag.

Definition str (tag : string) (old : string) : string :=
  if tagged tag then match v with VString s => s | _ => old end else old.
Definition int (tag : string) (old : Z) : Z :=
  if tagged tag
  then match v with
       | VInt z => if (minInt64 <=? z) && (z <=? maxInt64) then z else old
       | _ => old
       end
  else old.
Definition boolean (tag : string) (old : bool) : bool :=
  if tagged tag then match v with VBool b => b | _ => old end else old.

Definition strErr (tag : string) : option error :=
  if tagged tag then match v with VString _ | VNull => None | _ => Some (typeError tag) end
  else None.
Definition intErr (tag : string) : option error :=
  if tagged tag
  then match v with
       | VInt z => if (minInt64 <=? z) && (z <=? maxInt64) then None
                   else Some (typeError tag)
       | VNull => None
       | _ => Some (typeError tag)
       end
  else None.
Definition boolErr (tag : string) : option error :=
  if tagged tag then match v with VBool _ | VNull => None | _ => Some (typeError tag) end
  else None.

(** The exported fields, by their [json] tags. *)
Definition setField (w : fileLogWriter) : fileLogWriter :=
  mkWriter (str "filename" (Filename w)) (fileWriter w)
    (int "maxlines" (MaxLines w)) (maxLinesCurLines w)
    (int "maxsize" (MaxSize w)) (maxSizeCurSize w)
    (boolean "stripcolors" (StripColors w))
    (boolean "hourly" (Hourly w)) (int "hourly_open" (HourlyOpenDate w))
    (boolean "daily" (Daily w)) (int "maxdays" (MaxDays w))
    (int "daily_open" (DailyOpenDate w)) (dailyOpenTime w)
    (boolean "rotate" (Rotate w)) (int "level" (Level w))
    (str "perm" (Perm w)) (str "rotateperm" (RotatePerm w))
    (fileNameOnly w) (suffix w).

Definition fieldErr : option error :=
  from_option Some None
    (list_find is_Some
       [strErr "filename"; intErr "maxlines"; intErr "maxsize";
        boolErr "stripcolors"; boolErr "hourly"; intErr "hourly_open";
        boolErr "daily"; intErr "maxdays"; intErr "daily_open";
        boolErr "rotate"; intErr "level"; strErr "perm";
        strErr "rotateperm"] ≫= snd).
End Field.

(** A syntax error leaves the receiver as it was; a value of the wrong
    type leaves its field as it was and is reported once the other
    members are decoded. *)
Definition Unmarshal (data : string) (w : fileLogWriter) : fileLogWriter * option error :=
  match object data with
  | None => (w, Some (ErrorString "invalid character in JSON input"))
  | Some ms =>
      foldl (λ acc kv,
               (setField kv.1 kv.2 acc.1,
                match acc.2 with
                | Some e => Some e
                | None => fieldErr kv.1 kv.2
                end))
        (w, None) ms
  end.

End Json.

(** [dq] writes a string with double quotes between its parts. *)
Definition dq (parts : list string) : string :=
  String.concat (String (byte_of 34) EmptyString) parts.

Module Regexp.

(** Regular expressions on bytes, matched by backtracking with the
    leftmost-first preference of Go's [regexp]. *)
Inductive re : Type :=
| Eps
| Byte (p : ascii → bool)
| Cat (r1 r2 : re)
| Alt (r1 r2 : re)
| Star (r : re).

Definition Opt (r : re) : re := Alt r Eps.

Fixpoint upTo (n : nat) (r : re) : re :=
  match n with
  | O => Eps
  | S n' => Opt (Cat r (upTo n' r))
  end.

(** [run r s k]: match [r] at the start of [s], then [k] on the rest. *)
Fixpoint run (r : re) (s : list ascii) (k : list ascii → option (list ascii))
  : option (list ascii) :=
  match r with
  | Eps => k s
  | Byte p =>
      match s with
      | c :: s' => if p c then k s' else None
      | [] => None
      end
  | Cat r1 r2 => run r1 s (λ s', run r2 s' k)
  | Alt r1 r2 =>
      match run r1 s k with
      | Some x => Some x
      | None => run r2 s k
      end
  | Star r1 =>
      (fix star (n : nat) (s : list ascii) : option (list ascii) :=
         match n with
         | O => k s
         | S n' =>
             match run r1 s (λ s', if (length s' <? length s)%nat
                                   then star n' s' else None) with
             | Some x => Some x
             | None => k s
             end
         end) (length s) s
  end.

(** Remove every match, leftmost first; an empty match removes
    nothing. *)
Fixpoint removeAll (n : nat) (r : re) (s : list ascii) : list ascii :=
  match n with
  | O => s
  | S n' =>
      match s with
      | [] => []
      | c :: s' =>
          match run r s Some with
          | Some rest =>
              if (length rest <? length s)%nat then removeAll n' r rest
              else c :: removeAll n' r s'
          | None => c :: removeAll n' r s'
          end
      end
  end.

Definition code (c : ascii) : Z := Z.of_nat (nat_of_ascii c).
Definition one (n : Z) : re := Byte (λ c, code c =? n).
Definition range (lo hi : Z) (c : ascii) : bool :=
  (lo <=? code c) && (code c <=? hi).
Definition oneOf (l : list Z) (c : ascii) : bool :=
  bool_decide (code c ∈ l).

Definition digit : re := Byte (range 48 57).
Definition alnum : re := Byte (λ c, range 97 122 c || range 65 90 c || range 48 57 c).

(** The pattern [ansi], compiled by hand. *)
Definition ansiRe : re :=
  Cat (Alt (one 27) (Cat (one 194) (one 155)))
    (Cat (Star (Byte (oneOf [91; 93; 40; 41; 35; 59; 63])))
       (Alt
          (Cat (Opt (Cat (Star alnum) (Star (Cat (one 59) (Star alnum))))) (one 7))
          (Cat (Opt (Cat (Cat digit (upTo 3 digit))
                       (Star (Cat (one 59) (upTo 4 digit)))))
             (Byte (λ c, range 48 57 c || range 65 80 c ||
                         oneOf [82; 90; 99; 116; 113; 114; 121; 61; 62; 60; 126] c ||
                         range 102 110 c))))).

(** [regexp.MustCompile(pattern).ReplaceAllString(src, repl)] for the
    one pattern the writer compiles and its empty replacement. *)
Definition ReplaceAllString (pattern src repl : string) : string :=
  string_of_list_ascii (removeAll (String.length src) ansiRe (bytes src)).

End Regexp.

Example Strip_scenario :
  Regexp.ReplaceAllString ansi
    (String.concat EmptyString [esc; "[31mERROR"; esc; "[0m"]%string) EmptyString
  = "ERROR"%string.
Proof. vm_compute. reflexivity. Qed.

Example Unmarshal_ex :
  let w := (Json.Unmarshal
              (dq ["{ "; "filename"; " : "; "logs/app.log"; ", "; "maxLines"; ":3, ";
                   "hourly"; ":false }"]) defaultWriter).1 in
  (Filename w, MaxLines w, Hourly w, Daily w) = ("logs/app.log"%string, 3, false, true).
Proof. vm_compute. reflexivity. Qed.
(** How [doRotate] leaves its [for] loop: by a [return] inside it, or
    with the values of [err], [num] and [fName] after it. *)
Inductive loopExit : Type :=
| LoopReturn (r : World * fileLogWriter * option error)
| LoopDone (σ : World) (err : option error) (num : Z) (fName : string).

Section Writer.

(** [encoding/json] and [regexp] are libraries the writer is linked
    with. [Unmarshal jsonConfig w] is [json.Unmarshal([]byte(jsonConfig), w)]:
    the receiver as the decoder leaves it, and its error. *)
Variable Unmarshal : string → fileLogWriter → fileLogWriter * option error.
Variable ReplaceAllString : string → string → string → string.

Definition Strip (str : string) : string := ReplaceAllString ansi str EmptyString.

Definition createLogFile (σ : World) (w : fileLogWriter) : World * (error + nat) :=
  match Strconv.ParseOctal (Perm w) with
  | inl e => (σ, inl e)
  | inr perm =>
      let '(σ, r) := OS.OpenFile σ (Filename w) perm in
      match r with
      | inr fd =>
          let '(σ, _) := OS.Chmod σ (Filename w) perm in
          (σ, inr fd)
      | inl e => (σ, inl e)
      end
  end.

(** The [for] loop of [lines].  Every read that does not end the loop
    moves the offset forward, so [readsLeft] rounds suffice. *)
Fixpoint linesLoop (n : nat) (σ : World) (fd : option nat) (count : Z)
  : World * (Z * option error) :=
  match n with
  | O => (σ, (count, None))
  | S n' =>
      let '(σ, (buf, err)) := OS.Read σ fd readBuf in
      match err with
      | Some EOF => (σ, (wrap64 (count + Strings.Count buf newline), None))
      | Some e => (σ, (count, Some e))
      | None => linesLoop n' σ fd (wrap64 (count + Strings.Count buf newline))
      end
  end.

Definition readsLeft (σ : World) (fd : option nat) : nat :=
  match OS.valid σ "read" fd with
  | inr (_, fl, i) => S (length (i_data i) - f_pos fl)
  | inl _ => 1
  end.

Definition lines (σ : World) (w : fileLogWriter) : World * (Z * option error) :=
  let '(σ, r) := OS.Open σ (Filename w) in
  match r with
  | inl e => (σ, (0, Some e))
  | inr fd =>
      let '(σ, res) := linesLoop (readsLeft σ (Some fd)) σ (Some fd) 0 in
      let '(σ, _) := OS.Close σ (Some fd) in
      (σ, res)
  end.

Definition initFd (σ : World) (w : fileLogWriter) : World * fileLogWriter * option error :=
  match OS.Stat σ (fileWriter w) with
  | inl e => (σ, w, Some (Errorf "get stat err: " (Error e)))
  | inr fInfo =>
      let w := with_counters (maxLinesCurLines w) (Size fInfo) w in
      let w := with_open (ModTime fInfo) (Time.Day (ModTime fInfo))
                 (Time.Hour_ (ModTime fInfo)) w in
      let w := with_counters 0 (maxSizeCurSize w) w in
      if Rotate w && (0 <? Size fInfo) && (0 <? MaxLines w) then
        let '(σ, (count, err)) := lines σ w in
        match err with
        | Some e => (σ, w, Some e)
        | None => (σ, with_counters count (maxSizeCurSize w) w, None)
        end
      else (σ, w, None)
  end.

Definition startLogger (σ : World) (w : fileLogWriter) : World * fileLogWriter * option error :=
  let '(σ, r) := createLogFile σ w in
  match r with
  | inl e => (σ, w, Some e)
  | inr file =>
      let σ := match fileWriter w with
               | Some _ => (OS.Close σ (fileWriter w)).1
               | None => σ
               end in
      initFd σ (with_fileWriter (Some file) w)
  end.

Definition Init (σ : World) (w : fileLogWriter) (jsonConfig : string)
  : World * fileLogWriter * option error :=
  let '(w, err) := Unmarshal jsonConfig w in
  match err with
  | Some e => (σ, w, Some e)
  | None =>
      if len (Filename w) =? 0
      then (σ, w, Some (ErrorString "jsonconfig must have filename"))
      else
        let suf := Filepath.Ext (Filename w) in
        let only := Strings.TrimSuffix (Filename w) suf in
        let suf := if String.eqb suf EmptyString then ".log"%string else suf in
        startLogger σ (with_names only suf w)
  end.

Definition restartLogger (σ : World) (w : fileLogWriter) (err : option error)
  : World * fileLogWriter * option error :=
  let '(σ, w, startLoggerErr) := startLogger σ w in
  let σ := spawn σ in
  match startLoggerErr with
  | Some e => (σ, w, Some (Errorf "rotate: restartLogger startLoggerErr: " (Error e)))
  | None =>
      match err with
      | Some e => (σ, w, Some (Errorf "rotate: restartLogger err: " (Error e)))
      | None => (σ, w, None)
      end
  end.

(** [fmt.Sprintf("%s.%s.%03d%s", ...)] and [fmt.Sprintf("%s.%s%s", ...)] *)
Definition numName (w : fileLogWriter) (timeFormat : string) (num : Z) : string :=
  (fileNameOnly w ++ "." ++ Time.Format (dailyOpenTime w) timeFormat ++ "." ++
   padInt 3 num ++ suffix w)%string.

Definition withoutNumName (w : fileLogWriter) (timeFormat : string) : string :=
  (fileNameOnly w ++ "." ++ Time.Format (dailyOpenTime w) timeFormat ++ suffix w)%string.

(** [for ; err == nil && num <= maxSuffixNum; num++ { ... }]: [n] bounds
    the rounds left, at most [maxSuffixNum] of them. *)
Fixpoint rotateLoop (n : nat) (σ : World) (w : fileLogWriter) (timeFormat : string)
    (err : option error) (num : Z) (fName : string) : loopExit :=
  match n with
  | O => LoopDone σ err num fName
  | S n' =>
      if negb (bool_decide (err = None) && (num <=? maxSuffixNum))
      then LoopDone σ err num fName
      else
        let fName := numName w timeFormat num in
        match OS.Lstat σ fName with
        | inr _ =>
            (* if file exist, try next *)
            rotateLoop n' (eprint (LogFileExist fName) σ) w timeFormat None (num + 1) fName
        | inl e =>
            if num =? 1 then
              (* for the first log, we don't want the num suffix *)
              match OS.Lstat σ (withoutNumName w timeFormat) with
              | inr _ =>
                  if (MaxLines w =? 0) && (MaxSize w =? 0) then
                    LoopReturn (restartLogger
                                  (eprint (LogSkipRotate (withoutNumName w timeFormat)) σ)
                                  w None)
                  else
                    let '(σ, err) := OS.Rename σ (withoutNumName w timeFormat) fName in
                    let σ := match err with
                             | Some e' => eprint (LogRenameFailed
                                                    (withoutNumName w timeFormat) fName e') σ
                             | None => σ
                             end in
                    let σ := eprint (LogRenameOk (withoutNumName w timeFormat) fName) σ in
                    rotateLoop n' σ w timeFormat err (num + 1) fName
              | inl e' =>
                  LoopDone (eprint (LogUseFileName (withoutNumName w timeFormat)) σ)
                    (Some e') num (withoutNumName w timeFormat)
              end
            else rotateLoop n' σ w timeFormat (Some e) (num + 1) fName
        end
  end.

Definition timeFormat (w : fileLogWriter) : string :=
  if Hourly w then "2006-01-02-15" else "2006-01-02".

Definition doRotate (σ : World) (w : fileLogWriter) (logTime : Time.t)
  : World * fileLogWriter * option error :=
  let σ := eprint (LogDoRotate logTime) σ in
  match Strconv.ParseOctal (RotatePerm w) with
  | inl e => (σ, w, Some e)
  | inr rotatePerm =>
      let timeFormat := timeFormat w in
      match OS.Lstat σ (Filename w) with
      | inl e =>
          (* even if the file is not exist or other, we should RESTART the logger *)
          restartLogger σ w (Some e)
      | inr _ =>
          match rotateLoop (S (Z.to_nat maxSuffixNum)) σ w timeFormat None 1 EmptyString with
          | LoopReturn r => r
          | LoopDone σ err num fName =>
              (* return error if the last file checked still existed *)
              if bool_decide (err = None) && (maxSuffixNum <? num) then
                (σ, w, Some (Errorf "rotate: Cannot find free log number to rename "
                               (Filename w)))
              else
                (* close fileWriter before rename *)
                let '(σ, _) := OS.Close σ (fileWriter w) in
                let σ := eprint (LogRenameLog (Filename w) fName) σ in
                (* even if occurs error, we MUST guarantee to restart new logger *)
                let '(σ, err) := OS.Rename σ (Filename w) fName in
                match err with
                | Some e => restartLogger σ w (Some e)
                | None =>
                    let '(σ, err) := OS.Chmod σ fName rotatePerm in
                    restartLogger σ w err
                end
          end
      end
  end.

(** Lines 213-231 of [WriteMsg]: the check of [needRotate], repeated
    under the write lock, and the rotation. *)
Definition rotateIfDue (σ : World) (w : fileLogWriter) (when : Time.t)
    (msg : string) (d h : Z) : World * fileLogWriter :=
  if Rotate w then
    if needRotate w (len msg) d h then
      let σ := eprint (LogWriteMsg d h) σ in
      if needRotate w (len msg) d h then
        let '(σ, w, err) := doRotate σ w when in
        match err with
        | Some e => (eprint (LogWriteMsgErr when (Filename w) e) σ, w)
        | None => (σ, w)
        end
      else (σ, w)
    else (σ, w)
  else (σ, w).

(** Lines 233-241 of [WriteMsg]: the append and the counters. *)
Definition appendMsg (σ : World) (w : fileLogWriter) (msg : string)
  : World * fileLogWriter * option error :=
  let '(σ, (_, err)) := OS.Write σ (fileWriter w) (bytes msg) in
  match err with
  | None =>
      (σ, with_counters (wrap64 (maxLinesCurLines w + 1))
            (wrap64 (maxSizeCurSize w + len msg)) w, None)
  | Some e => (σ, w, Some e)
  end.

Definition stripped (w : fileLogWriter) (msg : string) : string :=
  if StripColors w then Strip msg else msg.

(** [WriteMsg]; [None] is the panic of [formatTimeHeader]. *)
Definition WriteMsg (σ : World) (w : fileLogWriter) (when : Time.t) (msg : string)
  : option (World * fileLogWriter * option error) :=
  '(_, d, h) ← formatTimeHeader when;
  let msg := stripped w msg in
  let '(σ, w) := rotateIfDue σ w when msg d h in
  Some (appendMsg σ w msg).

(** The function [deleteOldLog] passes to [filepath.Walk]. *)
Definition deleteOldLogFn (w : fileLogWriter) (σ : World) (path : string)
    (info : option FileInfo) : World :=
  match info with
  | None => σ
  | Some info =>
      if negb (IsDir info) &&
         Time.Before (Time.Add (ModTime info) (wrap64 (24 * Time.Hour * MaxDays w)))
           (OS.Now σ)
      then
        if Strings.HasPrefix (Filepath.Base path) (Filepath.Base (fileNameOnly w)) &&
           Strings.HasSuffix (Filepath.Base path) (suffix w)
        then (OS.Remove σ path).1
        else σ
      else σ
  end.

Definition deleteOldLog (σ : World) (w : fileLogWriter) : World :=
  foldl (λ σ e, deleteOldLogFn w σ e.1 e.2) σ
    (OS.walkEntries σ (Filepath.Dir (Filename w))).

Definition Destroy (σ : World) (w : fileLogWriter) : World :=
  (OS.Close σ (fileWriter w)).1.

Definition Flush (σ : World) (w : fileLogWriter) : World :=
  (OS.Sync σ (fileWriter w)).1.

(** *** The registry

    [instance] maps a configuration string to a pointer; the writers
    live in [heap]. *)
Record Process : Type := mkProcess {
  world : World;
  heap : gmap nat fileLogWriter;
  instance : option (gmap string nat)     (* [None] is the nil map *)
}.

Definition newFileWriter (p : Process) (jsonConfig : string) : Process * option nat :=
  let inst := match instance p with
              | None => ∅
              | Some m => m
              end in
  match inst !! jsonConfig with
  | Some value =>
      (mkProcess (eprint LogUseExist (world p)) (heap p) (Some inst), Some value)
  | None =>
      let ptr := fresh (dom (heap p)) in
      let σ := eprint LogCreateNew (world p) in
      let '(σ, w, err) := Init σ defaultWriter jsonConfig in
      match err with
      | Some _ => (mkProcess σ (<[ptr := w]> (heap p)) (Some inst), None)
      | None =>
          (mkProcess σ (<[ptr := w]> (heap p)) (Some (<[jsonConfig := ptr]> inst)),
           Some ptr)
      end
  end.

(** A method called through a pointer of the heap. *)
Definition WriteMsgAt (p : Process) (ptr : nat) (when : Time.t) (msg : string)
  : option (Process * option error) :=
  w ← heap p !! ptr;
  '(σ, w', err) ← WriteMsg (world p) w when msg;
  Some (mkProcess σ (<[ptr := w']> (heap p)) (instance p), err).


(** *** Observations

    What the statements below observe of a run. *)

(** The number of rotations started so far: [doRotate] announces each
    call on standard error. *)
Definition isDoRotate (e : LogEvent) : bool :=
  match e with
  | LogDoRotate _ => true
  | _ => false
  end.

Fixpoint countRotations (l : list LogEvent) : nat :=
  match l with
  | [] => 0
  | e :: l' => (if isDoRotate e then 1 else 0) + countRotations l'
  end%nat.

Definition rotations (σ : World) : nat := countRotations (stderr σ).

(** The handle can be appended to: it is open, was opened for writing,
    and its inode is there. *)
Definition usable (σ : World) (f : option nat) : bool :=
  match OS.valid σ "write" f with
  | inr (_, fl, _) => f_wr fl
  | inl _ => false
  end.

(** The handle of the writer, if it has one, is a file of this world. *)
Definition knownHandle (σ : World) (w : fileLogWriter) : bool :=
  match fileWriter w with
  | Some fd => bool_decide (is_Some (files σ !! fd))
  | None => true
  end.

(** A sequence of calls of [WriteMsg], with the errors they return. *)
Fixpoint WriteMsgs (σ : World) (w : fileLogWriter) (calls : list (Time.t * string))
  : option (World * fileLogWriter * list (option error)) :=
  match calls with
  | [] => Some (σ, w, [])
  | (when, msg) :: rest =>
      '(σ, w, err) ← WriteMsg σ w when msg;
      '(σ, w, errs) ← WriteMsgs σ w rest;
      Some (σ, w, err :: errs)
  end.

Definition exitWorld (x : loopExit) : World :=
  match x with
  | LoopReturn r => r.1.1
  | LoopDone σ _ _ _ => σ
  end.

(** The two halves of [needRotate]. *)
Definition limitsDue (w : fileLogWriter) : bool :=
  ((0 <? MaxLines w) && (MaxLines w <=? maxLinesCurLines w)) ||
  ((0 <? MaxSize w) && (MaxSize w <=? maxSizeCurSize w)).

Definition calendarDue (w : fileLogWriter) (day hour : Z) : bool :=
  (Daily w && negb (day =? DailyOpenDate w)) ||
  (Hourly w && negb (hour =? HourlyOpenDate w)).

(** A run of [doRotate] that reaches the rename of the active path,
    to [fName], and in which this rename fails with [e], leaving the
    world [σr]. *)
Definition renameFails (σ : World) (w : fileLogWriter) (logTime : Time.t)
    (fName : string) (e : error) (σr : World) : Prop :=
  ∃ rotatePerm fi σl err num,
    Strconv.ParseOctal (RotatePerm w) = inr rotatePerm ∧
    OS.Lstat (eprint (LogDoRotate logTime) σ) (Filename w) = inr fi ∧
    rotateLoop (S (Z.to_nat maxSuffixNum)) (eprint (LogDoRotate logTime) σ) w
      (timeFormat w) None 1 EmptyString = LoopDone σl err num fName ∧
    bool_decide (err = None) && (maxSuffixNum <? num) = false ∧
    OS.Rename (eprint (LogRenameLog (Filename w) fName) (OS.Close σl (fileWriter w)).1)
      (Filename w) fName = (σr, Some e).

(** What [deleteOldLog] is to remove: the entries the walk meets that
    are not directories, whose name has the prefix and the suffix of
    the log file, and that were last modified more than [MaxDays] days
    before now. *)
Definition nameMatches (w : fileLogWriter) (path : string) : bool :=
  Strings.HasPrefix (Filepath.Base path) (Filepath.Base (fileNameOnly w)) &&
  Strings.HasSuffix (Filepath.Base path) (suffix w).

Definition aged (σ : World) (w : fileLogWriter) (fi : FileInfo) : bool :=
  ModTime fi <? now σ - 24 * Time.Hour * MaxDays w.

Definition swept (σ : World) (w : fileLogWriter) (path : string) : bool :=
  bool_decide (path ∈ (OS.walkEntries σ (Filepath.Dir (Filename w))).*1) &&
  match OS.Lstat σ path with
  | inr fi => negb (IsDir fi) && aged σ w fi && nameMatches w path
  | inl _ => false
  end.

(** The time is one [formatTimeHeader] accepts and lies in the day and
    hour the active file was opened in, as far as [Daily] and [Hourly]
    look at them. *)
Definition inBucket (w : fileLogWriter) (when : Time.t) : bool :=
  bool_decide (is_Some (formatTimeHeader when)) &&
  negb (calendarDue w (Time.Day when) (Time.Hour_ when)).

(** The bytes a sequence of calls appends. *)
Definition totalLen (w : fileLogWriter) (calls : list (Time.t * string)) : Z :=
  foldr (λ c acc, len (stripped w c.2) + acc) 0 calls.

End Writer.

(** *** Further observations *)

(** The entries the sweep may remove, for any [MaxDays]: the test of
    the callback as the machine evaluates it. *)
Definition condemned (σ : World) (w : fileLogWriter) (path : string) (fi : FileInfo)
  : Prop :=
  IsDir fi = false ∧
  Time.Before (Time.Add (ModTime fi) (wrap64 (24 * Time.Hour * MaxDays w))) (now σ) = true ∧
  nameMatches w path = true.

(** The fields a configuration sets and no method assigns after
    [Init]: two receivers that agree on them. *)
Definition sameConfig (w w' : fileLogWriter) : Prop :=
  Filename w' = Filename w ∧ MaxLines w' = MaxLines w ∧ MaxSize w' = MaxSize w ∧
  StripColors w' = StripColors w ∧ Hourly w' = Hourly w ∧ Daily w' = Daily w ∧
  MaxDays w' = MaxDays w ∧ Rotate w' = Rotate w ∧ Level w' = Level w ∧
  Perm w' = Perm w ∧ RotatePerm w' = RotatePerm w ∧
  fileNameOnly w' = fileNameOnly w ∧ suffix w' = suffix w.

(** The inode a path names, as [createLogFile] finds it: what is kept
    of it when the file is opened, and what a file made anew starts
    with. *)
Definition reopened (σ : World) (name : string) (perm : Z) : Inode :=
  match OS.resolve σ name with
  | Some (_, i) => mkInode false (i_data i) (i_mtime i) (OS.permBits perm)
  | None => mkInode false [] (now σ) (OS.permBits perm)
  end.

(** Every number [doRotate] can give an archive is taken. *)
Definition numbersTaken (σ : World) (w : fileLogWriter) : bool :=
  forallb (λ k, bool_decide (is_Some (OS.resolve σ (numName w (timeFormat w) k))))
    (seqZ 1 maxSuffixNum).

(** The contents of the files, by inode. *)
Definition contents (σ : World) (ino : nat) : option (list ascii) :=
  i_data <$> inodes σ !! ino.

(** *** Invariants of a run

    [keeps]: every file there was is still there, with the contents and
    the modification time it had (its mode may differ). *)
Definition keeps (σ σ' : World) : Prop :=
  ∀ ino i, inodes σ !! ino = Some i →
    ∃ i', inodes σ' !! ino = Some i' ∧ i_dir i' = i_dir i ∧
          i_data i' = i_data i ∧ i_mtime i' = i_mtime i.

(** Every handle is on a file that exists. *)
Definition handlesLive (σ : World) : Prop :=
  map_Forall (λ _ fl, is_Some (inodes σ !! f_ino fl)) (files σ).

(** The process holds no open file but the handle of the writer. *)
Definition onlyHandle (σ : World) (w : fileLogWriter) : Prop :=
  map_Forall (λ fd fl, f_closed fl = false → fileWriter w = Some fd) (files σ).

(** [maxSizeCurSize] is the size [Stat] reports for the handle, as
    long as the handle is open. *)
Definition sized (σ : World) (w : fileLogWriter) : bool :=
  match OS.Stat σ (fileWriter w) with
  | inr fi => maxSizeCurSize w =? Size fi
  | inl _ => true
  end.

(** The invariant of a writer in its world: its handle, if it has one,
    is a file of the world, every handle is on a file that exists, and
    no file is open but this handle. *)
Definition tidy (σ : World) (w : fileLogWriter) : Prop :=
  knownHandle σ w = true ∧ handlesLive σ ∧ onlyHandle σ w.

(** No file is larger than an [int64] can tell. *)
Definition fitsInt64 (σ : World) : Prop :=
  map_Forall (λ _ i, Z.of_nat (length (i_data i)) ≤ maxInt64) (inodes σ).

(** What [doRotate] has done to the world when it calls
    [restartLogger]: renamed files and changed modes, and closed the
    handle of the writer at most. *)
Definition closedHandle (fl : File) : File :=
  mkFile (f_name fl) (f_ino fl) (f_pos fl) (f_wr fl) true.

Definition preRestart (w : fileLogWriter) (σ σm : World) : Prop :=
  keeps σ σm ∧
  (∀ fd, files σm !! fd = files σ !! fd ∨
         (fileWriter w = Some fd ∧
          ∃ fl, files σ !! fd = Some fl ∧ files σm !! fd = Some (closedHandle fl))).

(** *** The time header, digit by digit

    [timeHeader] is the layout the comment in [formatTimeHeader] gives,
    [2006/01/02 15:04:05.123 ], written with divisions instead of
    tables. *)
Definition decimalDigit (n : Z) : ascii := ascii_of_nat (Z.to_nat (48 + n)).

Definition twoDigits (n : Z) : list ascii := [decimalDigit (n / 10); decimalDigit (n mod 10)].

Definition timeHeader (when : Time.t) : list ascii :=
  let '(y, mo, d) := Time.Date when in
  let '(h, mi, s) := Time.Clock when in
  let ms := Time.Nanosecond when / 1000000 in
  twoDigits (y / 100) ++ twoDigits (y mod 100) ++ "/"%char :: twoDigits mo ++
  "/"%char :: twoDigits d ++ " "%char :: twoDigits h ++ ":"%char :: twoDigits mi ++
  ":"%char :: twoDigits s ++ "."%char :: decimalDigit (ms / 100) :: twoDigits (ms mod 100) ++
  [" "%char].

(** A table gives, at every index, the digit [f] computes. *)
Definition tabulates (tbl : string) (f : Z → Z) : bool :=
  forallb (λ i, bool_decide (index tbl i = Some (decimalDigit (f i)))) (seqZ 0 (len tbl)).

(** *** Text without escapes

    No byte of the text is ESC, and no two bytes of it are the UTF-8
    encoding of U+009B: the two ways a match of [ansi] begins. *)
Fixpoint noEscape (s : list ascii) : bool :=
  match s with
  | [] => true
  | c :: s' =>
      negb (Regexp.code c =? 27) &&
      negb ((Regexp.code c =? 194) &&
            match s' with
            | c2 :: _ => Regexp.code c2 =? 155
            | [] => false
            end) &&
      noEscape s'
  end.

(** ** Runs

    Worlds and configurations the statements below are tried on.  The
    process works in a directory of mode 0755 with umask 022; the decoder
    and the matcher are [Json.Unmarshal] and [Regexp.ReplaceAllString]. *)

Module Run.

Definition U := Json.Unmarshal.
Definition R := Regexp.ReplaceAllString.

Definition nl : string := String newline EmptyString.
Definition line (s : string) : string := (s ++ nl)%string.

Definition jan15 : Time.t := Time.at_ 2024 1 15 10 0 0.
Definition jan15_11h : Time.t := Time.at_ 2024 1 15 11 0 0.
Definition feb15 : Time.t := Time.at_ 2024 2 15 10 0 0.
Definition jan16 : Time.t := Time.at_ 2024 1 16 10 0 0.

Definition cwd : Inode := mkInode true [] (Time.at_ 2024 1 1 0 0 0) 493.

(** An empty working directory, on 2024-01-15 at 10:00. *)
Definition emptyDir : World :=
  mkWorld {[ "."%string := 0%nat ]} {[ 0%nat := cwd ]} ∅ jan15 18 [] 0.

Definition world_of (r : World * fileLogWriter * option error) : World := r.1.1.
Definition writer_of (r : World * fileLogWriter * option error) : fileLogWriter := r.1.2.
Definition error_of (r : World * fileLogWriter * option error) : option error := r.2.

(** [{"filename":"app.log"}] with further members. *)
Definition config (members : string) : string :=
  (dq ["{"; "filename"; ":"; "app.log"; EmptyString] ++ members ++ "}")%string.

Definition member (key value : string) : string :=
  (dq [","; key; ":"] ++ value)%string.

Definition start (σ : World) (cfg : string) : World * fileLogWriter * option error :=
  Init U σ defaultWriter cfg.

(** Run the calls in turn; [None] when one panics. *)
Definition writeAll (r : World * fileLogWriter * option error)
    (calls : list (Time.t * string)) : option (World * fileLogWriter * option error) :=
  foldl (λ acc c, r ← acc; WriteMsg R (world_of r) (writer_of r) c.1 c.2) (Some r) calls.

(** *** Two lines a file *)
Definition twoLines : World * fileLogWriter * option error :=
  start emptyDir (config (member "maxlines" "2")).

(** After two writes, and after the third, which rotates. *)
Definition twoLines_full : option (World * fileLogWriter * option error) :=
  writeAll twoLines [(jan15, line "a"); (jan15, line "b")].
Definition twoLines_rotated : option (World * fileLogWriter * option error) :=
  writeAll twoLines [(jan15, line "a"); (jan15, line "b"); (jan15, line "c")].
(** After two more writes: the second rotation of the hour is due. *)
Definition twoLines_again : option (World * fileLogWriter * option error) :=
  writeAll twoLines [(jan15, line "a"); (jan15, line "b"); (jan15, line "c");
                     (jan15, line "d")].

(** *** Daily rotation only *)
Definition daily : World * fileLogWriter * option error :=
  start emptyDir (config (member "hourly" "false")).

(** *** A directory that has become read-only *)
Definition readOnlyDir : World * fileLogWriter * option error :=
  let r := start emptyDir (config EmptyString) in
  ((OS.Chmod (world_of r) "." 365).1, writer_of r, None).

(** ... and a log file that has become read-only too. *)
Definition readOnlyFile : World * fileLogWriter * option error :=
  ((OS.Chmod (world_of readOnlyDir) "app.log" 288).1, writer_of readOnlyDir, None).

(** *** A log file left from an earlier run *)
Definition threeLines : list ascii := bytes (line "a" ++ line "b" ++ line "c").

Definition withOldLog (mtime : Time.t) : World :=
  mkWorld {[ "."%string := 0%nat; "app.log"%string := 1%nat ]}
    {[ 0%nat := cwd; 1%nat := mkInode false threeLines mtime 432 ]} ∅ jan15 18 [] 0.

(** *** An old log file, and an archive by its name already there *)
Definition jan1 : Time.t := Time.at_ 2024 1 1 9 0 0.
Definition jan14 : Time.t := Time.at_ 2024 1 14 9 0 0.

Definition stale : World :=
  mkWorld {[ "."%string := 0%nat; "app.log"%string := 1%nat;
             "app.2024-01-01.log"%string := 2%nat;
             "app.2024-01-14.log"%string := 3%nat;
             "notes.txt"%string := 4%nat ]}
    {[ 0%nat := cwd; 1%nat := mkInode false threeLines jan1 432;
       2%nat := mkInode false [] jan1 288;
       3%nat := mkInode false [] jan14 288;
       4%nat := mkInode false [] jan1 420 ]} ∅ jan15 18 [] 0.

Definition staleDaily : World * fileLogWriter * option error :=
  start stale (config (member "hourly" "false")).

(** *** Two spellings of one configuration *)
Definition spelling1 : string := config EmptyString.
Definition spelling2 : string := (" " ++ config EmptyString)%string.

Definition process0 : Process := mkProcess emptyDir ∅ None.

(** The state a run of calls ends in ([r] itself should one panic). *)
Definition after (r : World * fileLogWriter * option error)
    (calls : list (Time.t * string)) : World * fileLogWriter * option error :=
  default r (writeAll r calls).

Definition inodeAt (σ : World) (path : string) : Inode :=
  from_option snd cwd (OS.resolve σ path).

(** Two files of two lines written; the second rotation of the hour is
    due. *)
Definition secondDue : World * fileLogWriter * option error :=
  after twoLines [(jan15, line "a"); (jan15, line "b"); (jan15, line "c");
                  (jan15, line "d")].

(** *** Ten bytes a file, eight of them written *)
Definition tenBytes : World * fileLogWriter * option error :=
  after (start emptyDir (config (member "maxsize" "10"))) [(jan15, "12345678"%string)].

(** *** Ten lines a file *)
Definition tenLines : World * fileLogWriter * option error :=
  start emptyDir (config (member "maxlines" "10")).

(** The archival name of the hour the file was opened in, the error of
    a rename to it in a read-only directory, and the world at the time
    of that rename for [doRotate] at 11:00 from the state [r]. *)
Definition archive1 : string := "app.2024-01-15-10.log".
Definition renameDenied : error := LinkError "rename" "app.log" archive1 EACCES.
Definition renameAttempt (r : World * fileLogWriter * option error) : World :=
  eprint (LogRenameLog "app.log" archive1)
    (OS.Close (eprint (LogUseFileName archive1)
                 (eprint (LogDoRotate jan15_11h) (world_of r)))
       (fileWriter (writer_of r))).1.

(** The paths the sweep of [staleDaily] walks over. *)
Definition staleWalked : list string :=
  Eval vm_compute in
    (OS.walkEntries (world_of staleDaily) (Filepath.Dir (Filename (writer_of staleDaily)))).*1.

(** *** Every archive number of the hour taken

    The archives are links to one empty file; the log file holds the
    one line it may. *)
Definition archiveN (k : Z) : string :=
  ("app.2024-01-15-10." ++ padInt 3 k ++ ".log")%string.

Definition crowdedDir : World :=
  mkWorld (foldr (λ k m, <[archiveN k := 2%nat]> m)
             {[ "."%string := 0%nat; "app.log"%string := 1%nat ]} (seqZ 1 999))
    {[ 0%nat := cwd; 1%nat := mkInode false (bytes (line "a")) jan15 432;
       2%nat := mkInode false [] jan15 288 ]} ∅ jan15 18 [] 0.

Definition crowded : World * fileLogWriter * option error :=
  start crowdedDir (config (member "maxlines" "1")).

(** *** A retention that wraps

    [MaxDays] 106752, one nanosecond after the log file was made. *)
Definition longRetention : World * fileLogWriter * option error :=
  let r := start emptyDir (config (member "maxdays" "106752")) in
  (set_now (now (world_of r) + 1) (world_of r), writer_of r, error_of r).

(** *** An instant with milliseconds *)
Definition leapDay : Time.t := Time.at_ 2024 2 29 13 5 7 + 123456789.

End Run.

(** ** Properties *)

Section Properties.

Set Default Proof Using "Type".

(** The decoder and the matcher: any. *)
Variable U : string → fileLogWriter → fileLogWriter * option error.
Variable R : string → string → string → string.


Lemma wrap64_id z : inInt64 z → wrap64 z = z.
Proof.
  unfold inInt64, minInt64, maxInt64, wrap64. intros H.
  rewrite Z.mod_small; lia.
Qed.

Lemma countRotations_app l1 l2 :
  countRotations (l1 ++ l2) = (countRotations l1 + countRotations l2)%nat.
Proof. induction l1 as [|e l1 IH]; simpl; [done | rewrite IH; lia]. Qed.

Lemma rotations_eprint e σ :
  rotations (eprint e σ) = (rotations σ + (if isDoRotate e then 1 else 0))%nat.
Proof. unfold rotations, eprint; simpl. rewrite countRotations_app. simpl. lia. Qed.

Lemma rotations_stderr σ σ' : stderr σ' = stderr σ → rotations σ' = rotations σ.
Proof. unfold rotations. by intros ->. Qed.

(** *** What the system calls leave alone *)

Lemma newFile_frame σ f σ' fd :
  OS.newFile σ f = (σ', fd) →
  σ' = set_files (insert fd f) σ ∧ files σ !! fd = None.
Proof.
  unfold OS.newFile. intros [= <- <-]. split; [done|].
  apply not_elem_of_dom, is_fresh.
Qed.

Lemma OpenFile_stderr σ name perm σ' r :
  OS.OpenFile σ name perm = (σ', r) → stderr σ' = stderr σ.
Proof.
  unfold OS.OpenFile, OS.newFile. intros H.
  repeat (case_match; simplify_eq/=); done.
Qed.

Lemma Open_stderr σ name σ' r :
  OS.Open σ name = (σ', r) → stderr σ' = stderr σ.
Proof.
  unfold OS.Open, OS.newFile. intros H.
  repeat (case_match; simplify_eq/=); done.
Qed.

Lemma Chmod_stderr σ name mode σ' r :
  OS.Chmod σ name mode = (σ', r) → stderr σ' = stderr σ.
Proof.
  unfold OS.Chmod. intros H. repeat (case_match; simplify_eq/=); done.
Qed.

Lemma Write_stderr σ f b σ' r :
  OS.Write σ f b = (σ', r) → stderr σ' = stderr σ.
Proof.
  unfold OS.Write. intros H. repeat (case_match; simplify_eq/=); done.
Qed.

Lemma Read_stderr σ f n σ' r :
  OS.Read σ f n = (σ', r) → stderr σ' = stderr σ.
Proof.
  unfold OS.Read. intros H. repeat (case_match; simplify_eq/=); done.
Qed.

Lemma Close_stderr σ f σ' r :
  OS.Close σ f = (σ', r) → stderr σ' = stderr σ.
Proof.
  unfold OS.Close. intros H. repeat (case_match; simplify_eq/=); done.
Qed.

Lemma Rename_stderr σ old new σ' r :
  OS.Rename σ old new = (σ', r) → stderr σ' = stderr σ.
Proof.
  unfold OS.Rename. intros H. repeat (case_match; simplify_eq/=); done.
Qed.

Lemma Remove_stderr σ name σ' r :
  OS.Remove σ name = (σ', r) → stderr σ' = stderr σ.
Proof.
  unfold OS.Remove. intros H. repeat (case_match; simplify_eq/=); done.
Qed.

(** *** Standard error across the writer's own functions *)

Lemma createLogFile_stderr σ w σ' r :
  createLogFile σ w = (σ', r) → stderr σ' = stderr σ.
Proof.
  unfold createLogFile. intros H.
  destruct (Strconv.ParseOctal (Perm w)) as [e|perm]; [by simplify_eq|].
  destruct (OS.OpenFile σ (Filename w) perm) as [σ1 [e|fd]] eqn:E1;
    apply OpenFile_stderr in E1; [by simplify_eq|].
  destruct (OS.Chmod σ1 (Filename w) perm) as [σ2 r2] eqn:E2.
  apply Chmod_stderr in E2. simplify_eq. congruence.
Qed.

Lemma linesLoop_stderr n : ∀ σ fd count σ' r,
  linesLoop n σ fd count = (σ', r) → stderr σ' = stderr σ.
Proof.
  induction n as [|n IH]; intros σ fd count σ' r; simpl; [by intros [= <- _]|].
  destruct (OS.Read σ fd readBuf) as [σ1 [buf err]] eqn:E.
  apply Read_stderr in E. destruct err as [e|].
  - destruct e; intros [= <- _]; done.
  - intros H. apply IH in H. congruence.
Qed.

Lemma lines_stderr σ w σ' r :
  lines σ w = (σ', r) → stderr σ' = stderr σ.
Proof.
  unfold lines. intros H.
  destruct (OS.Open σ (Filename w)) as [σ1 [e|fd]] eqn:E1;
    apply Open_stderr in E1; [by simplify_eq|].
  destruct (linesLoop _ σ1 (Some fd) 0) as [σ2 res] eqn:E2.
  apply linesLoop_stderr in E2.
  destruct (OS.Close σ2 (Some fd)) as [σ3 r3] eqn:E3.
  apply Close_stderr in E3. simplify_eq. congruence.
Qed.

Lemma initFd_stderr σ w σ' w' r :
  initFd σ w = (σ', w', r) → stderr σ' = stderr σ.
Proof.
  unfold initFd. intros H.
  destruct (OS.Stat σ (fileWriter w)) as [e|fi]; [by simplify_eq|].
  destruct (_ && _ && _) in H; [|by simplify_eq].
  destruct (lines σ _) as [σ1 [count err]] eqn:E. apply lines_stderr in E.
  destruct err; simplify_eq; done.
Qed.

Lemma startLogger_stderr σ w σ' w' r :
  startLogger σ w = (σ', w', r) → stderr σ' = stderr σ.
Proof.
  unfold startLogger. intros H.
  destruct (createLogFile σ w) as [σ1 [e|file]] eqn:E1;
    apply createLogFile_stderr in E1; [by simplify_eq|].
  apply initFd_stderr in H. rewrite H, <- E1.
  destruct (fileWriter w); [|done].
  destruct (OS.Close σ1 (Some n)) as [σ2 r2] eqn:E2.
  by apply Close_stderr in E2.
Qed.

Lemma restartLogger_stderr σ w err σ' w' r :
  restartLogger σ w err = (σ', w', r) → stderr σ' = stderr σ.
Proof.
  unfold restartLogger. intros H.
  destruct (startLogger σ w) as [[σ1 w1] e1] eqn:E. apply startLogger_stderr in E.
  destruct e1, err; simplify_eq; done.
Qed.


Lemma rotateLoop_rotations n : ∀ σ w tf err num fName,
  rotations (exitWorld (rotateLoop n σ w tf err num fName)) = rotations σ.
Proof.
  induction n as [|n IH]; intros σ w tf err num fName; simpl; [done|].
  destruct (negb _); [done|].
  destruct (OS.Lstat σ (numName w tf num)) as [e|fi].
  - destruct (num =? 1).
    + destruct (OS.Lstat σ (withoutNumName w tf)) as [e'|fi'].
      * simpl. by rewrite rotations_eprint, Nat.add_0_r.
      * destruct (_ && _).
        -- simpl. destruct (restartLogger _ w None) as [[σ1 w1] r1] eqn:E.
           apply restartLogger_stderr in E. simpl.
           rewrite (rotations_stderr _ _ E), rotations_eprint. simpl. lia.
        -- destruct (OS.Rename σ _ _) as [σ1 r1] eqn:E.
           apply Rename_stderr in E. rewrite IH, rotations_eprint.
           destruct r1; [rewrite rotations_eprint|]; simpl;
             rewrite (rotations_stderr _ _ E); lia.
    + by rewrite IH.
  - rewrite IH, rotations_eprint. simpl. lia.
Qed.

(** Every call of [doRotate] is one rotation started, however it ends. *)
Lemma doRotate_rotations σ w logTime :
  rotations (doRotate σ w logTime).1.1 = S (rotations σ).
Proof.
  unfold doRotate.
  assert (H0 : rotations (eprint (LogDoRotate logTime) σ) = S (rotations σ))
    by (rewrite rotations_eprint; simpl; lia).
  revert H0. generalize (eprint (LogDoRotate logTime) σ). intros σ0 H0.
  destruct (Strconv.ParseOctal (RotatePerm w)) as [e|perm]; [done|].
  destruct (OS.Lstat σ0 (Filename w)) as [e|fi].
  { destruct (restartLogger σ0 w (Some e)) as [[σ1 w1] r1] eqn:E.
    apply restartLogger_stderr in E. simpl. by rewrite (rotations_stderr _ _ E). }
  pose proof (rotateLoop_rotations (S (Z.to_nat maxSuffixNum)) σ0 w
                (timeFormat w) None 1 EmptyString) as HL.
  destruct (rotateLoop _ σ0 w _ None 1 EmptyString) as [r|σl err num fName].
  { simpl in HL. congruence. }
  simpl in HL. destruct (_ && _); [simpl; congruence|].
  destruct (OS.Close σl (fileWriter w)) as [σc rc] eqn:Ec. apply Close_stderr in Ec.
  destruct (OS.Rename _ (Filename w) fName) as [σr rr] eqn:Er. apply Rename_stderr in Er.
  assert (Hr : rotations σr = S (rotations σ)).
  { rewrite (rotations_stderr _ _ Er), rotations_eprint. simpl.
    rewrite (rotations_stderr _ _ Ec). lia. }
  destruct rr as [e|].
  - destruct (restartLogger σr w (Some e)) as [[σ1 w1] r1] eqn:E.
    apply restartLogger_stderr in E. simpl. by rewrite (rotations_stderr _ _ E).
  - destruct (OS.Chmod σr fName perm) as [σm rm] eqn:Em. apply Chmod_stderr in Em.
    destruct (restartLogger σm w rm) as [[σ1 w1] r1] eqn:E.
    apply restartLogger_stderr in E. simpl.
    rewrite (rotations_stderr _ _ E), (rotations_stderr _ _ Em). done.
Qed.

(** *** Appending *)

Lemma usable_inv σ f :
  usable σ f = true →
  ∃ fd fl i, f = Some fd ∧ files σ !! fd = Some fl ∧ f_closed fl = false ∧
             f_wr fl = true ∧ inodes σ !! f_ino fl = Some i.
Proof.
  unfold usable, OS.valid. intros H.
  destruct f as [fd|]; [|done].
  destruct (files σ !! fd) as [fl|] eqn:Hfl; [|done].
  destruct (f_closed fl) eqn:Hc; [done|].
  destruct (inodes σ !! f_ino fl) as [i|] eqn:Hi; [|done].
  by exists fd, fl, i.
Qed.

Lemma usable_intro σ fd fl i :
  files σ !! fd = Some fl → f_closed fl = false → f_wr fl = true →
  inodes σ !! f_ino fl = Some i → usable σ (Some fd) = true.
Proof. unfold usable, OS.valid. intros -> -> Hw ->. done. Qed.

Lemma usable_frame σ σ' f :
  files σ' = files σ → inodes σ' = inodes σ → usable σ' f = usable σ f.
Proof. unfold usable, OS.valid. by intros -> ->. Qed.

Lemma Write_usable σ f b :
  usable σ f = true →
  ∃ σ', OS.Write σ f b = (σ', (Z.of_nat (length b), None)) ∧
        usable σ' f = true ∧ stderr σ' = stderr σ ∧
        names σ' = names σ ∧ files σ' = files σ.
Proof.
  intros H. destruct (usable_inv _ _ H) as (fd & fl & i & -> & Hfl & Hc & Hw & Hi).
  unfold OS.Write, OS.valid. rewrite Hfl, Hc, Hi. simpl. rewrite Hw. simpl.
  destruct b as [|c b]; [by exists σ|].
  eexists. split; [done|]. repeat split.
  eapply usable_intro; simpl; eauto. by rewrite lookup_insert_eq.
Qed.

Lemma Write_unusable σ f b :
  usable σ f = false →
  ∃ e, OS.Write σ f b = (σ, (0, Some e)).
Proof.
  unfold usable, OS.Write. intros H.
  destruct (OS.valid σ "write" f) as [e|[[fd fl] i]]; [by exists e|].
  rewrite H. simpl. by eexists.
Qed.

Lemma appendMsg_usable σ w msg :
  usable σ (fileWriter w) = true →
  ∃ σ', appendMsg σ w msg =
          (σ', with_counters (wrap64 (maxLinesCurLines w + 1))
                 (wrap64 (maxSizeCurSize w + len msg)) w, None) ∧
        usable σ' (fileWriter w) = true ∧ stderr σ' = stderr σ ∧
        names σ' = names σ ∧ files σ' = files σ.
Proof.
  intros H. destruct (Write_usable σ _ (bytes msg) H) as (σ' & E & Hu & Hs & Hn & Hf).
  exists σ'. unfold appendMsg. rewrite E. done.
Qed.

Lemma appendMsg_stderr σ w msg σ' w' r :
  appendMsg σ w msg = (σ', w', r) → stderr σ' = stderr σ.
Proof.
  unfold appendMsg. destruct (OS.Write σ (fileWriter w) (bytes msg)) as [σ1 [n err]] eqn:E.
  apply Write_stderr in E. destruct err; intros [= <- _ _]; done.
Qed.

(** *** When a rotation is due *)


Lemma needRotate_split w size day hour :
  needRotate w size day hour = limitsDue w || calendarDue w day hour.
Proof. unfold needRotate, limitsDue, calendarDue. by rewrite !orb_assoc. Qed.

Lemma formatTimeHeader_day when buf d h :
  formatTimeHeader when = Some (buf, d, h) →
  d = Time.Day when ∧ h = Time.Hour_ when.
Proof.
  unfold formatTimeHeader, Time.Day, Time.Hour_.
  destruct (Time.Date when) as [[y mo] d'], (Time.Clock when) as [[h' mi] s].
  intros H. simplify_option_eq. done.
Qed.

Lemma rotateIfDue_skip σ w when msg d h :
  Rotate w && needRotate w (len msg) d h = false →
  rotateIfDue σ w when msg d h = (σ, w).
Proof.
  unfold rotateIfDue. destruct (Rotate w); [|done]. simpl. by intros ->.
Qed.

Lemma rotateIfDue_due σ w when msg d h :
  Rotate w = true → needRotate w (len msg) d h = true →
  rotations (rotateIfDue σ w when msg d h).1 = S (rotations σ).
Proof.
  unfold rotateIfDue. intros -> ->.
  pose proof (doRotate_rotations (eprint (LogWriteMsg d h) σ) w when) as H.
  destruct (doRotate _ w when) as [[σ1 w1] err]. simpl in H.
  rewrite rotations_eprint in H. simpl in H.
  destruct err; simpl; [rewrite rotations_eprint; simpl|]; lia.
Qed.

Lemma WriteMsg_unfold σ w when msg buf d h :
  formatTimeHeader when = Some (buf, d, h) →
  WriteMsg R σ w when msg =
    Some (let '(σ1, w1) := rotateIfDue σ w when (stripped R w msg) d h in
          appendMsg σ1 w1 (stripped R w msg)).
Proof.
  unfold WriteMsg. intros ->. simpl.
  by destruct (rotateIfDue σ w when (stripped R w msg) d h).
Qed.

(** A call that finds no rotation due appends, counts, and starts no
    rotation. *)
Lemma WriteMsg_no_rotation σ w when msg :
  is_Some (formatTimeHeader when) →
  Rotate w && (limitsDue w || calendarDue w (Time.Day when) (Time.Hour_ when)) = false →
  usable σ (fileWriter w) = true →
  ∃ σ', WriteMsg R σ w when msg =
          Some (σ', with_counters (wrap64 (maxLinesCurLines w + 1))
                      (wrap64 (maxSizeCurSize w + len (stripped R w msg))) w, None) ∧
        usable σ' (fileWriter w) = true ∧ rotations σ' = rotations σ ∧
        names σ' = names σ ∧ files σ' = files σ.
Proof.
  intros [[[buf d] h] Hh] Hdue Hu.
  destruct (formatTimeHeader_day _ _ _ _ Hh) as [-> ->].
  rewrite (WriteMsg_unfold _ _ _ _ _ _ _ Hh), rotateIfDue_skip
    by (by rewrite needRotate_split).
  destruct (appendMsg_usable σ w (stripped R w msg) Hu) as (σ' & -> & Hu' & Hs & Hn & Hf).
  exists σ'. repeat split; try done. by apply rotations_stderr.
Qed.

(** A call that finds a rotation due starts exactly one. *)
Lemma WriteMsg_rotation σ w when msg :
  is_Some (formatTimeHeader when) →
  Rotate w = true →
  limitsDue w || calendarDue w (Time.Day when) (Time.Hour_ when) = true →
  ∃ σ' w' err, WriteMsg R σ w when msg = Some (σ', w', err) ∧
               rotations σ' = S (rotations σ).
Proof.
  intros [[[buf d] h] Hh] Hr Hdue.
  destruct (formatTimeHeader_day _ _ _ _ Hh) as [-> ->].
  rewrite (WriteMsg_unfold _ _ _ _ _ _ _ Hh).
  pose proof (rotateIfDue_due σ w when (stripped R w msg) _ _ Hr
                ltac:(by rewrite needRotate_split)) as HR.
  destruct (rotateIfDue σ w when _ _ _) as [σ1 w1]. simpl in HR.
  destruct (appendMsg σ1 w1 (stripped R w msg)) as [[σ' w'] err] eqn:E.
  apply appendMsg_stderr in E.
  exists σ', w', err. split; [done|]. by rewrite (rotations_stderr _ _ E).
Qed.

(** *** Counting lines *)

Arguments readBuf : simpl never.

Lemma readBuf_pos : (0 < readBuf)%nat.
Proof. unfold readBuf. lia. Qed.

Lemma Count_nil sep : Strings.Count [] sep = 0.
Proof. done. Qed.

Lemma Count_app a b sep :
  Strings.Count (a ++ b) sep = Strings.Count a sep + Strings.Count b sep.
Proof. unfold Strings.Count. rewrite filter_app, length_app. lia. Qed.

Lemma Count_bounds l sep : 0 ≤ Strings.Count l sep ≤ Z.of_nat (length l).
Proof.
  unfold Strings.Count. pose proof (length_filter (λ c, c = sep) l). lia.
Qed.

Lemma valid_open σ op fd fl i :
  files σ !! fd = Some fl → f_closed fl = false → inodes σ !! f_ino fl = Some i →
  OS.valid σ op (Some fd) = inr (fd, fl, i).
Proof. unfold OS.valid. by intros -> -> ->. Qed.

(** Two worlds with the same disk, clock and output; their tables of
    open files may differ. *)
Definition sameDisk (σ σ' : World) : Prop :=
  names σ' = names σ ∧ inodes σ' = inodes σ ∧ now σ' = now σ ∧
  umask σ' = umask σ ∧ stderr σ' = stderr σ ∧ sweeps σ' = sweeps σ.

Lemma sameDisk_refl σ : sameDisk σ σ.
Proof. by repeat split. Qed.

Lemma sameDisk_trans σ1 σ2 σ3 : sameDisk σ1 σ2 → sameDisk σ2 σ3 → sameDisk σ1 σ3.
Proof. unfold sameDisk. intros (?&?&?&?&?&?) (?&?&?&?&?&?). repeat split; congruence. Qed.

Lemma sameDisk_set_files f σ : sameDisk σ (set_files f σ).
Proof. by repeat split. Qed.

Lemma Close_frame σ f σ' r :
  OS.Close σ f = (σ', r) →
  sameDisk σ σ' ∧
  (∀ fd, f ≠ Some fd → files σ' !! fd = files σ !! fd) ∧
  (∀ fd, is_Some (files σ !! fd) → is_Some (files σ' !! fd)).
Proof.
  unfold OS.Close. destruct (OS.valid σ "close" f) as [e|[[fd fl] i]] eqn:Hv.
  { intros [= <- _]. split; [apply sameDisk_refl|done]. }
  intros [= <- _]. split; [apply sameDisk_set_files|].
  assert (f = Some fd) as ->.
  { unfold OS.valid in Hv. repeat (case_match; simplify_eq/=). done. }
  split; intros fd' H; simpl.
  - rewrite lookup_insert_ne; [done|congruence].
  - destruct (decide (fd = fd')) as [->|Hne];
      [by rewrite lookup_insert_eq | by rewrite lookup_insert_ne].
Qed.

Lemma linesLoop_spec n : ∀ σ fd fl i c,
  files σ !! fd = Some fl → f_closed fl = false → f_wr fl = false →
  inodes σ !! f_ino fl = Some i → i_dir i = false →
  (length (i_data i) - f_pos fl < n)%nat →
  0 ≤ c → c + Z.of_nat (length (i_data i) - f_pos fl) ≤ maxInt64 →
  ∃ σ' fl',
    linesLoop n σ (Some fd) c =
      (σ', (c + Strings.Count (drop (f_pos fl) (i_data i)) newline, None)) ∧
    sameDisk σ σ' ∧ files σ' = <[fd := fl']> (files σ) ∧
    f_closed fl' = false ∧ f_ino fl' = f_ino fl.
Proof.
  induction n as [|n IH]; intros σ fd fl i c Hfl Hc Hw Hi Hd Hn H0 Hmax; [lia|].
  simpl. unfold OS.Read. rewrite (valid_open _ _ _ _ _ Hfl Hc Hi), Hw, Hd.
  destruct (take readBuf (drop (f_pos fl) (i_data i))) as [|b chunk] eqn:Hchunk.
  - exists σ, fl. simpl.
    assert (drop (f_pos fl) (i_data i) = []) as ->.
    { apply (f_equal length) in Hchunk. rewrite length_take in Hchunk.
      pose proof readBuf_pos. apply length_zero_iff_nil.
      cbn [length] in Hchunk. lia. }
    rewrite Count_nil, Z.add_0_r, wrap64_id
      by (unfold inInt64, minInt64, maxInt64 in *; lia).
    split; [done|]. split; [apply sameDisk_refl|].
    split; [by rewrite insert_id|done].
  - set (k := length (b :: chunk)).
    set (fl1 := mkFile (f_name fl) (f_ino fl) (f_pos fl + k) false (f_closed fl)).
    assert (Hk : (1 ≤ k ≤ length (i_data i) - f_pos fl)%nat).
    { unfold k. rewrite <- Hchunk, length_take, length_drop.
      pose proof readBuf_pos as Hpos.
      assert (Hne : (length (take readBuf (drop (f_pos fl) (i_data i))) ≠ 0)%nat)
        by (rewrite Hchunk; cbn [length]; lia).
      rewrite length_take, length_drop in Hne. lia. }
    assert (Hsplit : drop (f_pos fl) (i_data i)
                     = (b :: chunk) ++ drop (f_pos fl + k) (i_data i)).
    { rewrite <- Hchunk, <- drop_drop.
      assert (k = length (take readBuf (drop (f_pos fl) (i_data i)))) as Hk'
        by (by rewrite Hchunk).
      rewrite length_take in Hk'.
      rewrite <- (take_drop readBuf (drop (f_pos fl) (i_data i))) at 1.
      f_equal. destruct (decide (readBuf ≤ length (drop (f_pos fl) (i_data i)))%nat).
      - f_equal. lia.
      - rewrite !drop_ge; [done| |]; rewrite ?length_drop in *; lia. }
    pose proof (Count_bounds (b :: chunk) newline) as Hcb.
    fold k in Hcb.
    destruct (IH (set_files (insert fd fl1) σ) fd fl1 i
                (wrap64 (c + Strings.Count (b :: chunk) newline)))
      as (σ' & fl' & E & Hsd & Hf & Hc' & Hino); simpl; try done.
    + by rewrite lookup_insert_eq.
    + lia.
    + rewrite wrap64_id by (unfold inInt64, minInt64, maxInt64 in *; lia). lia.
    + rewrite wrap64_id by (unfold inInt64, minInt64, maxInt64 in *; lia). lia.
    + exists σ', fl'. rewrite E.
      rewrite wrap64_id by (unfold inInt64, minInt64, maxInt64 in *; lia).
      rewrite Hsplit. rewrite Count_app. unfold fl1 at 1. cbn [f_pos].
      rewrite Z.add_assoc.
      split; [done|].
      split; [eapply sameDisk_trans; [apply sameDisk_set_files|exact Hsd]|].
      split; [|done]. rewrite Hf. simpl. by rewrite insert_insert_eq.
Qed.

Lemma resolve_some σ path ino i :
  names σ !! path = Some ino → inodes σ !! ino = Some i →
  OS.resolve σ path = Some (ino, i).
Proof. unfold OS.resolve. intros -> Hi. simpl. by rewrite Hi. Qed.

Lemma resolve_inv σ path ino i :
  OS.resolve σ path = Some (ino, i) →
  names σ !! path = Some ino ∧ inodes σ !! ino = Some i.
Proof.
  unfold OS.resolve. intros H.
  destruct (names σ !! path) as [n|]; [|done]. simpl in H.
  destruct (inodes σ !! n) as [j|] eqn:Hj; [|done]. simpl in H. by simplify_eq.
Qed.

Lemma resolve_sameDisk σ σ' path :
  sameDisk σ σ' → OS.resolve σ' path = OS.resolve σ path.
Proof. unfold OS.resolve. by intros (-> & -> & _). Qed.

(** [lines] counts the newline bytes of the file at [Filename]; it
    opens a descriptor of its own and closes it. *)
Lemma lines_spec σ w ino i :
  names σ !! Filename w = Some ino → inodes σ !! ino = Some i →
  i_dir i = false → OS.ownerRead i = true →
  Z.of_nat (length (i_data i)) ≤ maxInt64 →
  ∃ σ', lines σ w = (σ', (Strings.Count (i_data i) newline, None)) ∧
        sameDisk σ σ' ∧
        (∀ fd, is_Some (files σ !! fd) → files σ' !! fd = files σ !! fd).
Proof.
  intros Hn Hi Hd Hr Hmax. unfold lines, OS.Open.
  rewrite (resolve_some _ _ _ _ Hn Hi), Hr. simpl.
  set (fd := fresh (dom (files σ))).
  assert (Hfresh : files σ !! fd = None) by apply not_elem_of_dom, is_fresh.
  set (f0 := mkFile (Filename w) ino 0 false false).
  set (σ1 := set_files (insert fd f0) σ).
  assert (Hf0 : files σ1 !! fd = Some f0) by (simpl; by rewrite lookup_insert_eq).
  destruct (linesLoop_spec (readsLeft σ1 (Some fd)) σ1 fd f0 i 0)
    as (σ2 & fl' & E & Hsd & Hf & Hc & Hino); try done.
  - unfold readsLeft. rewrite (valid_open σ1 "read" fd f0 i); simpl; try done. lia.
  - simpl. lia.
  - rewrite E. simpl.
    unfold OS.Close. rewrite (valid_open σ2 "close" fd fl' i); [| |done|].
    + eexists. split; [done|]. split.
      * eapply sameDisk_trans; [apply sameDisk_set_files|].
        eapply sameDisk_trans; [exact Hsd|apply sameDisk_set_files].
      * intros fd' [x Hx]. simpl. rewrite Hf. simpl.
        assert (fd ≠ fd') by congruence.
        by rewrite !lookup_insert_ne.
    + rewrite Hf. by rewrite lookup_insert_eq.
    + destruct Hsd as (_ & -> & _). by rewrite Hino.
Qed.

(** *** Opening the log file *)

(** The writer as [initFd] leaves it. *)
Definition opened (w : fileLogWriter) (fd : nat) (i : Inode) : fileLogWriter :=
  with_counters
    (if Rotate w && (0 <? MaxLines w) then Strings.Count (i_data i) newline else 0)
    (Z.of_nat (length (i_data i)))
    (with_open (i_mtime i) (Time.Day (i_mtime i)) (Time.Hour_ (i_mtime i))
       (with_fileWriter (Some fd) w)).

Lemma initFd_spec σ w fd fl i :
  fileWriter w = Some fd →
  files σ !! fd = Some fl → f_closed fl = false →
  inodes σ !! f_ino fl = Some i → names σ !! Filename w = Some (f_ino fl) →
  i_dir i = false →
  (Rotate w && (0 <? MaxLines w) = true → OS.ownerRead i = true) →
  Z.of_nat (length (i_data i)) ≤ maxInt64 →
  ∃ σ', initFd σ w = (σ', opened w fd i, None) ∧ sameDisk σ σ' ∧
        (∀ fd', is_Some (files σ !! fd') → files σ' !! fd' = files σ !! fd').
Proof.
  intros Hw Hfl Hc Hi Hn Hd Hr Hmax. unfold initFd, OS.Stat.
  rewrite Hw, (valid_open _ _ _ _ _ Hfl Hc Hi). simpl.
  destruct (Rotate w) eqn:HR; simpl.
  2:{ exists σ. split; [|split; [apply sameDisk_refl|done]].
      unfold opened. rewrite HR. simpl. destruct w; simpl in *. by subst. }
  destruct (0 <? MaxLines w) eqn:HL; simpl.
  2:{ rewrite andb_false_r. exists σ. split; [|split; [apply sameDisk_refl|done]].
      unfold opened. rewrite HR, HL. simpl. destruct w; simpl in *. by subst. }
  destruct (0 <? Z.of_nat (length (i_data i))) eqn:Hs; simpl.
  2:{ exists σ. split; [|split; [apply sameDisk_refl|done]].
      unfold opened. rewrite HR, HL. simpl.
      assert (i_data i = []) as ->
        by (apply length_zero_iff_nil; apply Z.ltb_ge in Hs; lia).
      destruct w; simpl in *. by subst. }
  set (w1 := with_counters 0 _ _).
  destruct (lines_spec σ w1 (f_ino fl) i) as (σ' & E & Hsd & Hf); try done.
  { by apply Hr. }
  rewrite E. exists σ'. split; [|done].
  unfold opened. rewrite HR, HL. simpl. destruct w; simpl in *. by subst.
Qed.

Lemma createLogFile_existing σ w perm ino i :
  Strconv.ParseOctal (Perm w) = inr perm →
  names σ !! Filename w = Some ino → inodes σ !! ino = Some i →
  i_dir i = false → OS.ownerWrite i = true →
  createLogFile σ w =
    (set_inodes (insert ino (mkInode (i_dir i) (i_data i) (i_mtime i) (OS.permBits perm)))
       (set_files (insert (fresh (dom (files σ))) (mkFile (Filename w) ino 0 true false)) σ),
     inr (fresh (dom (files σ)))).
Proof.
  intros Hp Hn Hi Hd Hw. unfold createLogFile, OS.OpenFile. rewrite Hp.
  rewrite (resolve_some _ _ _ _ Hn Hi), Hd, Hw. simpl.
  unfold OS.Chmod.
  rewrite (resolve_some _ (Filename w) ino i) by done. by rewrite Hd.
Qed.

Lemma ownerRead_permBits i perm :
  i_mode i = OS.permBits perm → OS.ownerRead i = Z.testbit perm 8.
Proof.
  unfold OS.ownerRead, OS.permBits. intros ->.
  rewrite Z.land_spec. change (Z.testbit 511 8) with true. by rewrite andb_true_r.
Qed.

(** [startLogger] on a regular file that is there already: the writer
    gets a new descriptor on it, the counters come from the file, and
    nothing of the file but its mode changes. *)
Lemma startLogger_existing σ w perm ino i :
  Strconv.ParseOctal (Perm w) = inr perm →
  names σ !! Filename w = Some ino → inodes σ !! ino = Some i →
  i_dir i = false → OS.ownerWrite i = true →
  (Rotate w && (0 <? MaxLines w) = true → Z.testbit perm 8 = true) →
  Z.of_nat (length (i_data i)) ≤ maxInt64 →
  knownHandle σ w = true →
  ∃ σ' fd,
    startLogger σ w = (σ', opened w fd i, None) ∧
    files σ' !! fd = Some (mkFile (Filename w) ino 0 true false) ∧
    usable σ' (Some fd) = true ∧
    names σ' = names σ ∧
    inodes σ' = <[ino := mkInode false (i_data i) (i_mtime i) (OS.permBits perm)]> (inodes σ) ∧
    now σ' = now σ ∧ stderr σ' = stderr σ ∧ sweeps σ' = sweeps σ ∧
    (∀ fd', is_Some (files σ !! fd') → is_Some (files σ' !! fd')).
Proof.
  intros Hp Hn Hi Hd Hw Hr Hmax Hk. unfold startLogger.
  rewrite (createLogFile_existing _ _ _ _ _ Hp Hn Hi Hd Hw).
  set (fd := fresh (dom (files σ))).
  assert (Hfresh : files σ !! fd = None) by apply not_elem_of_dom, is_fresh.
  set (f1 := mkFile (Filename w) ino 0 true false).
  set (i' := mkInode (i_dir i) (i_data i) (i_mtime i) (OS.permBits perm)).
  set (σb := set_inodes _ _).
  set (σc := match fileWriter w with Some _ => _ | None => σb end).
  assert (Hc : sameDisk σb σc ∧ files σc !! fd = Some f1 ∧
               (∀ fd', is_Some (files σb !! fd') → is_Some (files σc !! fd'))).
  { unfold σc. destruct (fileWriter w) as [fdo|] eqn:Hfw.
    - destruct (OS.Close σb (Some fdo)) as [σx rx] eqn:E.
      apply Close_frame in E as (Hsd & Hf & Hg). simpl.
      split; [done|]. split; [|done].
      rewrite Hf.
      + simpl. by rewrite lookup_insert_eq.
      + unfold knownHandle in Hk. rewrite Hfw in Hk.
        apply bool_decide_eq_true in Hk as [x Hx]. congruence.
    - split; [apply sameDisk_refl|]. split; [|done]. simpl. by rewrite lookup_insert_eq. }
  destruct Hc as (Hsd & Hf1 & Hg).
  assert (Hinodes : inodes σc = <[ino := i']> (inodes σ)) by (by destruct Hsd as (_ & -> & _)).
  assert (Hnames : names σc = names σ) by (by destruct Hsd as (-> & _)).
  destruct (initFd_spec σc (with_fileWriter (Some fd) w) fd f1 i')
    as (σ' & E & Hsd' & Hf'); simpl; try done.
  - rewrite Hinodes. by rewrite lookup_insert_eq.
  - by rewrite Hnames.
  - intros HR. rewrite (ownerRead_permBits i' perm) by done. by apply Hr.
  - exists σ', fd. rewrite E.
    split. { unfold opened, i'. by destruct w. }
    assert (Hfd : files σ' !! fd = Some f1) by (rewrite Hf'; [done|by rewrite Hf1]).
    split; [done|].
    destruct Hsd' as (Hn' & Hi' & Hnow' & _ & Hs' & Hsw').
    destruct Hsd as (_ & _ & Hnow & _ & Hs & Hsw).
    split. { eapply usable_intro; [done..|]. simpl. rewrite Hi', Hinodes.
             by rewrite lookup_insert_eq. }
    split; [congruence|].
    split. { rewrite Hi', Hinodes. unfold i'. by rewrite Hd. }
    split; [by rewrite Hnow', Hnow|]. split; [by rewrite Hs', Hs|].
    split; [by rewrite Hsw', Hsw|].
    intros fd' Hx. rewrite Hf'; apply Hg; simpl.
    all: destruct (decide (fd = fd')) as [->|Hne];
      [by rewrite lookup_insert_eq | by rewrite lookup_insert_ne].
Qed.

(** *** What a reopening keeps *)

Lemma Close_unusable σ f σ' r : OS.Close σ f = (σ', r) → usable σ' f = false.
Proof.
  unfold OS.Close, usable.
  destruct (OS.valid σ "close" f) as [e|[[fd fl] i]] eqn:Hv; intros [= <- _].
  - unfold OS.valid in *. repeat (case_match; simplify_eq/=); done.
  - assert (f = Some fd) as ->
      by (unfold OS.valid in Hv; repeat (case_match; simplify_eq/=); done).
    unfold OS.valid. simpl. by rewrite lookup_insert_eq.
Qed.

Lemma Rename_frame σ old new σ' r :
  OS.Rename σ old new = (σ', r) →
  files σ' = files σ ∧ inodes σ' = inodes σ ∧ (is_Some r → σ' = σ).
Proof.
  unfold OS.Rename. intros H.
  repeat (case_match; simplify_eq/=); repeat split; try done; by intros [? ?].
Qed.

Lemma Read_frame σ f n σ' r :
  OS.Read σ f n = (σ', r) →
  sameDisk σ σ' ∧ (∀ fd, f ≠ Some fd → files σ' !! fd = files σ !! fd).
Proof.
  unfold OS.Read. destruct (OS.valid σ "read" f) as [e|[[fd fl] i]] eqn:Hv.
  { intros [= <- _]. split; [apply sameDisk_refl|done]. }
  assert (f = Some fd) as ->
    by (unfold OS.valid in Hv; repeat (case_match; simplify_eq/=); done).
  intros H. repeat (case_match; simplify_eq/=);
    (split; [first [apply sameDisk_refl|apply sameDisk_set_files]|]); try done.
  intros fd' Hne. simpl. rewrite lookup_insert_ne; [done|congruence].
Qed.

Lemma linesLoop_frame n : ∀ σ f c σ' r,
  linesLoop n σ f c = (σ', r) →
  sameDisk σ σ' ∧ (∀ fd, f ≠ Some fd → files σ' !! fd = files σ !! fd).
Proof.
  induction n as [|n IH]; intros σ f c σ' r; simpl.
  { intros [= <- _]. split; [apply sameDisk_refl|done]. }
  destruct (OS.Read σ f readBuf) as [σ1 [buf err]] eqn:E.
  apply Read_frame in E as [Hsd Hf].
  destruct err as [e|].
  - destruct e; by intros [= <- _].
  - intros H. apply IH in H as [Hsd' Hf'].
    split; [by eapply sameDisk_trans|]. intros fd Hne. by rewrite Hf', Hf.
Qed.

Lemma lines_frame σ w σ' r :
  lines σ w = (σ', r) →
  sameDisk σ σ' ∧ (∀ fd, is_Some (files σ !! fd) → files σ' !! fd = files σ !! fd).
Proof.
  unfold lines, OS.Open. intros H.
  destruct (OS.resolve σ (Filename w)) as [[ino i]|];
    [|simplify_eq; split; [apply sameDisk_refl|done]].
  destruct (negb (OS.ownerRead i));
    [simplify_eq; split; [apply sameDisk_refl|done]|].
  simpl in H.
  set (fd := fresh (dom (files σ))) in *.
  assert (Hfresh : files σ !! fd = None) by apply not_elem_of_dom, is_fresh.
  destruct (linesLoop _ _ (Some fd) 0) as [σ2 res] eqn:E2.
  apply linesLoop_frame in E2 as [Hsd2 Hf2].
  destruct (OS.Close σ2 (Some fd)) as [σ3 r3] eqn:E3.
  apply Close_frame in E3 as (Hsd3 & Hf3 & _). simplify_eq.
  split.
  - eapply sameDisk_trans; [apply sameDisk_set_files|]. by eapply sameDisk_trans.
  - intros fd' [x Hx]. assert (fd ≠ fd') by congruence.
    rewrite Hf3, Hf2 by congruence. simpl. by rewrite lookup_insert_ne.
Qed.

Lemma initFd_frame σ w σ' w' r :
  initFd σ w = (σ', w', r) →
  fileWriter w' = fileWriter w ∧ sameDisk σ σ' ∧
  (∀ fd, is_Some (files σ !! fd) → files σ' !! fd = files σ !! fd).
Proof.
  unfold initFd. intros H.
  destruct (OS.Stat σ (fileWriter w)) as [e|fi];
    [simplify_eq; split; [done|split; [apply sameDisk_refl|done]]|].
  destruct (_ && _ && _) in H;
    [|simplify_eq; split; [done|split; [apply sameDisk_refl|done]]].
  destruct (lines σ _) as [σ1 [count err]] eqn:E. apply lines_frame in E as [Hsd Hf].
  destruct err; simplify_eq; done.
Qed.

Lemma createLogFile_ok σ w σ' fd :
  createLogFile σ w = (σ', inr fd) →
  files σ !! fd = None ∧
  ∃ ino, files σ' = <[fd := mkFile (Filename w) ino 0 true false]> (files σ) ∧
         is_Some (inodes σ' !! ino).
Proof.
  unfold createLogFile. destruct (Strconv.ParseOctal (Perm w)) as [e|perm]; [done|].
  destruct (OS.OpenFile σ (Filename w) perm) as [σ1 [e|fd1]] eqn:E1; [done|].
  destruct (OS.Chmod σ1 (Filename w) perm) as [σ2 r2] eqn:E2.
  intros [= <- <-].
  assert (H1 : files σ !! fd1 = None ∧
               ∃ ino, files σ1 = <[fd1 := mkFile (Filename w) ino 0 true false]> (files σ) ∧
                      is_Some (inodes σ1 !! ino)).
  { unfold OS.OpenFile, OS.newFile in E1.
    repeat (case_match; simplify_eq/=);
      (split; [apply not_elem_of_dom, is_fresh|]); eexists; (split; [done|]).
    - match goal with H : OS.resolve _ _ = Some (_, _) |- _ =>
        apply resolve_inv in H as [_ ->] end. done.
    - by rewrite lookup_insert_eq. }
  destruct H1 as (Hfresh & ino & Hf & [i Hi]). split; [done|]. exists ino.
  unfold OS.Chmod in E2. repeat (case_match; simplify_eq/=); try (by rewrite Hi).
  split; [done|].
  destruct (decide (n = ino)) as [->|Hne];
    [by rewrite lookup_insert_eq | by rewrite lookup_insert_ne, Hi].
Qed.

Lemma createLogFile_fail σ w σ' e :
  createLogFile σ w = (σ', inl e) → σ' = σ.
Proof.
  unfold createLogFile. destruct (Strconv.ParseOctal (Perm w)) as [e0|perm];
    [by intros [= <- _]|].
  destruct (OS.OpenFile σ (Filename w) perm) as [σ1 [e1|fd1]] eqn:E1.
  - intros [= <- _]. unfold OS.OpenFile, OS.newFile in E1.
    repeat (case_match; simplify_eq/=); done.
  - destruct (OS.Chmod σ1 (Filename w) perm); done.
Qed.

(** [startLogger] leaves the writer with a handle it can append to
    whenever it returns no error. *)
Lemma startLogger_ok σ w σ' w' :
  startLogger σ w = (σ', w', None) → knownHandle σ w = true →
  usable σ' (fileWriter w') = true.
Proof.
  unfold startLogger. intros H Hk.
  destruct (createLogFile σ w) as [σ1 [e|fd]] eqn:E1; [done|].
  apply createLogFile_ok in E1 as (Hfresh & ino & Hf1 & [i Hi]).
  set (σc := match fileWriter w with Some _ => _ | None => σ1 end) in H.
  assert (Hc : inodes σc = inodes σ1 ∧
               files σc !! fd = Some (mkFile (Filename w) ino 0 true false)).
  { unfold σc. destruct (fileWriter w) as [fdo|] eqn:Hfw.
    - destruct (OS.Close σ1 (Some fdo)) as [σx rx] eqn:E.
      apply Close_frame in E as ((_ & Hin & _) & Hf & _). simpl.
      split; [done|]. rewrite Hf.
      + rewrite Hf1. by rewrite lookup_insert_eq.
      + unfold knownHandle in Hk. rewrite Hfw in Hk.
        apply bool_decide_eq_true in Hk as [x Hx]. congruence.
    - split; [done|]. rewrite Hf1. by rewrite lookup_insert_eq. }
  destruct Hc as [Hin Hfd].
  apply initFd_frame in H as (Hw' & (_ & Hin' & _) & Hf').
  rewrite Hw'. simpl. eapply usable_intro.
  - rewrite Hf'; [done|by rewrite Hfd].
  - done.
  - done.
  - simpl. by rewrite Hin', Hin, Hi.
Qed.

Lemma rotateLoop_files n : ∀ σ w tf err num fName σl err' num' fName',
  rotateLoop n σ w tf err num fName = LoopDone σl err' num' fName' →
  files σl = files σ.
Proof.
  induction n as [|n IH]; intros σ w tf err num fName σl err' num' fName'; simpl.
  { by intros [= <- _ _ _]. }
  destruct (negb _); [by intros [= <- _ _ _]|].
  destruct (OS.Lstat σ (numName w tf num)) as [e|fi].
  - destruct (num =? 1).
    + destruct (OS.Lstat σ (withoutNumName w tf)) as [e'|fi'];
        [by intros [= <- _ _ _]|].
      destruct (_ && _); [done|].
      destruct (OS.Rename σ _ _) as [σ1 r1] eqn:E.
      apply Rename_frame in E as (Hf & _).
      intros H. apply IH in H. rewrite H. by destruct r1.
    + apply IH.
  - intros H. by apply IH in H.
Qed.

(** *** Names on disk *)

Lemma str_app_length (s t : string) :
  String.length (s ++ t) = (String.length s + String.length t)%nat.
Proof. induction s as [|c s IH]; simpl; [done|by rewrite IH]. Qed.

Lemma str_app_inj (s x y : string) : (s ++ x = s ++ y)%string → x = y.
Proof. induction s as [|c s IH]; simpl; [done|]. intros [= H]. by apply IH. Qed.

Lemma numName_1_2 w tf : numName w tf 1 ≠ numName w tf 2.
Proof.
  unfold numName. intros H.
  apply (str_app_inj (fileNameOnly w)) in H. simpl in H. injection H as H.
  apply (str_app_inj (Time.Format (dailyOpenTime w) tf)) in H.
  change (padInt 3 1) with "001"%string in H.
  change (padInt 3 2) with "002"%string in H.
  simpl in H. discriminate H.
Qed.

Lemma withoutNumName_numName w tf k : withoutNumName w tf ≠ numName w tf k.
Proof.
  unfold numName, withoutNumName. intros H.
  apply (str_app_inj (fileNameOnly w)) in H. simpl in H. injection H as H.
  apply (str_app_inj (Time.Format (dailyOpenTime w) tf)) in H.
  apply (f_equal String.length) in H.
  rewrite !str_app_length in H. change (String.length ".") with 1%nat in H. lia.
Qed.

Lemma Lstat_none σ path :
  names σ !! path = None → OS.Lstat σ path = inl (PathError "lstat" path ENOENT).
Proof. unfold OS.Lstat, OS.resolve. by intros ->. Qed.

Lemma Lstat_some σ path ino i :
  names σ !! path = Some ino → inodes σ !! ino = Some i →
  OS.Lstat σ path = inr (OS.info i).
Proof. intros Hn Hi. unfold OS.Lstat. by rewrite (resolve_some _ _ _ _ Hn Hi). Qed.

Lemma writableDir_inv σ d :
  OS.writableDir σ d = None →
  ∃ ino i, names σ !! d = Some ino ∧ inodes σ !! ino = Some i ∧ i_dir i = true.
Proof.
  unfold OS.writableDir. destruct (OS.resolve σ d) as [[ino i]|] eqn:E; [|done].
  apply resolve_inv in E as [Hn Hi].
  destruct (i_dir i) eqn:Hd; [|done]. intros _. by exists ino, i.
Qed.

Lemma writableDir_frame σ σ' d :
  names σ' !! d = names σ !! d → inodes σ' = inodes σ →
  OS.writableDir σ' d = OS.writableDir σ d.
Proof. unfold OS.writableDir, OS.resolve. by intros -> ->. Qed.

(** Renaming a regular file to a name that is free. *)
Lemma Rename_file σ old new a ia :
  names σ !! old = Some a → inodes σ !! a = Some ia → i_dir ia = false →
  names σ !! new = None →
  OS.writableDir σ (Filepath.Dir old) = None →
  OS.writableDir σ (Filepath.Dir new) = None →
  OS.Rename σ old new = (set_names (λ m, <[new := a]> (delete old m)) σ, None).
Proof.
  intros Hn Hi Hd Hnew Hw1 Hw2. unfold OS.Rename.
  rewrite (resolve_some _ _ _ _ Hn Hi), Hw1, Hw2.
  replace (String.eqb old new) with false
    by (symmetry; apply String.eqb_neq; congruence).
  rewrite Hd. unfold OS.resolve at 1. by rewrite Hnew.
Qed.

Lemma Chmod_frame σ name mode σ' r :
  OS.Chmod σ name mode = (σ', r) → names σ' = names σ ∧ files σ' = files σ.
Proof. unfold OS.Chmod. intros H. repeat (case_match; simplify_eq/=); done. Qed.

Lemma createLogFile_names σ w σ' r p :
  createLogFile σ w = (σ', r) → p ≠ Filename w → names σ' !! p = names σ !! p.
Proof.
  unfold createLogFile. intros H Hne.
  destruct (Strconv.ParseOctal (Perm w)) as [e|perm]; [by simplify_eq|].
  destruct (OS.OpenFile σ (Filename w) perm) as [σ1 [e|fd]] eqn:E1.
  - simplify_eq. unfold OS.OpenFile, OS.newFile in E1.
    repeat (case_match; simplify_eq/=); done.
  - destruct (OS.Chmod σ1 (Filename w) perm) as [σ2 r2] eqn:E2.
    apply Chmod_frame in E2 as [Hn2 _]. simplify_eq. rewrite Hn2.
    unfold OS.OpenFile, OS.newFile in E1.
    repeat (case_match; simplify_eq/=); try done.
    by rewrite lookup_insert_ne.
Qed.

Lemma startLogger_names σ w σ' w' r p :
  startLogger σ w = (σ', w', r) → p ≠ Filename w → names σ' !! p = names σ !! p.
Proof.
  unfold startLogger. intros H Hne.
  destruct (createLogFile σ w) as [σ1 [e|file]] eqn:E1;
    pose proof (createLogFile_names _ _ _ _ p E1 Hne) as H1; [by simplify_eq|].
  apply initFd_frame in H as (_ & (Hn & _) & _). rewrite Hn, <- H1.
  destruct (fileWriter w) as [fdo|]; [|done].
  destruct (OS.Close σ1 (Some fdo)) as [σx rx] eqn:E.
  apply Close_frame in E as ((Hnx & _) & _). simpl. by rewrite Hnx.
Qed.

Lemma restartLogger_names σ w err σ' w' r p :
  restartLogger σ w err = (σ', w', r) → p ≠ Filename w →
  names σ' !! p = names σ !! p.
Proof.
  unfold restartLogger. intros H Hne.
  destruct (startLogger σ w) as [[σ1 w1] e1] eqn:E.
  pose proof (startLogger_names _ _ _ _ _ p E Hne) as H1.
  destruct e1, err; simplify_eq; done.
Qed.

(** The loop, when neither the [001] name nor the name without a
    number is taken: the name without a number is chosen. *)
Lemma rotateLoop_first n σ w tf :
  names σ !! numName w tf 1 = None →
  names σ !! withoutNumName w tf = None →
  rotateLoop (S n) σ w tf None 1 EmptyString =
    LoopDone (eprint (LogUseFileName (withoutNumName w tf)) σ)
      (Some (PathError "lstat" (withoutNumName w tf) ENOENT)) 1 (withoutNumName w tf).
Proof.
  intros H1 Hu. simpl. by rewrite (Lstat_none _ _ H1), (Lstat_none _ _ Hu).
Qed.

(** The loop, when the name without a number is taken by a regular file
    and a limit is configured: that file moves to the [001] name, and
    the first free name from [002] on is chosen, here [002]. *)
Lemma rotateLoop_second n σ w tf b ib :
  names σ !! numName w tf 1 = None →
  names σ !! numName w tf 2 = None →
  names σ !! withoutNumName w tf = Some b → inodes σ !! b = Some ib →
  i_dir ib = false →
  OS.writableDir σ (Filepath.Dir (withoutNumName w tf)) = None →
  OS.writableDir σ (Filepath.Dir (numName w tf 1)) = None →
  (MaxLines w =? 0) && (MaxSize w =? 0) = false →
  ∃ σl,
    rotateLoop (S (S (S n))) σ w tf None 1 EmptyString =
      LoopDone σl (Some (PathError "lstat" (numName w tf 2) ENOENT)) 3 (numName w tf 2) ∧
    names σl = <[numName w tf 1 := b]> (delete (withoutNumName w tf) (names σ)) ∧
    inodes σl = inodes σ ∧ files σl = files σ.
Proof.
  intros H1 H2 Hu Hb Hd Hw1 Hw2 Hlim.
  eexists. split.
  - cbn [rotateLoop]. simpl negb. cbn iota.
    rewrite (Lstat_none _ _ H1). simpl (1 =? 1). cbn iota.
    rewrite (Lstat_some _ _ _ _ Hu Hb), Hlim.
    rewrite (Rename_file _ _ _ _ _ Hu Hb Hd H1 Hw1 Hw2).
    cbn iota beta. simpl (1 + 1). simpl negb. cbn iota.
    rewrite Lstat_none.
    + simpl (2 =? 1). cbn iota. simpl negb. cbn iota. reflexivity.
    + simpl. rewrite lookup_insert_ne by (apply numName_1_2).
      rewrite lookup_delete_ne by (apply withoutNumName_numName). done.
  - done.
Qed.

(** *** The retention sweep *)

Lemma prefix_length (s t : string) :
  String.prefix s t = true → (String.length s ≤ String.length t)%nat.
Proof.
  revert t. induction s as [|c s IH]; intros [|c' t]; simpl; try done; try lia.
  destruct (ascii_dec c c'); [|done]. intros H. apply IH in H. lia.
Qed.

Lemma below_irrefl d : OS.below d d = false.
Proof.
  unfold OS.below.
  destruct (String.eqb d ".") eqn:E1.
  { apply String.eqb_eq in E1 as ->. done. }
  destruct (String.eqb d "/") eqn:E2.
  { apply String.eqb_eq in E2 as ->. done. }
  destruct (String.prefix (d ++ "/") d) eqn:E3; [|done].
  apply prefix_length in E3. rewrite str_app_length in E3. simpl in E3. lia.
Qed.

Lemma walkEntries_NoDup σ root : NoDup (OS.walkEntries σ root).*1.
Proof.
  unfold OS.walkEntries. destruct (OS.Lstat σ root) as [e|fi]; simpl.
  { apply NoDup_singleton. }
  destruct (IsDir fi); simpl; [|apply NoDup_singleton].
  rewrite <- list_fmap_compose.
  rewrite (list_fmap_ext _ fst) by done.
  apply NoDup_cons. split.
  - intros (kv & -> & Hkv)%list_elem_of_fmap.
    apply list_elem_of_filter in Hkv as [Hb _].
    by rewrite below_irrefl in Hb.
  - eapply sublist_NoDup; [apply (NoDup_fst_map_to_list (names σ))|].
    apply fmap_sublist, sublist_filter.
Qed.

Lemma walkEntries_info σ root q info :
  (q, info) ∈ OS.walkEntries σ root → info = OS.lstatOpt σ q.
Proof.
  unfold OS.walkEntries, OS.lstatOpt.
  destruct (OS.Lstat σ root) as [e|fi] eqn:E.
  { intros [= -> ->]%list_elem_of_singleton. by rewrite E. }
  intros [[= -> ->]|H]%elem_of_cons; [by rewrite E|].
  destruct (IsDir fi); [|by apply elem_of_nil in H].
  apply list_elem_of_fmap in H as (kv & [= -> ->] & _). done.
Qed.

(** The part of [swept] that looks at the entry itself. *)
Definition expired (σ : World) (w : fileLogWriter) (path : string) : bool :=
  match OS.Lstat σ path with
  | inr fi => negb (IsDir fi) && aged σ w fi && nameMatches w path
  | inl _ => false
  end.

Lemma retention_in_range w :
  -106751 ≤ MaxDays w ≤ 106751 →
  wrap64 (24 * Time.Hour * MaxDays w) = 24 * Time.Hour * MaxDays w.
Proof.
  intros H. apply wrap64_id. unfold inInt64, minInt64, maxInt64, Time.Hour. lia.
Qed.

Lemma deleteOldLogFn_expired σ0 w σ q :
  -106751 ≤ MaxDays w ≤ 106751 → now σ = now σ0 →
  deleteOldLogFn w σ q (OS.lstatOpt σ0 q) =
    if expired σ0 w q then (OS.Remove σ q).1 else σ.
Proof.
  intros Hrange Hnow. unfold deleteOldLogFn, OS.lstatOpt, expired.
  destruct (OS.Lstat σ0 q) as [e|fi]; [done|].
  unfold OS.Now. rewrite Hnow, (retention_in_range w Hrange).
  unfold Time.Before, Time.Add.
  assert ((ModTime fi + 24 * Time.Hour * MaxDays w <? now σ0) = aged σ0 w fi) as ->.
  { unfold aged. destruct (Z.ltb_spec (ModTime fi + 24 * Time.Hour * MaxDays w) (now σ0)),
      (Z.ltb_spec (ModTime fi) (now σ0 - 24 * Time.Hour * MaxDays w)); lia. }
  fold (nameMatches w q).
  by destruct (negb (IsDir fi) && aged σ0 w fi), (nameMatches w q).
Qed.

Lemma expired_inv σ w q :
  expired σ w q = true →
  ∃ ino i, names σ !! q = Some ino ∧ inodes σ !! ino = Some i ∧ i_dir i = false.
Proof.
  unfold expired, OS.Lstat.
  destruct (OS.resolve σ q) as [[ino i]|] eqn:Er; [|done].
  apply resolve_inv in Er as [Hn Hi]. simpl.
  destruct (i_dir i) eqn:Hd; [done|]. intros _. by exists ino, i.
Qed.

Lemma sweep_fold σ0 w (l : list (string * option FileInfo)) :
  -106751 ≤ MaxDays w ≤ 106751 →
  (∀ q, q ∈ l.*1 → expired σ0 w q = true →
        OS.writableDir σ0 (Filepath.Dir q) = None) →
  (∀ q info, (q, info) ∈ l → info = OS.lstatOpt σ0 q) →
  NoDup l.*1 →
  ∀ (seen : list string) σ,
    (∀ q, q ∈ l.*1 → q ∉ seen) →
    inodes σ = inodes σ0 → now σ = now σ0 → files σ = files σ0 →
    (∀ p, names σ !! p =
          if bool_decide (p ∈ seen) && expired σ0 w p then None else names σ0 !! p) →
    let σ' := foldl (λ σ e, deleteOldLogFn w σ e.1 e.2) σ l in
    inodes σ' = inodes σ0 ∧ now σ' = now σ0 ∧ files σ' = files σ0 ∧
    ∀ p, names σ' !! p =
         if bool_decide (p ∈ seen ++ l.*1) && expired σ0 w p then None
         else names σ0 !! p.
Proof.
  clear U R.
  intros Hrange. induction l as [|[q info] l IH];
    intros Hperm Hinfo Hnd seen σ Hfresh Hi Hnow Hf Hnames; simpl.
  { rewrite app_nil_r. done. }
  apply NoDup_cons in Hnd as [Hq Hnd]. simpl in Hq.
  assert (Hq' : q ∉ seen) by (apply Hfresh; simpl; set_solver).
  assert (Hstep : let σ1 := deleteOldLogFn w σ q info in
            inodes σ1 = inodes σ0 ∧ now σ1 = now σ0 ∧ files σ1 = files σ0 ∧
            ∀ p, names σ1 !! p =
                 if bool_decide (p ∈ seen ++ [q]) && expired σ0 w p then None
                 else names σ0 !! p).
  { assert (Hother : ∀ p, p ≠ q →
              bool_decide (p ∈ seen ++ [q]) = bool_decide (p ∈ seen)).
    { intros p Hp. apply bool_decide_ext. set_solver. }
    rewrite (Hinfo q info) by set_solver.
    rewrite (deleteOldLogFn_expired σ0 w σ q Hrange Hnow).
    destruct (expired σ0 w q) eqn:Hx; simpl.
    - (* the entry is removed *)
      pose proof (Hperm q ltac:(simpl; set_solver) Hx) as Hwd.
      destruct (expired_inv _ _ _ Hx) as (ino & i & Hn0 & Hi0 & Hdir).
      assert (Hr : OS.resolve σ q = Some (ino, i)).
      { apply resolve_some; [|by rewrite Hi].
        rewrite Hnames, bool_decide_eq_false_2 by done. done. }
      assert (Hwd' : OS.writableDir σ (Filepath.Dir q) = None).
      { rewrite <- Hwd. apply writableDir_frame; [|done].
        rewrite Hnames. destruct (expired σ0 w (Filepath.Dir q)) eqn:Hxd;
          [|by rewrite andb_false_r].
        apply expired_inv in Hxd as (dino' & di' & Hdn' & Hdi' & Hdd').
        apply writableDir_inv in Hwd as (dino & di & Hdn & Hdi & Hdd).
        congruence. }
      unfold OS.Remove. rewrite Hr, Hwd', Hdir. simpl.
      repeat split; try done.
      intros p. destruct (decide (p = q)) as [->|Hp].
      + rewrite lookup_delete_eq, Hx, bool_decide_eq_true_2 by set_solver. done.
      + rewrite lookup_delete_ne by done. rewrite Hother by done. apply Hnames.
    - repeat split; try done.
      intros p. destruct (decide (p = q)) as [->|Hp].
      + rewrite Hx, andb_false_r, Hnames. rewrite bool_decide_eq_false_2; done.
      + rewrite Hother by done. apply Hnames. }
  destruct Hstep as (Hi1 & Hnow1 & Hf1 & Hn1).
  destruct (IH ltac:(intros; apply Hperm; simpl; set_solver)
              ltac:(intros; apply Hinfo; set_solver) Hnd (seen ++ [q])
              (deleteOldLogFn w σ q info)) as (Hi2 & Hnow2 & Hf2 & Hn2); try done.
  { intros q' Hq'' [Hin|Hin%list_elem_of_singleton]%elem_of_app.
    - eapply Hfresh; [|exact Hin]. simpl. set_solver.
    - subst. done. }
  repeat split; try done.
  intros p. rewrite Hn2. by rewrite <- app_assoc.
Qed.

Lemma deleteOldLog_names σ w :
  -106751 ≤ MaxDays w ≤ 106751 →
  (∀ q, swept σ w q = true → OS.writableDir σ (Filepath.Dir q) = None) →
  (∀ p, names (deleteOldLog σ w) !! p = if swept σ w p then None else names σ !! p) ∧
  inodes (deleteOldLog σ w) = inodes σ ∧ files (deleteOldLog σ w) = files σ.
Proof.
  intros Hrange Hperm. unfold deleteOldLog.
  destruct (sweep_fold σ w (OS.walkEntries σ (Filepath.Dir (Filename w))) Hrange)
    with (seen := @nil string) (σ := σ) as (Hi & _ & Hf & Hn); try done.
  - intros q Hq Hx. apply Hperm. unfold swept.
    rewrite bool_decide_eq_true_2 by done. exact Hx.
  - intros q info. apply walkEntries_info.
  - apply walkEntries_NoDup.
  - intros q _. apply not_elem_of_nil.
Qed.

(** The entries the walk meets: its root, and, when the root is a
    directory, the names below it. *)
Lemma walkEntries_elem σ root p :
  p ∈ (OS.walkEntries σ root).*1 ↔
  p = root ∨ (∃ fi, OS.Lstat σ root = inr fi ∧ IsDir fi = true) ∧
             OS.below root p = true ∧ is_Some (names σ !! p).
Proof.
  unfold OS.walkEntries. destruct (OS.Lstat σ root) as [e|fi] eqn:E; simpl.
  { rewrite list_elem_of_singleton. split; [by left|].
    intros [->|[(fi & [=] & _) _]]; done. }
  rewrite elem_of_cons. destruct (IsDir fi) eqn:Hd; simpl.
  - rewrite <- list_fmap_compose, (list_fmap_ext _ fst) by done.
    split.
    + intros [->|Hin]; [by left|right].
      apply list_elem_of_fmap in Hin as ([q ino] & -> & Hq).
      apply list_elem_of_filter in Hq as [Hb Hq].
      apply elem_of_map_to_list in Hq. eauto.
    + intros [->|(_ & Hb & [ino Hino])]; [by left|right].
      apply list_elem_of_fmap. exists (p, ino). split; [done|].
      apply list_elem_of_filter. split; [done|by apply elem_of_map_to_list].
  - rewrite elem_of_nil. split; [intros [->|[]]; by left|].
    intros [->|[(fi' & [= <-] & Hd') _]]; [by left|congruence].
Qed.

(** *** Counters and triggers of [WriteMsg] *)

(** C5. In every call of [WriteMsg] that returns, the error returned is
    the one of the append, unchanged.  When the append succeeds the line
    counter is incremented by one and the byte counter by the length of
    the message as written (stripped when [StripColors] is set); when it
    fails the writer is left as it was.  The counters are compared with
    their values when the append is made, that is after the rotation of
    this call when there is one ([w1] below, which is [w] when no
    rotation is due); the increments are those of Go's [int], exact
    whenever the sum is in range. *)
Theorem WriteMsg_counters σ w when msg :
  is_Some (formatTimeHeader when) →
  ∃ σ1 w1 σ' w' err,
    rotateIfDue σ w when (stripped R w msg) (Time.Day when) (Time.Hour_ when) = (σ1, w1) ∧
    (Rotate w && needRotate w (len (stripped R w msg)) (Time.Day when) (Time.Hour_ when)
       = false → σ1 = σ ∧ w1 = w) ∧
    WriteMsg R σ w when msg = Some (σ', w', err) ∧
    err = (OS.Write σ1 (fileWriter w1) (bytes (stripped R w msg))).2.2 ∧
    match err with
    | None =>
        maxLinesCurLines w' = wrap64 (maxLinesCurLines w1 + 1) ∧
        maxSizeCurSize w' = wrap64 (maxSizeCurSize w1 + len (stripped R w msg)) ∧
        (inInt64 (maxLinesCurLines w1 + 1) →
         maxLinesCurLines w' = maxLinesCurLines w1 + 1) ∧
        (inInt64 (maxSizeCurSize w1 + len (stripped R w msg)) →
         maxSizeCurSize w' = maxSizeCurSize w1 + len (stripped R w msg))
    | Some _ => w' = w1
    end.
Proof.
  intros [[[buf d] h] Hh].
  destruct (formatTimeHeader_day _ _ _ _ Hh) as [-> ->].
  rewrite (WriteMsg_unfold _ _ _ _ _ _ _ Hh).
  destruct (rotateIfDue σ w when _ _ _) as [σ1 w1] eqn:E1.
  unfold appendMsg.
  destruct (OS.Write σ1 (fileWriter w1) _) as [σ2 [n err]] eqn:E2.
  exists σ1, w1, σ2.
  assert (Hskip : Rotate w &&
            needRotate w (len (stripped R w msg)) (Time.Day when) (Time.Hour_ when) = false →
            σ1 = σ ∧ w1 = w).
  { intros H. rewrite rotateIfDue_skip in E1 by done. by simplify_eq. }
  destruct err as [e|].
  - exists w1, (Some e).
    split; [done|]. split; [exact Hskip|]. split; [done|]. split; [by rewrite E2|done].
  - eexists _, None.
    split; [done|]. split; [exact Hskip|]. split; [done|]. split; [by rewrite E2|].
    repeat split; try done; intros Hr; simpl; by rewrite wrap64_id.
Qed.

(** C9. [needRotate] does not look at its size argument.  So a write
    that finds the byte counter below [MaxSize] starts no rotation
    whatever its length: it leaves the counter at its old value plus the
    whole message, which is at or over [MaxSize] as soon as the message
    is as long as what was left, and only the next call rotates. *)
Theorem needRotate_ignores_size :
  (∀ w s1 s2 day hour, needRotate w s1 day hour = needRotate w s2 day hour) ∧
  (∀ σ w when msg,
     is_Some (formatTimeHeader when) →
     usable σ (fileWriter w) = true →
     0 ≤ maxSizeCurSize w < MaxSize w →
     MaxSize w + len (stripped R w msg) ≤ maxInt64 →
     needRotate w (len (stripped R w msg)) (Time.Day when) (Time.Hour_ when) = false →
     ∃ σ' w',
       WriteMsg R σ w when msg = Some (σ', w', None) ∧
       rotations σ' = rotations σ ∧
       maxSizeCurSize w' = maxSizeCurSize w + len (stripped R w msg) ∧
       (MaxSize w ≤ maxSizeCurSize w' →
        ∀ s day hour, Rotate w' && needRotate w' s day hour = Rotate w)).
Proof.
  split; [done|].
  intros σ w when msg Hh Hu Hsz Hmax Hdue.
  rewrite needRotate_split in Hdue.
  destruct (WriteMsg_no_rotation σ w when msg Hh) as (σ' & -> & Hu' & Hrot & _);
    [by rewrite Hdue, andb_false_r | done |].
  eexists _, _. split; [done|]. split; [done|].
  assert (Hlen : 0 ≤ len (stripped R w msg)) by apply Nat2Z.is_nonneg.
  split.
  - unfold with_counters; simpl. apply wrap64_id.
    unfold inInt64, minInt64, maxInt64 in *. lia.
  - unfold with_counters; simpl. intros Hge s day hour.
    unfold needRotate; simpl.
    rewrite (wrap64_id (maxSizeCurSize w + len (stripped R w msg))) in Hge |- *
      by (unfold inInt64, minInt64, maxInt64 in *; lia).
    replace (0 <? MaxSize w) with true by (symmetry; apply Z.ltb_lt; lia).
    replace (MaxSize w <=? maxSizeCurSize w + len (stripped R w msg)) with true
      by (symmetry; apply Z.leb_le; lia).
    simpl. rewrite orb_true_r. simpl. by rewrite andb_true_r.
Qed.

(** *** Sequences of writes *)

Lemma totalLen_nonneg w calls : 0 ≤ totalLen R w calls.
Proof.
  induction calls as [|c calls IH]; simpl; [done|].
  pose proof (Nat2Z.is_nonneg (String.length (stripped R w c.2))). unfold len. lia.
Qed.

Lemma WriteMsgs_no_rotation calls : ∀ σ w,
  usable σ (fileWriter w) = true →
  Forall (λ c, inBucket w c.1 = true) calls →
  0 ≤ maxLinesCurLines w →
  maxLinesCurLines w + Z.of_nat (length calls) ≤ MaxLines w ≤ maxInt64 →
  MaxSize w ≤ 0 ∨
    (0 ≤ maxSizeCurSize w ∧ maxSizeCurSize w + totalLen R w calls < MaxSize w ≤ maxInt64) →
  ∃ σ' nbytes,
    WriteMsgs R σ w calls =
      Some (σ', with_counters (maxLinesCurLines w + Z.of_nat (length calls)) nbytes w,
            replicate (length calls) None) ∧
    usable σ' (fileWriter w) = true ∧ rotations σ' = rotations σ.
Proof.
  induction calls as [|[when msg] calls IH]; intros σ w Hu Hb H0 Hl Hs.
  { exists σ, (maxSizeCurSize w). simpl. rewrite Z.add_0_r. by destruct w. }
  apply Forall_cons in Hb as [Hb1 Hb]. simpl in Hb1.
  apply andb_true_iff in Hb1 as [Hh Hcal].
  apply bool_decide_eq_true in Hh. apply negb_true_iff in Hcal.
  simpl length in Hl. simpl totalLen in Hs.
  pose proof (totalLen_nonneg w calls) as Htl.
  assert (Hlen : 0 ≤ len (stripped R w msg)) by apply Nat2Z.is_nonneg.
  destruct (WriteMsg_no_rotation σ w when msg Hh) as (σ1 & E1 & Hu1 & Hr1 & _); [|done|].
  { rewrite Hcal, orb_false_r. unfold limitsDue.
    replace (MaxLines w <=? maxLinesCurLines w) with false
      by (symmetry; apply Z.leb_gt; lia).
    rewrite andb_false_r. simpl.
    destruct Hs as [Hs|Hs].
    - replace (0 <? MaxSize w) with false by (symmetry; apply Z.ltb_ge; lia).
      by rewrite andb_false_r.
    - replace (MaxSize w <=? maxSizeCurSize w) with false
        by (symmetry; apply Z.leb_gt; lia).
      by rewrite !andb_false_r. }
  set (w1 := with_counters _ _ w) in *.
  assert (Hl1 : maxLinesCurLines w1 = maxLinesCurLines w + 1).
  { unfold w1, with_counters; simpl. apply wrap64_id.
    unfold inInt64, minInt64, maxInt64 in *. lia. }
  destruct (IH σ1 w1) as (σ' & nbytes & E2 & Hu2 & Hr2).
  - done.
  - eapply Forall_impl; [exact Hb|]. intros [t m]. by unfold inBucket, calendarDue.
  - lia.
  - rewrite Hl1. change (MaxLines w1) with (MaxLines w). lia.
  - change (MaxSize w1) with (MaxSize w).
    destruct Hs as [Hs|Hs]; [by left|right].
    assert (Hsz : maxSizeCurSize w1 = maxSizeCurSize w + len (stripped R w msg)).
    { unfold w1, with_counters; simpl. apply wrap64_id.
      unfold inInt64, minInt64, maxInt64 in *. lia. }
    rewrite Hsz. change (totalLen R w1 calls) with (totalLen R w calls). lia.
  - exists σ', nbytes. simpl. rewrite E1. simpl. rewrite E2. simpl.
    split; [|split; [done|congruence]].
    unfold w1, with_counters in Hl1 |- *. simpl in Hl1 |- *. rewrite Hl1.
    do 4 f_equal. lia.
Qed.

(** C3. With rotation on and [MaxLines] = L > 0, writing L messages
    from a line count of zero, at times that stay in the day and hour
    the file was opened in and with the byte limit either off or not
    reached by these messages, starts no rotation and returns no error;
    the next write starts exactly one. *)
Theorem maxLines_rotation σ w calls when msg :
  Rotate w = true →
  0 < MaxLines w ≤ maxInt64 →
  maxLinesCurLines w = 0 →
  Z.of_nat (length calls) = MaxLines w →
  usable σ (fileWriter w) = true →
  Forall (λ c, inBucket w c.1 = true) calls →
  is_Some (formatTimeHeader when) →
  MaxSize w ≤ 0 ∨
    (0 ≤ maxSizeCurSize w ∧ maxSizeCurSize w + totalLen R w calls < MaxSize w ≤ maxInt64) →
  ∃ σ1 w1 σ2 w2 err,
    WriteMsgs R σ w calls = Some (σ1, w1, replicate (length calls) None) ∧
    rotations σ1 = rotations σ ∧
    WriteMsg R σ1 w1 when msg = Some (σ2, w2, err) ∧
    rotations σ2 = S (rotations σ1).
Proof.
  intros Hrot HL H0 Hn Hu Hb Hh Hs.
  destruct (WriteMsgs_no_rotation calls σ w Hu Hb) as (σ1 & nbytes & E & Hu1 & Hr1);
    [lia | lia | done |].
  set (w1 := with_counters _ nbytes w) in *.
  destruct (WriteMsg_rotation σ1 w1 when msg Hh) as (σ2 & w2 & err & E2 & Hr2).
  - done.
  - unfold limitsDue, w1, with_counters; simpl.
    replace (0 <? MaxLines w) with true by (symmetry; apply Z.ltb_lt; lia).
    replace (MaxLines w <=? maxLinesCurLines w + Z.of_nat (length calls)) with true
      by (symmetry; apply Z.leb_le; lia).
    done.
  - by exists σ1, w1, σ2, w2, err.
Qed.

(** C4 (as amended). With [Daily] on, [Hourly] off and no line or byte
    limit, a write whose day of the month is the one the active file was
    opened on starts no rotation, and the write after it starts exactly
    one rotation when its day of the month differs from that of the
    first, and none when the two are the same number, be they the same
    calendar day or not. *)
Theorem daily_rotation_by_day_of_month σ w t1 m1 t2 m2 :
  Rotate w = true → Daily w = true → Hourly w = false →
  MaxLines w = 0 → MaxSize w = 0 →
  usable σ (fileWriter w) = true →
  is_Some (formatTimeHeader t1) → is_Some (formatTimeHeader t2) →
  Time.Day t1 = DailyOpenDate w →
  ∃ σ1 w1 σ2 w2 err,
    WriteMsg R σ w t1 m1 = Some (σ1, w1, None) ∧
    rotations σ1 = rotations σ ∧
    WriteMsg R σ1 w1 t2 m2 = Some (σ2, w2, err) ∧
    rotations σ2 = if Time.Day t2 =? Time.Day t1 then rotations σ1
                   else S (rotations σ1).
Proof.
  intros Hrot Hd Hh HL HS Hu H1 H2 Hday.
  assert (Hlim : ∀ a b, limitsDue (with_counters a b w) = false).
  { intros a b. unfold limitsDue, with_counters; simpl. by rewrite HL, HS. }
  assert (Hcal : ∀ a b t, calendarDue (with_counters a b w) (Time.Day t) (Time.Hour_ t)
                          = negb (Time.Day t =? Time.Day t1)).
  { intros a b t. unfold calendarDue, with_counters; simpl.
    by rewrite Hd, Hh, Hday, orb_false_r. }
  destruct (WriteMsg_no_rotation σ w t1 m1 H1) as (σ1 & E1 & Hu1 & Hr1 & _); [|done|].
  { unfold limitsDue, calendarDue. rewrite HL, HS, Hd, Hh, Hday, Z.eqb_refl.
    by rewrite andb_false_r. }
  set (w1 := with_counters _ _ w) in *.
  destruct (Time.Day t2 =? Time.Day t1) eqn:E.
  - destruct (WriteMsg_no_rotation σ1 w1 t2 m2 H2) as (σ2 & E2 & Hu2 & Hr2 & _).
    + unfold w1. by rewrite Hlim, Hcal, E, andb_false_r.
    + done.
    + by eexists σ1, w1, σ2, _, None.
  - destruct (WriteMsg_rotation σ1 w1 t2 m2 H2) as (σ2 & w2 & err & E2 & Hr2).
    + done.
    + unfold w1. by rewrite Hlim, Hcal, E.
    + by exists σ1, w1, σ2, w2, err.
Qed.

(** *** Recovery of the line count *)

Lemma Write_data σ fd fl i b :
  files σ !! fd = Some fl → f_closed fl = false → f_wr fl = true →
  inodes σ !! f_ino fl = Some i →
  ∃ σ' i',
    OS.Write σ (Some fd) b = (σ', (Z.of_nat (length b), None)) ∧
    inodes σ' = <[f_ino fl := i']> (inodes σ) ∧
    i_data i' = i_data i ++ b ∧ i_dir i' = i_dir i ∧ i_mode i' = i_mode i ∧
    names σ' = names σ ∧ files σ' = files σ ∧ stderr σ' = stderr σ.
Proof.
  intros Hfl Hc Hw Hi. unfold OS.Write.
  rewrite (valid_open _ _ _ _ _ Hfl Hc Hi), Hw. simpl.
  destruct b as [|c b].
  - exists σ, i. rewrite app_nil_r, insert_id by done. done.
  - eexists _, _. split; [done|]. simpl. done.
Qed.

Lemma Count_lines (ls : list (list ascii)) :
  Forall (λ l, newline ∉ l) ls →
  Strings.Count (concat (map (λ l, l ++ [newline]) ls)) newline = Z.of_nat (length ls).
Proof.
  induction 1 as [|l ls Hl _ IH]; [done|].
  simpl. rewrite !Count_app, IH.
  assert (Strings.Count l newline = 0) as ->.
  { unfold Strings.Count. clear IH. induction l as [|c l IHl]; [done|].
    rewrite filter_cons. apply not_elem_of_cons in Hl as [Hc Hl].
    case_decide; [congruence|by apply IHl]. }
  assert (Strings.Count [newline] newline = 1) as -> by done.
  lia.
Qed.

(** C6. Let the destination be a regular file that holds N > 0 lines,
    each ended by a newline byte, and let line rotation be on ([Rotate]
    set, [MaxLines] > 0).  Then [Init], on a configuration that names
    this file and whose [Perm] lets the owner read and write it, returns
    no error and leaves the writer with a line count of N, which is the
    number of newline bytes [lines] finds reading the file [readBuf]
    bytes at a time; the bytes of the file are as they were. *)
Theorem Init_seeds_line_count σ w0 jsonConfig w perm ino i (ls : list (list ascii)) :
  U jsonConfig w0 = (w, None) →
  Filename w ≠ EmptyString →
  Rotate w = true → 0 < MaxLines w →
  Strconv.ParseOctal (Perm w) = inr perm → Z.testbit perm 8 = true →
  knownHandle σ w = true →
  names σ !! Filename w = Some ino → inodes σ !! ino = Some i →
  i_dir i = false → OS.ownerWrite i = true →
  ls ≠ [] → Forall (λ l, newline ∉ l) ls →
  i_data i = concat (map (λ l, l ++ [newline]) ls) →
  Z.of_nat (length (i_data i)) ≤ maxInt64 →
  ∃ σ' w' σl,
    Init U σ w0 jsonConfig = (σ', w', None) ∧
    maxLinesCurLines w' = Z.of_nat (length ls) ∧
    lines σ' w' = (σl, (Z.of_nat (length ls), None)) ∧
    usable σ' (fileWriter w') = true ∧
    names σ' !! Filename w = Some ino ∧
    i_data <$> inodes σ' !! ino = Some (i_data i).
Proof.
  intros HU Hne HR HL Hp Hrd Hk Hn Hi Hd Hw Hls Hnl Hdata Hmax.
  unfold Init. rewrite HU.
  replace (len (Filename w) =? 0) with false.
  2:{ symmetry. apply Z.eqb_neq. unfold len. destruct (Filename w); [done|simpl; lia]. }
  set (w1 := with_names _ _ w).
  destruct (startLogger_existing σ w1 perm ino i)
    as (σ' & fd & E & Hfd & Hu & Hn' & Hi' & _); try done.
  exists σ', (opened w1 fd i).
  assert (Hcount : Strings.Count (i_data i) newline = Z.of_nat (length ls))
    by (rewrite Hdata; by apply Count_lines).
  assert (Hino : inodes σ' !! ino
                 = Some (mkInode false (i_data i) (i_mtime i) (OS.permBits perm)))
    by (rewrite Hi'; by rewrite lookup_insert_eq).
  destruct (lines_spec σ' (opened w1 fd i) ino
              (mkInode false (i_data i) (i_mtime i) (OS.permBits perm)))
    as (σl & El & _); try done.
  { by rewrite Hn'. }
  { by rewrite (ownerRead_permBits _ perm). }
  exists σl. split; [done|]. split.
  { unfold opened, with_counters, w1; simpl. rewrite HR.
    replace (0 <? MaxLines w) with true by (symmetry; by apply Z.ltb_lt). done. }
  split. { rewrite El. simpl. by rewrite Hcount. }
  split; [done|]. split; [by rewrite Hn'|]. by rewrite Hino.
Qed.

(** C10. A call of [WriteMsg] that succeeds adds one to the line count
    whatever the message holds, while [startLogger] sets it to the
    number of newline bytes of the file.  So, from a writer whose count
    agrees with its file, after one more message with k newline bytes
    the count is one more than before, reopening the file gives k more
    than before, and the two differ exactly when k is not 1. *)
Theorem line_count_diverges_from_recovery σ w when msg perm fd fl i :
  Rotate w = true → 0 < MaxLines w →
  is_Some (formatTimeHeader when) →
  limitsDue w || calendarDue w (Time.Day when) (Time.Hour_ when) = false →
  fileWriter w = Some fd → files σ !! fd = Some fl →
  f_closed fl = false → f_wr fl = true →
  names σ !! Filename w = Some (f_ino fl) → inodes σ !! f_ino fl = Some i →
  i_dir i = false → OS.ownerWrite i = true →
  Strconv.ParseOctal (Perm w) = inr perm → Z.testbit perm 8 = true →
  maxLinesCurLines w = Strings.Count (i_data i) newline →
  Z.of_nat (length (i_data i)) + len (stripped R w msg) < maxInt64 →
  ∃ σ1 w1 σ2 w2,
    WriteMsg R σ w when msg = Some (σ1, w1, None) ∧
    maxLinesCurLines w1 = maxLinesCurLines w + 1 ∧
    startLogger σ1 w1 = (σ2, w2, None) ∧
    maxLinesCurLines w2 =
      maxLinesCurLines w + Strings.Count (bytes (stripped R w msg)) newline ∧
    (maxLinesCurLines w1 ≠ maxLinesCurLines w2 ↔
     Strings.Count (bytes (stripped R w msg)) newline ≠ 1).
Proof.
  intros HR HL [[[buf d] h] Hh] Hdue Hfw Hfl Hc Hwr Hn Hi Hd Hw Hp Hrd Hcnt Hmax.
  destruct (formatTimeHeader_day _ _ _ _ Hh) as [-> ->].
  rewrite (WriteMsg_unfold _ _ _ _ _ _ _ Hh), rotateIfDue_skip
    by (by rewrite needRotate_split, Hdue, andb_false_r).
  set (m := stripped R w msg) in *.
  destruct (Write_data σ fd fl i (bytes m) Hfl Hc Hwr Hi)
    as (σ1 & i' & E & Hi' & Hdata & Hdir & Hmode & Hn' & Hf' & Hs').
  unfold appendMsg. rewrite Hfw, E.
  set (w1 := with_counters _ _ w).
  assert (Hlen : length (bytes m) = String.length m).
  { unfold bytes. clear. induction m as [|c m IH]; simpl; [done|by rewrite IH]. }
  pose proof (Count_bounds (i_data i) newline) as Hb.
  assert (Hl1 : maxLinesCurLines w1 = maxLinesCurLines w + 1).
  { unfold w1, with_counters; simpl. apply wrap64_id.
    unfold inInt64, minInt64, maxInt64, len in *. lia. }
  destruct (startLogger_existing σ1 w1 perm (f_ino fl) i')
    as (σ2 & fd2 & E2 & _); try done.
  - by rewrite Hn'.
  - rewrite Hi'. by rewrite lookup_insert_eq.
  - congruence.
  - unfold OS.ownerWrite in *. by rewrite Hmode.
  - rewrite Hdata, length_app, Hlen. unfold len in Hmax. lia.
  - unfold knownHandle, w1. simpl. rewrite Hfw, Hf'.
    apply bool_decide_eq_true. by rewrite Hfl.
  - exists σ1, w1, σ2, (opened w1 fd2 i').
    assert (Hl2 : maxLinesCurLines (opened w1 fd2 i')
                  = maxLinesCurLines w + Strings.Count (bytes m) newline).
    { unfold opened, with_counters, w1; simpl. rewrite HR.
      replace (0 <? MaxLines w) with true by (symmetry; by apply Z.ltb_lt).
      simpl. rewrite Hdata, Count_app. lia. }
    repeat split; try done.
    + intros H1 H2. apply H1. rewrite Hl1, Hl2, H2. done.
    + intros H1 H2. apply H1. rewrite Hl1, Hl2 in H2. lia.
Qed.

(** *** Rotation *)

(** C1 (as amended). In every run of [doRotate] that chooses a name and
    whose rename of the active path fails, [startLogger] is called on
    the same writer, hence the same path, before [doRotate] returns.
    When that call returns no error, the writer has a handle it can
    append to and the error of [doRotate] carries the message of the
    rename failure.  When it returns an error, the error of [doRotate]
    carries that one instead; and when the file could not even be
    opened, the writer is left with the handle [doRotate] closed. *)
Theorem doRotate_rename_failure σ w logTime fName e σr :
  knownHandle σ w = true →
  renameFails σ w logTime fName e σr →
  ∃ σ' w' r,
    startLogger σr w = (σ', w', r) ∧
    doRotate σ w logTime =
      (spawn σ', w',
       Some (match r with
             | None => Errorf "rotate: restartLogger err: " (Error e)
             | Some e' => Errorf "rotate: restartLogger startLoggerErr: " (Error e')
             end)) ∧
    (r = None → usable (spawn σ') (fileWriter w') = true) ∧
    (∀ e', (createLogFile σr w).2 = inl e' →
           r = Some e' ∧ usable (spawn σ') (fileWriter w') = false).
Proof.
  intros Hk (perm & fi & σl & err & num & Hp & Hl & Hloop & Hchosen & Hren).
  destruct (startLogger σr w) as [[σ' w'] r] eqn:Es.
  exists σ', w', r. split; [done|].
  destruct (OS.Close σl (fileWriter w)) as [σc rc] eqn:Ec.
  simpl in Hren.
  pose proof (Close_unusable _ _ _ _ Ec) as Hclosed.
  pose proof (Close_frame _ _ _ _ Ec) as (_ & _ & Hgrow).
  pose proof (Rename_frame _ _ _ _ _ Hren) as (Hfr & Hir & _).
  pose proof (rotateLoop_files _ _ _ _ _ _ _ _ _ _ _ Hloop) as Hfl.
  split; [|split].
  - unfold doRotate. rewrite Hp, Hl, Hloop, Hchosen, Ec, Hren.
    unfold restartLogger. rewrite Es. by destruct r.
  - intros ->. apply startLogger_ok in Es.
    + exact Es.
    + unfold knownHandle in *. destruct (fileWriter w) as [fd|]; [|done].
      apply bool_decide_eq_true in Hk. apply bool_decide_eq_true.
      rewrite Hfr. simpl. apply Hgrow. by rewrite Hfl.
  - intros e' He'. unfold startLogger in Es.
    destruct (createLogFile σr w) as [σ1 [e1|fd]] eqn:E1; [|done].
    apply createLogFile_fail in E1 as ->. simpl in He'. simplify_eq.
    split; [done|].
    rewrite <- Hclosed.
    simpl in Hfr, Hir. apply usable_frame; simpl; congruence.
Qed.

(** Once the loop has chosen the free name [fName], the active file, a
    regular file, is found under [fName] when [doRotate] returns; the
    other names are as the loop left them. *)
Lemma doRotate_archives σ w logTime perm σl e num fName a ia :
  Strconv.ParseOctal (RotatePerm w) = inr perm →
  rotateLoop (S (Z.to_nat maxSuffixNum)) (eprint (LogDoRotate logTime) σ) w
    (timeFormat w) None 1 EmptyString = LoopDone σl (Some e) num fName →
  names σ !! Filename w = Some a → inodes σ !! a = Some ia →
  names σl !! Filename w = Some a → inodes σl = inodes σ → i_dir ia = false →
  names σl !! fName = None →
  OS.writableDir σl (Filepath.Dir (Filename w)) = None →
  OS.writableDir σl (Filepath.Dir fName) = None →
  ∀ p, p ≠ Filename w →
       names (doRotate σ w logTime).1.1 !! p = <[fName := a]> (names σl) !! p.
Proof.
  intros Hp Hloop Hn0 Hi0 Hn Hil Hd Hfree Hw1 Hw2 p Hne.
  unfold doRotate. rewrite Hp.
  rewrite (Lstat_some _ (Filename w) a ia) by done.
  rewrite Hloop. simpl andb. cbn iota.
  destruct (OS.Close σl (fileWriter w)) as [σc rc] eqn:Ec.
  apply Close_frame in Ec as ((Hnc & Hic & _) & _).
  rewrite (Rename_file _ (Filename w) fName a ia); simpl; try done.
  - destruct (OS.Chmod _ fName perm) as [σm rm] eqn:Em.
    apply Chmod_frame in Em as [Hnm _].
    destruct (restartLogger σm w rm) as [[σ' w'] r'] eqn:Er.
    cbn [fst]. rewrite (restartLogger_names _ _ _ _ _ _ p Er Hne).
    rewrite Hnm. simpl. rewrite Hnc.
    destruct (decide (fName = p)) as [->|Hp'].
    + by rewrite !lookup_insert_eq.
    + rewrite !lookup_insert_ne by done. by rewrite lookup_delete_ne.
  - by rewrite Hnc.
  - by rewrite Hic, Hil.
  - by rewrite Hnc.
  - rewrite <- Hw1. apply writableDir_frame; simpl; by rewrite ?Hnc, ?Hic.
  - rewrite <- Hw2. apply writableDir_frame; simpl; by rewrite ?Hnc, ?Hic.
Qed.

(** C2 (as amended). Let the active file be a regular file, and the
    [001] name of its period be free.  When the name without a number is
    free too, [doRotate] moves the active file to it.  When it is taken
    by a regular file, a line or byte limit is configured and the [002]
    name is free, [doRotate] moves that file to the [001] name and the
    active file to the [002] name.  So of two rotations with one
    timestamp in an empty directory, the first gives the name without a
    number and the second leaves the first archive under [001] and the
    file just rotated under [002]. *)
Theorem doRotate_archive_names σ w logTime perm a ia :
  Strconv.ParseOctal (RotatePerm w) = inr perm →
  names σ !! Filename w = Some a → inodes σ !! a = Some ia → i_dir ia = false →
  Filename w ≠ withoutNumName w (timeFormat w) →
  (∀ p, p ∈ [Filename w; withoutNumName w (timeFormat w);
             numName w (timeFormat w) 1; numName w (timeFormat w) 2] →
        OS.writableDir σ (Filepath.Dir p) = None) →
  names σ !! numName w (timeFormat w) 1 = None →
  (names σ !! withoutNumName w (timeFormat w) = None →
   names (doRotate σ w logTime).1.1 !! withoutNumName w (timeFormat w) = Some a) ∧
  (∀ b ib,
     names σ !! withoutNumName w (timeFormat w) = Some b →
     inodes σ !! b = Some ib → i_dir ib = false →
     names σ !! numName w (timeFormat w) 2 = None →
     MaxLines w ≠ 0 ∨ MaxSize w ≠ 0 →
     names (doRotate σ w logTime).1.1 !! numName w (timeFormat w) 1 = Some b ∧
     names (doRotate σ w logTime).1.1 !! numName w (timeFormat w) 2 = Some a ∧
     names (doRotate σ w logTime).1.1 !! withoutNumName w (timeFormat w) = None).
Proof.
  clear U R.
  intros Hp Hn Hi Hd Hneu Hdirs H1.
  set (tf := timeFormat w) in *.
  assert (HwF : OS.writableDir σ (Filepath.Dir (Filename w)) = None)
    by (apply Hdirs; set_solver).
  assert (Hwu : OS.writableDir σ (Filepath.Dir (withoutNumName w tf)) = None)
    by (apply Hdirs; set_solver).
  assert (Hw1 : OS.writableDir σ (Filepath.Dir (numName w tf 1)) = None)
    by (apply Hdirs; set_solver).
  assert (Hw2 : OS.writableDir σ (Filepath.Dir (numName w tf 2)) = None)
    by (apply Hdirs; set_solver).
  assert (HneF1 : Filename w ≠ numName w tf 1) by congruence.
  (* a directory that can be written to is none of the names at hand *)
  assert (Hdir : ∀ d, OS.writableDir σ d = None →
                      d ≠ numName w tf 1 ∧
                      (∀ b ib, names σ !! withoutNumName w tf = Some b →
                               inodes σ !! b = Some ib → i_dir ib = false →
                               d ≠ withoutNumName w tf)).
  { intros d Hwd. apply writableDir_inv in Hwd as (ino & i & Hdn & Hdi & Hdd).
    split; [congruence|]. intros b ib Hb Hib Hbd ->. congruence. }
  split.
  - intros Hu.
    pose proof (rotateLoop_first (Z.to_nat maxSuffixNum)
                  (eprint (LogDoRotate logTime) σ) w tf H1 Hu) as Hloop.
    rewrite (doRotate_archives σ w logTime perm _ _ _ _ a ia Hp Hloop);
      try done.
    by rewrite lookup_insert_eq.
  - intros b ib Hu Hb Hbd H2 Hlim.
    assert (HneF2 : Filename w ≠ numName w tf 2) by congruence.
    destruct (rotateLoop_second (Z.to_nat 997) (eprint (LogDoRotate logTime) σ)
                w tf b ib) as (σl & Hloop & Hnl & Hil & Hfl); try done.
    { destruct Hlim as [Hl|Hl]; apply Z.eqb_neq in Hl; rewrite Hl;
        [done|by rewrite andb_false_r]. }
    change (S (S (S (Z.to_nat 997)))) with (S (Z.to_nat maxSuffixNum)) in Hloop.
    assert (Hframe : ∀ d, OS.writableDir σ d = None → OS.writableDir σl d = None).
    { intros d Hwd. rewrite <- Hwd. apply writableDir_frame; [|done].
      destruct (Hdir d Hwd) as [Hd1 Hdu]. rewrite Hnl.
      rewrite lookup_insert_ne by done.
      rewrite lookup_delete_ne; [done|]. intros <-. by eapply Hdu. }
    assert (Hall : ∀ p, p ≠ Filename w →
              names (doRotate σ w logTime).1.1 !! p
              = <[numName w tf 2 := a]> (names σl) !! p).
    { eapply (doRotate_archives σ w logTime perm σl _ 3 (numName w tf 2) a ia);
        try done.
      - rewrite Hnl. rewrite lookup_insert_ne by done.
        by rewrite lookup_delete_ne.
      - rewrite Hnl. rewrite lookup_insert_ne by (apply numName_1_2).
        rewrite lookup_delete_ne by (apply withoutNumName_numName). done.
      - by apply Hframe.
      - by apply Hframe. }
    rewrite !Hall by done. rewrite Hnl.
    split; [|split].
    + rewrite lookup_insert_ne by (apply not_eq_sym, numName_1_2).
      by rewrite lookup_insert_eq.
    + by rewrite lookup_insert_eq.
    + rewrite lookup_insert_ne by (apply not_eq_sym, withoutNumName_numName).
      rewrite lookup_insert_ne by (apply not_eq_sym, withoutNumName_numName).
      by rewrite lookup_delete_eq.
Qed.

(** C8 (as amended). With [MaxDays] small enough for [MaxDays] days to
    be counted in nanoseconds, and in directories the process may
    remove from, [deleteOldLog] removes exactly the names [swept] tells:
    the entries met walking the directory of the log file, at any
    depth, that are not directories, whose base name starts with the
    base of [fileNameOnly] and ends with [suffix], and that were last
    modified before now minus [MaxDays] days.  Every other name stays,
    the contents of all files stay, and the active file is treated as
    any other entry: it goes when it is such an entry. *)
Theorem deleteOldLog_sweeps σ w :
  -106751 ≤ MaxDays w ≤ 106751 →
  (∀ q, swept σ w q = true → OS.writableDir σ (Filepath.Dir q) = None) →
  (∀ p, names (deleteOldLog σ w) !! p = if swept σ w p then None else names σ !! p) ∧
  inodes (deleteOldLog σ w) = inodes σ.
Proof.
  intros Hrange Hperm.
  destruct (deleteOldLog_names σ w Hrange Hperm) as (Hn & Hi & _). done.
Qed.

(** *** The registry *)

(** C7 (as amended). [newFileWriter] looks the configuration string
    itself up in [instance].  For a string that has an entry it returns
    the pointer of that entry; the heap, and so the writer behind the
    pointer, and the registry are as before, and the string is not
    decoded.  For a string without an entry, a writer that [Init]
    accepts is allocated at a new address and entered under that string
    alone.  So there is at most one writer for each configuration
    string. *)
Theorem newFileWriter_keyed_by_string p jsonConfig :
  let inst := default ∅ (instance p) in
  (∀ ptr, inst !! jsonConfig = Some ptr →
          newFileWriter U p jsonConfig =
            (mkProcess (eprint LogUseExist (world p)) (heap p) (Some inst), Some ptr)) ∧
  (inst !! jsonConfig = None →
   ∀ p' ptr, newFileWriter U p jsonConfig = (p', Some ptr) →
             heap p !! ptr = None ∧
             instance p' = Some (<[jsonConfig := ptr]> inst) ∧
             (∀ q, q ≠ ptr → heap p' !! q = heap p !! q) ∧
             ∃ σ' w', Init U (eprint LogCreateNew (world p)) defaultWriter jsonConfig
                        = (σ', w', None) ∧
                      world p' = σ' ∧ heap p' !! ptr = Some w').
Proof.
  intros inst. unfold newFileWriter.
  change (match instance p with None => ∅ | Some m => m end) with inst.
  split.
  - by intros ptr ->.
  - intros -> p' ptr.
    destruct (Init U _ defaultWriter jsonConfig) as [[σ' w'] [e|]] eqn:E; [done|].
    intros [= <- <-]. simpl.
    split; [apply not_elem_of_dom, is_fresh|]. split; [done|].
    split; [by intros q Hq; rewrite lookup_insert_ne|].
    exists σ', w'. by rewrite lookup_insert_eq.
Qed.

(** ** More of the writer *)

(** *** [WriteMsg], call by call *)

(** X1. A call of [WriteMsg] that returns starts one rotation when
    [Rotate] is set and [needRotate] holds of the writer as the call
    finds it, and none otherwise: never two, whatever [doRotate] runs
    into. *)
Theorem WriteMsg_rotates_once_when_due σ w when msg :
  is_Some (formatTimeHeader when) →
  ∃ σ' w' err,
    WriteMsg R σ w when msg = Some (σ', w', err) ∧
    rotations σ' =
      (rotations σ +
       if Rotate w && needRotate w (len (stripped R w msg)) (Time.Day when)
                        (Time.Hour_ when)
       then 1 else 0)%nat.
Proof.
  intros [[[buf d] h] Hh].
  destruct (formatTimeHeader_day _ _ _ _ Hh) as [-> ->].
  rewrite (WriteMsg_unfold _ _ _ _ _ _ _ Hh).
  destruct (Rotate w && needRotate w (len (stripped R w msg)) (Time.Day when)
                          (Time.Hour_ when)) eqn:Hdue.
  - apply andb_true_iff in Hdue as [Hrot Hneed].
    pose proof (rotateIfDue_due σ w when (stripped R w msg) _ _ Hrot Hneed) as HR.
    destruct (rotateIfDue σ w when _ _ _) as [σ1 w1]. simpl in HR.
    destruct (appendMsg σ1 w1 (stripped R w msg)) as [[σ' w'] err] eqn:E.
    apply appendMsg_stderr in E.
    exists σ', w', err. split; [done|]. rewrite (rotations_stderr _ _ E). lia.
  - rewrite rotateIfDue_skip by done.
    destruct (appendMsg σ w (stripped R w msg)) as [[σ' w'] err] eqn:E.
    apply appendMsg_stderr in E.
    exists σ', w', err. split; [done|]. rewrite (rotations_stderr _ _ E). lia.
Qed.

(** X2. A call of [WriteMsg] that finds no rotation due, on a writer
    whose handle is open for appending, adds the bytes of the message as
    written (stripped when [StripColors] is set) at the end of the file
    behind the handle, and these bytes only: the names on disk and every
    other inode are as before, and the writer keeps its handle. *)
Theorem WriteMsg_appends_verbatim σ w when msg fd fl i :
  is_Some (formatTimeHeader when) →
  Rotate w && needRotate w (len (stripped R w msg)) (Time.Day when) (Time.Hour_ when)
    = false →
  fileWriter w = Some fd → files σ !! fd = Some fl →
  f_closed fl = false → f_wr fl = true → inodes σ !! f_ino fl = Some i →
  ∃ σ' w',
    WriteMsg R σ w when msg = Some (σ', w', None) ∧
    fileWriter w' = Some fd ∧ files σ' = files σ ∧ names σ' = names σ ∧
    i_data <$> inodes σ' !! f_ino fl = Some (i_data i ++ bytes (stripped R w msg)) ∧
    ∀ j, j ≠ f_ino fl → inodes σ' !! j = inodes σ !! j.
Proof.
  intros [[[buf d] h] Hh] Hdue Hfw Hfl Hc Hw Hi.
  destruct (formatTimeHeader_day _ _ _ _ Hh) as [-> ->].
  rewrite (WriteMsg_unfold _ _ _ _ _ _ _ Hh), rotateIfDue_skip by done.
  destruct (Write_data σ fd fl i (bytes (stripped R w msg)) Hfl Hc Hw Hi)
    as (σ' & i' & E & Hi' & Hdata & _ & _ & Hn & Hf & _).
  unfold appendMsg. rewrite Hfw, E.
  eexists _, _. split; [done|]. split; [done|]. split; [done|]. split; [done|].
  rewrite Hi'. split.
  - rewrite lookup_insert_eq. simpl. by rewrite Hdata.
  - intros j Hj. by rewrite lookup_insert_ne.
Qed.

(** X3. After [Destroy], a call of [WriteMsg] that finds no rotation due
    fails with the error of a write to a closed file; it leaves the
    counters of the writer and the disk as they were. *)
Theorem WriteMsg_after_Destroy σ w when msg :
  is_Some (formatTimeHeader when) →
  Rotate w && needRotate w (len (stripped R w msg)) (Time.Day when) (Time.Hour_ when)
    = false →
  usable σ (fileWriter w) = true →
  ∃ name,
    WriteMsg R (Destroy σ w) w when msg =
      Some (Destroy σ w, w, Some (PathError "write" name ErrClosed)) ∧
    names (Destroy σ w) = names σ ∧ inodes (Destroy σ w) = inodes σ.
Proof.
  intros [[[buf d] h] Hh] Hdue Hu.
  destruct (formatTimeHeader_day _ _ _ _ Hh) as [-> ->].
  rewrite (WriteMsg_unfold _ _ _ _ _ _ _ Hh), rotateIfDue_skip by done.
  destruct (usable_inv _ _ Hu) as (fd & fl & i & Hfw & Hfl & Hc & Hw & Hi).
  exists (f_name fl).
  unfold Destroy, OS.Close. rewrite Hfw, (valid_open _ _ _ _ _ Hfl Hc Hi). simpl.
  split; [|done].
  unfold appendMsg, OS.Write, OS.valid. rewrite Hfw. simpl.
  by rewrite lookup_insert_eq.
Qed.

(** *** The time header *)

Lemma Date_bounds t : 1 ≤ Time.Month t ≤ 12 ∧ 1 ≤ Time.Day t ≤ 31.
Proof using Type.
  unfold Time.Month, Time.Day, Time.Date, Time.civil. simpl.
  set (doe := (Time.daysSinceEpoch t + 719468) mod 146097).
  assert (Hdoe : 0 ≤ doe < 146097) by (apply Z.mod_pos_bound; lia).
  clearbody doe.
  set (yoe := (doe - doe / 1460 + doe / 36524 - doe / 146096) / 365).
  set (doy := doe - (365 * yoe + yoe / 4 - yoe / 100)).
  assert (Hdoy : 0 ≤ doy ≤ 365) by (subst doy yoe; Z.div_mod_to_equations; lia).
  clearbody doy.
  destruct (Z.ltb_spec ((5 * doy + 2) / 153) 10); Z.div_mod_to_equations; lia.
Qed.

Lemma Clock_bounds t :
  0 ≤ (Time.Clock t).1.1 ≤ 23 ∧ 0 ≤ (Time.Clock t).1.2 ≤ 59 ∧ 0 ≤ (Time.Clock t).2 ≤ 59.
Proof using Type.
  unfold Time.Clock. simpl.
  assert (H : 0 ≤ Time.secOfDay t < 86400) by (apply Z.mod_pos_bound; lia).
  revert H. generalize (Time.secOfDay t). intros s H.
  Z.div_mod_to_equations. lia.
Qed.

Lemma get_is_Some (s : string) : ∀ n, is_Some (String.get n s) ↔ (n < String.length s)%nat.
Proof using Type.
  induction s as [|c s IH]; intros n; simpl.
  - split; [by intros [? ?]|lia].
  - destruct n as [|n]; [split; [lia|by eexists]|]. rewrite IH. lia.
Qed.

Lemma index_is_Some s i : is_Some (index s i) ↔ 0 ≤ i < len s.
Proof using Type.
  unfold index, len.
  destruct (Z.leb_spec 0 i), (Z.ltb_spec i (Z.of_nat (String.length s))); simpl;
    try (split; [by intros [? ?]|lia]).
  rewrite get_is_Some. lia.
Qed.

Lemma formatTimeHeader_year when :
  is_Some (formatTimeHeader when) ↔ 0 ≤ Time.Year when ≤ 9999.
Proof.
  pose proof (Date_bounds when) as [Hmo Hd].
  pose proof (Clock_bounds when) as (Hh & Hmi & Hs).
  assert (Hns : 0 ≤ Time.Nanosecond when < 1000000000)
    by (apply Z.mod_pos_bound; lia).
  unfold formatTimeHeader, Time.Year, Time.Month, Time.Day in *.
  destruct (Time.Date when) as [[y mo] d], (Time.Clock when) as [[h mi] s].
  simpl in *. revert Hns. generalize (Time.Nanosecond when). intros ns Hns.
  split.
  - intros [x Hx]. simplify_option_eq.
    repeat match goal with
           | H : index _ _ = Some _ |- _ =>
               apply mk_is_Some, index_is_Some in H
           end.
    change (len y2) with 100 in *. change (len y3) with 100 in *.
    Z.to_euclidean_division_equations. lia.
  - intros Hy.
    repeat match goal with
           | |- is_Some (mbind _ (index ?s ?i)) =>
               let H := fresh "H" in
               assert (H : is_Some (index s i));
               [ apply index_is_Some;
                 let n := eval vm_compute in (len s) in change (len s) with n;
                 Z.to_euclidean_division_equations; lia
               | destruct H as [? ->]; simpl ]
           end.
    by eexists.
Qed.

(** X4. [formatTimeHeader] keeps within its tables, and so returns,
    exactly for the times whose year is between 0 and 9999; it panics on
    the others, and [WriteMsg] with it, before anything is written.  When
    it returns, the header has 24 bytes and the day and hour it gives are
    those of the time. *)
Theorem formatTimeHeader_defined_iff when :
  (is_Some (formatTimeHeader when) ↔ 0 ≤ Time.Year when ≤ 9999) ∧
  (∀ σ w msg, is_Some (WriteMsg R σ w when msg) ↔ 0 ≤ Time.Year when ≤ 9999) ∧
  (∀ buf d h, formatTimeHeader when = Some (buf, d, h) →
              length buf = 24%nat ∧ d = Time.Day when ∧ h = Time.Hour_ when ∧
              1 ≤ d ≤ 31 ∧ 0 ≤ h ≤ 23).
Proof.
  pose proof (formatTimeHeader_year when) as Hiff.
  split; [exact Hiff|]. split.
  - intros σ w msg. rewrite <- Hiff. unfold WriteMsg.
    destruct (formatTimeHeader when) as [[[buf d] h]|]; simpl.
    + destruct (rotateIfDue σ w when _ d h). split; by eexists.
    + done.
  - intros buf d h Hh.
    destruct (formatTimeHeader_day _ _ _ _ Hh) as [-> ->].
    pose proof (Date_bounds when) as [_ Hd].
    pose proof (Clock_bounds when) as (Hhr & _).
    split; [|done].
    unfold formatTimeHeader in Hh.
    destruct (Time.Date when) as [[y mo] d], (Time.Clock when) as [[h mi] s].
    by simplify_option_eq.
Qed.

Lemma tabulates_spec tbl f i b :
  tabulates tbl f = true → index tbl i = Some b → b = decimalDigit (f i).
Proof.
  unfold tabulates. rewrite forallb_forall. intros H Hi.
  pose proof (proj1 (index_is_Some tbl i) (mk_is_Some _ _ Hi)) as Hb.
  assert (Hin : In i (seqZ 0 (len tbl))).
  { apply list_elem_of_In, elem_of_seqZ. lia. }
  apply H, bool_decide_eq_true in Hin. congruence.
Qed.

(** The fifteen tables of the source, checked entry by entry. *)
Lemma tables_tabulate :
  tabulates y1 (λ i, i) = true ∧ tabulates y2 (λ i, i mod 10) = true ∧
  tabulates y3 (λ i, i / 10) = true ∧ tabulates y4 (λ i, i mod 10) = true ∧
  tabulates mo1 (λ i, (i + 1) / 10) = true ∧ tabulates mo2 (λ i, (i + 1) mod 10) = true ∧
  tabulates d1 (λ i, (i + 1) / 10) = true ∧ tabulates d2 (λ i, (i + 1) mod 10) = true ∧
  tabulates h1 (λ i, i / 10) = true ∧ tabulates h2 (λ i, i mod 10) = true ∧
  tabulates mi1 (λ i, i / 10) = true ∧ tabulates mi2 (λ i, i mod 10) = true ∧
  tabulates s1 (λ i, i / 10) = true ∧ tabulates s2 (λ i, i mod 10) = true ∧
  tabulates ns1 (λ i, i) = true.
Proof. repeat (split; [vm_compute; reflexivity|]). vm_compute. reflexivity. Qed.

Lemma year_digits y :
  0 ≤ y ≤ 9999 →
  Z.rem (Z.quot y 1000) 10 = y / 100 / 10 ∧
  (Z.quot y 100) mod 10 = y / 100 mod 10 ∧
  (y - Z.quot y 100 * 100) / 10 = y mod 100 / 10 ∧
  (y - Z.quot y 100 * 100) mod 10 = y mod 100 mod 10.
Proof.
  intros H. rewrite !(Z.quot_div_nonneg y) by lia.
  rewrite Z.rem_mod_nonneg by (try apply Z.div_pos; lia).
  assert (y - y / 100 * 100 = y mod 100) as -> by (Z.div_mod_to_equations; lia).
  repeat split. Z.div_mod_to_equations. lia.
Qed.

Lemma millisecond_digits ns :
  0 ≤ ns < 1000000000 →
  Z.quot (Z.quot ns 1000000) 100 = ns / 1000000 / 100 ∧
  Z.quot (Z.rem (Z.quot ns 1000000) 100) 10 = (ns / 1000000) mod 100 / 10 ∧
  Z.rem (Z.quot ns 1000000) 10 = (ns / 1000000) mod 100 mod 10.
Proof.
  intros H. rewrite !(Z.quot_div_nonneg ns) by lia.
  assert (0 ≤ ns / 1000000) by (apply Z.div_pos; lia).
  rewrite !Z.rem_mod_nonneg by lia.
  rewrite !Z.quot_div_nonneg by (try apply Z.mod_pos_bound; lia).
  repeat split. Z.div_mod_to_equations. lia.
Qed.

(** X17. The header [formatTimeHeader] builds from its fifteen tables
    is the time written [2006/01/02 15:04:05.123 ]: four digits of the
    year, two of the month, the day, the hour, the minute and the
    second, three of the millisecond, each the decimal digit the
    divisions give, with the separators of the layout. *)
Theorem formatTimeHeader_renders_time when buf d h :
  formatTimeHeader when = Some (buf, d, h) → buf = timeHeader when.
Proof.
  intros Hh.
  pose proof (proj1 (formatTimeHeader_year when) (mk_is_Some _ _ Hh)) as Hy.
  pose proof (Date_bounds when) as [Hmo Hd].
  pose proof (Clock_bounds when) as (Hhr & Hmi & Hs).
  assert (Hns : 0 ≤ Time.Nanosecond when < 1000000000)
    by (apply Z.mod_pos_bound; lia).
  revert Hh. unfold formatTimeHeader, timeHeader, twoDigits,
    Time.Year, Time.Month, Time.Day in *.
  destruct (Time.Date when) as [[y mo] dd], (Time.Clock when) as [[hh mi] s].
  simpl in Hy, Hmo, Hd, Hhr, Hmi, Hs.
  revert Hns. generalize (Time.Nanosecond when). intros ns Hns Hh.
  simplify_option_eq.
  destruct tables_tabulate
    as (T1 & T2 & T3 & T4 & T5 & T6 & T7 & T8 & T9 & T10 & T11 & T12 & T13 & T14 & T15).
  repeat match goal with
         | H : index y1 _ = Some _ |- _ => apply (tabulates_spec _ _ _ _ T1) in H
         | H : index y2 _ = Some _ |- _ => apply (tabulates_spec _ _ _ _ T2) in H
         | H : index y3 _ = Some _ |- _ => apply (tabulates_spec _ _ _ _ T3) in H
         | H : index y4 _ = Some _ |- _ => apply (tabulates_spec _ _ _ _ T4) in H
         | H : index mo1 _ = Some _ |- _ => apply (tabulates_spec _ _ _ _ T5) in H
         | H : index mo2 _ = Some _ |- _ => apply (tabulates_spec _ _ _ _ T6) in H
         | H : index d1 _ = Some _ |- _ => apply (tabulates_spec _ _ _ _ T7) in H
         | H : index d2 _ = Some _ |- _ => apply (tabulates_spec _ _ _ _ T8) in H
         | H : index h1 _ = Some _ |- _ => apply (tabulates_spec _ _ _ _ T9) in H
         | H : index h2 _ = Some _ |- _ => apply (tabulates_spec _ _ _ _ T10) in H
         | H : index mi1 _ = Some _ |- _ => apply (tabulates_spec _ _ _ _ T11) in H
         | H : index mi2 _ = Some _ |- _ => apply (tabulates_spec _ _ _ _ T12) in H
         | H : index s1 _ = Some _ |- _ => apply (tabulates_spec _ _ _ _ T13) in H
         | H : index s2 _ = Some _ |- _ => apply (tabulates_spec _ _ _ _ T14) in H
         | H : index ns1 _ = Some _ |- _ => apply (tabulates_spec _ _ _ _ T15) in H
         end.
  subst. cbv beta.
  destruct (year_digits y Hy) as (-> & -> & -> & ->).
  destruct (millisecond_digits ns Hns) as (-> & -> & ->).
  replace (mo - 1 + 1) with mo by lia. replace (d - 1 + 1) with d by lia.
  reflexivity.
Qed.

(** *** The sweep, whatever it is given *)

Lemma Remove_frame σ name σ' r :
  OS.Remove σ name = (σ', r) →
  inodes σ' = inodes σ ∧ files σ' = files σ ∧ now σ' = now σ ∧
  stderr σ' = stderr σ ∧ sweeps σ' = sweeps σ ∧
  (∀ p, p ≠ name → names σ' !! p = names σ !! p) ∧
  (names σ' !! name = names σ !! name ∨ names σ' !! name = None).
Proof.
  unfold OS.Remove. intros H.
  repeat (case_match; simplify_eq/=); repeat split; auto;
    try (intros p Hp; by rewrite lookup_delete_ne);
    right; apply lookup_delete_eq.
Qed.

Lemma deleteOldLogFn_frame σ0 w σ q info :
  now σ = now σ0 →
  let σ' := deleteOldLogFn w σ q info in
  inodes σ' = inodes σ ∧ files σ' = files σ ∧ now σ' = now σ ∧
  stderr σ' = stderr σ ∧ sweeps σ' = sweeps σ ∧
  ∀ p, names σ' !! p = names σ !! p ∨
       (p = q ∧ names σ' !! p = None ∧ ∃ fi, info = Some fi ∧ condemned σ0 w q fi).
Proof.
  intros Hnow. unfold deleteOldLogFn, OS.Now. rewrite Hnow.
  destruct info as [fi|]; simpl; [|by auto 10].
  destruct (negb (IsDir fi)) eqn:Hd; simpl; [|by auto 10].
  destruct (Time.Before _ _) eqn:Hb; simpl; [|by auto 10].
  fold (nameMatches w q). destruct (nameMatches w q) eqn:Hm; [|by auto 10].
  destruct (OS.Remove σ q) as [σ' r] eqn:E. simpl.
  destruct (Remove_frame _ _ _ _ E) as (Hi & Hf & Hn & Hs & Hw & Hne & Hq).
  repeat (split; [congruence|]). intros p.
  destruct (decide (p = q)) as [->|Hp]; [|left; by apply Hne].
  destruct Hq as [Hq|Hq]; [by left|right].
  repeat (split; [done|]). exists fi. split; [done|].
  repeat split; [by destruct (IsDir fi)|done|done].
Qed.

Lemma sweep_frame σ0 w (L : list (string * option FileInfo)) :
  ∀ (l : list (string * option FileInfo)) σ,
    l ⊆ L →
    inodes σ = inodes σ0 → files σ = files σ0 → now σ = now σ0 →
    stderr σ = stderr σ0 → sweeps σ = sweeps σ0 →
    (∀ p, names σ !! p = names σ0 !! p ∨
          (names σ !! p = None ∧ ∃ fi, (p, Some fi) ∈ L ∧ condemned σ0 w p fi)) →
    let σ' := foldl (λ σ e, deleteOldLogFn w σ e.1 e.2) σ l in
    inodes σ' = inodes σ0 ∧ files σ' = files σ0 ∧ now σ' = now σ0 ∧
    stderr σ' = stderr σ0 ∧ sweeps σ' = sweeps σ0 ∧
    ∀ p, names σ' !! p = names σ0 !! p ∨
         (names σ' !! p = None ∧ ∃ fi, (p, Some fi) ∈ L ∧ condemned σ0 w p fi).
Proof.
  clear U R.
  induction l as [|[q info] l IH]; intros σ Hsub Hi Hf Hn Hs Hw Hnames; simpl.
  { done. }
  destruct (deleteOldLogFn_frame σ0 w σ q info Hn) as (Hi' & Hf' & Hn' & Hs' & Hw' & Hq).
  apply IH; try congruence.
  - intros e He. apply Hsub. by right.
  - intros p. destruct (Hq p) as [Hp|(-> & Hp & fi & -> & Hc)].
    + rewrite Hp. apply Hnames.
    + right. split; [done|]. exists fi. split; [|done]. apply Hsub. by left.
Qed.

(** X5. [deleteOldLog] is safe on any tree and for any [MaxDays]: it
    changes the contents, mode and time of no file and no open handle,
    prints nothing, and the only thing it does to a name is to remove
    it; a name it removes is one the walk met, of something that is not
    a directory, whose base has the prefix and the suffix of the log
    file, and for which the age test of the callback held. *)
Theorem deleteOldLog_spares σ w :
  inodes (deleteOldLog σ w) = inodes σ ∧
  files (deleteOldLog σ w) = files σ ∧
  stderr (deleteOldLog σ w) = stderr σ ∧
  ∀ p, names (deleteOldLog σ w) !! p ≠ names σ !! p →
       names (deleteOldLog σ w) !! p = None ∧
       p ∈ (OS.walkEntries σ (Filepath.Dir (Filename w))).*1 ∧
       ∃ fi, OS.Lstat σ p = inr fi ∧ condemned σ w p fi.
Proof.
  unfold deleteOldLog.
  destruct (sweep_frame σ w (OS.walkEntries σ (Filepath.Dir (Filename w)))
              (OS.walkEntries σ (Filepath.Dir (Filename w))) σ)
    as (Hi & Hf & _ & Hs & _ & Hn); try done.
  { intros p. by left. }
  repeat (split; [done|]). intros p Hp.
  destruct (Hn p) as [?|(Hnone & fi & Hin & Hc)]; [done|].
  split; [done|]. split.
  { apply list_elem_of_fmap. by exists (p, Some fi). }
  exists fi. split; [|done].
  apply walkEntries_info in Hin. unfold OS.lstatOpt in Hin.
  destruct (OS.Lstat σ p); by simplify_eq.
Qed.

(** *** Opening the log file *)

Lemma createLogFile_inv σ w σ' fd :
  createLogFile σ w = (σ', inr fd) →
  ∃ perm ino,
    Strconv.ParseOctal (Perm w) = inr perm ∧
    files σ !! fd = None ∧
    files σ' = <[fd := mkFile (Filename w) ino 0 true false]> (files σ) ∧
    names σ' = <[Filename w := ino]> (names σ) ∧
    inodes σ' !! ino = Some (reopened σ (Filename w) perm) ∧
    (∀ j, j ≠ ino → inodes σ' !! j = inodes σ !! j) ∧
    match OS.resolve σ (Filename w) with
    | Some (ino0, _) => ino = ino0
    | None => inodes σ !! ino = None
    end ∧
    now σ' = now σ ∧ stderr σ' = stderr σ ∧ sweeps σ' = sweeps σ.
Proof.
  unfold createLogFile, reopened.
  destruct (Strconv.ParseOctal (Perm w)) as [e|perm]; [done|].
  unfold OS.OpenFile.
  destruct (OS.resolve σ (Filename w)) as [[ino i]|] eqn:Hres.
  - destruct (i_dir i) eqn:Hdir; [done|].
    destruct (negb (OS.ownerWrite i)); [done|].
    unfold OS.newFile, OS.Chmod. simpl.
    replace (OS.resolve (set_files _ σ) (Filename w)) with (Some (ino, i)).
    intros [= <- <-]. simpl.
    apply resolve_inv in Hres as [Hn Hi].
    exists perm, ino. split; [done|].
    split; [apply not_elem_of_dom, is_fresh|].
    split; [done|]. split; [by rewrite insert_id|].
    split; [by rewrite lookup_insert_eq, Hdir|].
    split; [|done]. intros j Hj. by rewrite lookup_insert_ne.
  - destruct (OS.resolve σ (Filepath.Dir (Filename w))) as [[dino d]|]; [|done].
    destruct (negb (i_dir d)); [done|].
    destruct (negb (OS.ownerWrite d)); [done|].
    unfold OS.newFile, OS.Chmod, OS.resolve. simpl.
    rewrite lookup_insert_eq. simpl. rewrite lookup_insert_eq. simpl.
    intros [= <- <-]. simpl.
    exists perm, (fresh (dom (inodes σ))). split; [done|].
    split; [apply not_elem_of_dom, is_fresh|].
    split; [done|]. split; [done|].
    split; [by rewrite lookup_insert_eq|].
    split; [|split; [apply not_elem_of_dom, is_fresh|done]].
    intros j Hj. by rewrite !lookup_insert_ne.
Qed.

(** X6. When [createLogFile] returns a file, [Perm] was an octal number
    and the log file is there with exactly the permission bits of
    [Perm], whatever the umask of the process; a file that was there
    has the size and modification time it had (it is opened for
    appending, never truncated), a file that was not is empty; the
    handle is a new one, open for appending, and no other handle, no
    other name and no contents have changed. *)
Theorem createLogFile_opens σ w σ' fd :
  createLogFile σ w = (σ', inr fd) →
  ∃ perm fi,
    Strconv.ParseOctal (Perm w) = inr perm ∧
    OS.Lstat σ' (Filename w) = inr fi ∧
    Mode fi = OS.permBits perm ∧ IsDir fi = false ∧
    match OS.Lstat σ (Filename w) with
    | inr fi0 => Size fi = Size fi0 ∧ ModTime fi = ModTime fi0
    | inl _ => Size fi = 0 ∧ ModTime fi = now σ
    end ∧
    usable σ' (Some fd) = true ∧ files σ !! fd = None ∧
    (∀ fd', fd' ≠ fd → files σ' !! fd' = files σ !! fd') ∧
    (∀ p, p ≠ Filename w → names σ' !! p = names σ !! p) ∧
    (∀ ino i, inodes σ !! ino = Some i →
              ∃ i', inodes σ' !! ino = Some i' ∧ i_data i' = i_data i).
Proof.
  intros H.
  destruct (createLogFile_inv _ _ _ _ H)
    as (perm & ino & HP & Hfresh & Hf & Hn & Hi & Hother & Hres & _).
  exists perm, (OS.info (reopened σ (Filename w) perm)).
  split; [done|]. split.
  { apply (Lstat_some _ _ ino); [by rewrite Hn, lookup_insert_eq|done]. }
  unfold reopened, OS.Lstat in *.
  destruct (OS.resolve σ (Filename w)) as [[ino0 i0]|] eqn:E; simpl.
  - subst ino0. apply resolve_inv in E as [_ Hi0].
    do 3 (split; [done|]). split.
    { apply (usable_intro _ _ (mkFile (Filename w) ino 0 true false)
               (mkInode false (i_data i0) (i_mtime i0) (OS.permBits perm)));
        [by rewrite Hf, lookup_insert_eq|done..]. }
    split; [done|]. split.
    { intros fd' Hfd'. by rewrite Hf, lookup_insert_ne. }
    split.
    { intros p Hp. by rewrite Hn, lookup_insert_ne. }
    intros j ij Hj. destruct (decide (j = ino)) as [->|Hne].
    + eexists. split; [done|]. simpl. congruence.
    + exists ij. by rewrite Hother.
  - do 3 (split; [done|]). split.
    { apply (usable_intro _ _ (mkFile (Filename w) ino 0 true false)
               (mkInode false [] (now σ) (OS.permBits perm)));
        [by rewrite Hf, lookup_insert_eq|done..]. }
    split; [done|]. split.
    { intros fd' Hfd'. by rewrite Hf, lookup_insert_ne. }
    split.
    { intros p Hp. by rewrite Hn, lookup_insert_ne. }
    intros j ij Hj. exists ij. rewrite Hother; [done|congruence].
Qed.

(** *** What [Init] derives from the file name *)

Lemma bytes_app (s t : string) : bytes (s ++ t) = bytes s ++ bytes t.
Proof. unfold bytes. induction s as [|c s IH]; simpl; [done|by rewrite IH]. Qed.

Lemma bytes_inj (s t : string) : bytes s = bytes t → s = t.
Proof.
  unfold bytes. intros H.
  rewrite <- (string_of_list_ascii_of_string s), <- (string_of_list_ascii_of_string t).
  by rewrite H.
Qed.

Lemma extScan_spec rpath : ∀ acc,
  (∃ pre, rev rpath ++ bytes acc = pre ++ bytes (Filepath.extScan rpath acc)) ∧
  (Filepath.extScan rpath acc = EmptyString ∨
   String.prefix "." (Filepath.extScan rpath acc) = true).
Proof.
  induction rpath as [|c rest IH]; intros acc; simpl.
  { split; [|by left]. exists (bytes acc). by rewrite app_nil_r. }
  destruct (Filepath.isSep c).
  { split; [|by left]. eexists. by rewrite app_nil_r. }
  destruct (Ascii.eqb_spec c ".") as [->|Hc].
  { split; [|right; simpl; by destruct acc]. exists (rev rest). by rewrite <- app_assoc. }
  destruct (IH (String c acc)) as [[pre Hpre] Hdot]. split; [|done].
  exists pre. rewrite <- Hpre. by rewrite <- app_assoc.
Qed.

Lemma Ext_suffix path :
  (∃ pre, path = (pre ++ Filepath.Ext path)%string) ∧
  (Filepath.Ext path = EmptyString ∨ String.prefix "." (Filepath.Ext path) = true).
Proof.
  unfold Filepath.Ext.
  destruct (extScan_spec (rev (bytes path)) EmptyString) as [[pre Hpre] Hdot].
  split; [|done]. exists (string_of_list_ascii pre).
  apply bytes_inj. rewrite bytes_app. unfold bytes at 2.
  rewrite list_ascii_of_string_of_list_ascii, <- Hpre, rev_involutive.
  by rewrite app_nil_r.
Qed.

Lemma substring_all (s : string) : String.substring 0 (String.length s) s = s.
Proof. induction s as [|c s IH]; simpl; [done|by rewrite IH]. Qed.

Lemma substring_app_l (pre suf : string) :
  String.substring 0 (String.length pre) (pre ++ suf) = pre.
Proof.
  induction pre as [|c pre IH]; simpl; [by destruct suf|by rewrite IH].
Qed.

Lemma substring_app_r (pre suf : string) :
  String.substring (String.length pre) (String.length suf) (pre ++ suf) = suf.
Proof. induction pre as [|c pre IH]; simpl; [apply substring_all|done]. Qed.

Lemma TrimSuffix_app (pre suf : string) : Strings.TrimSuffix (pre ++ suf) suf = pre.
Proof.
  unfold Strings.TrimSuffix, Strings.HasSuffix.
  rewrite str_app_length.
  replace (String.length pre + String.length suf - String.length suf)%nat
    with (String.length pre) by lia.
  rewrite substring_app_r, String.eqb_refl, substring_app_l.
  destruct (Nat.leb_spec (String.length suf) (String.length pre + String.length suf));
    [done|lia].
Qed.

(** The methods assign the handle, the counters and the opening time
    only. *)
Lemma sameConfig_refl w : sameConfig w w.
Proof. by repeat split. Qed.

Lemma sameConfig_trans w1 w2 w3 : sameConfig w1 w2 → sameConfig w2 w3 → sameConfig w1 w3.
Proof. unfold sameConfig. intros H1 H2. destruct_and!. repeat split; congruence. Qed.

Lemma initFd_config σ w σ' w' r : initFd σ w = (σ', w', r) → sameConfig w w'.
Proof.
  unfold initFd. intros H.
  repeat (case_match; simplify_eq/=); by repeat split.
Qed.

Lemma startLogger_config σ w σ' w' r : startLogger σ w = (σ', w', r) → sameConfig w w'.
Proof.
  unfold startLogger. destruct (createLogFile σ w) as [σ1 [e|file]].
  - intros [= <- <- <-]. apply sameConfig_refl.
  - intros H. apply initFd_config in H. exact H.
Qed.

Lemma restartLogger_config σ w err σ' w' r :
  restartLogger σ w err = (σ', w', r) → sameConfig w w'.
Proof.
  unfold restartLogger. destruct (startLogger σ w) as [[σ1 w1] e1] eqn:E.
  apply startLogger_config in E. intros H.
  repeat (case_match; simplify_eq/=); done.
Qed.

Lemma rotateLoop_return n : ∀ σ w tf err num fName r,
  rotateLoop n σ w tf err num fName = LoopReturn r →
  ∃ σx, r = restartLogger σx w None.
Proof.
  induction n as [|n IH]; intros σ w tf err num fName r; simpl; [done|].
  intros H. repeat (case_match; simplify_eq/=); eauto.
Qed.

Lemma doRotate_config σ w logTime σ' w' r :
  doRotate σ w logTime = (σ', w', r) → sameConfig w w'.
Proof.
  unfold doRotate.
  destruct (Strconv.ParseOctal (RotatePerm w)) as [e|perm].
  { intros [= <- <- <-]. apply sameConfig_refl. }
  destruct (OS.Lstat _ (Filename w)); [apply restartLogger_config|].
  destruct (rotateLoop _ _ _ _ _ _ _) as [r0|σl err num fName] eqn:EL.
  { apply rotateLoop_return in EL as [σx ->]. apply restartLogger_config. }
  destruct (bool_decide (err = None) && _).
  { intros [= <- <- <-]. apply sameConfig_refl. }
  destruct (OS.Close σl (fileWriter w)) as [σ1 ?].
  destruct (OS.Rename _ (Filename w) fName) as [σ2 [e|]]; [apply restartLogger_config|].
  destruct (OS.Chmod σ2 fName perm) as [σ3 ?]. apply restartLogger_config.
Qed.

(** X7. [Init], once the configuration is decoded and names a file,
    splits the name at its extension whatever becomes of the file:
    [fileNameOnly] followed by the extension is the name again, [suffix]
    is the extension, or [.log] when the name has none, so it always
    begins with a dot; and every configured field of the receiver is as
    the decoder left it. *)
Theorem Init_splits_name σ w0 jsonConfig w σ' w' err :
  U jsonConfig w0 = (w, None) →
  Filename w ≠ EmptyString →
  Init U σ w0 jsonConfig = (σ', w', err) →
  Filename w' = Filename w ∧
  (fileNameOnly w' ++ Filepath.Ext (Filename w))%string = Filename w ∧
  suffix w' = (if String.eqb (Filepath.Ext (Filename w)) EmptyString
               then ".log"%string else Filepath.Ext (Filename w)) ∧
  String.prefix "." (suffix w') = true ∧
  MaxLines w' = MaxLines w ∧ MaxSize w' = MaxSize w ∧ MaxDays w' = MaxDays w ∧
  Daily w' = Daily w ∧ Hourly w' = Hourly w ∧ Rotate w' = Rotate w ∧
  Perm w' = Perm w ∧ RotatePerm w' = RotatePerm w.
Proof.
  intros HU Hname. unfold Init. rewrite HU.
  destruct (Z.eqb_spec (len (Filename w)) 0) as [H0|_].
  { destruct (Filename w); [done|]. unfold len in H0. simpl in H0. lia. }
  intros H. apply startLogger_config in H.
  unfold sameConfig in H. simpl in H. destruct_and!.
  destruct (Ext_suffix (Filename w)) as [[pre Hpre] Hdot].
  repeat match goal with H : _ w' = _ |- _ => rewrite H; clear H end.
  split; [done|]. split.
  { revert Hpre. generalize (Filepath.Ext (Filename w)). intros ext ->.
    by rewrite TrimSuffix_app. }
  split; [done|]. split; [|by repeat split].
  destruct (String.eqb_spec (Filepath.Ext (Filename w)) EmptyString) as [?|Hne];
    [done|by destruct Hdot].
Qed.

(** X8. The configured fields of the receiver are the same after any
    call of [WriteMsg] that returns, rotation or not, failed or not: the
    calls assign the handle, the two counters and the opening time
    only. *)
Theorem WriteMsg_keeps_config σ w when msg σ' w' err :
  WriteMsg R σ w when msg = Some (σ', w', err) → sameConfig w w'.
Proof.
  unfold WriteMsg. destruct (formatTimeHeader when) as [[[buf d] h]|]; [simpl|done].
  destruct (rotateIfDue σ w when (stripped R w msg) d h) as [σ1 w1] eqn:E1.
  intros [= H]. apply (sameConfig_trans _ w1).
  - unfold rotateIfDue in E1.
    destruct (Rotate w); [|simplify_eq; apply sameConfig_refl].
    destruct (needRotate w _ d h); [|simplify_eq; apply sameConfig_refl].
    destruct (doRotate _ w when) as [[σ2 w2] e2] eqn:E2.
    apply doRotate_config in E2. destruct e2; by simplify_eq.
  - unfold appendMsg in H.
    destruct (OS.Write σ1 (fileWriter w1) _) as [σ2 [n [e|]]]; simplify_eq;
      by repeat split.
Qed.

(** *** The registry, when [Init] fails *)

(** X9. A call of [newFileWriter] that returns nil registers nothing:
    the configuration was not in the registry, is not in it afterwards,
    [Init] returned an error, and the registry maps what it mapped
    before; so a later call with the same string runs [Init] again.
    When the configuration does not decode, or names no file, the call
    returns nil and leaves the disk and the open files as they were:
    nothing is created before the name is known. *)
Theorem newFileWriter_failure_not_registered p jsonConfig :
  (∀ p', newFileWriter U p jsonConfig = (p', None) →
         default ∅ (instance p) !! jsonConfig = None ∧
         instance p' = Some (default ∅ (instance p)) ∧
         (∃ w' e, Init U (eprint LogCreateNew (world p)) defaultWriter jsonConfig
                  = (world p', w', Some e)) ∧
         ∃ p'' r, newFileWriter U p' jsonConfig = (p'', r) ∧
                  world p'' = (Init U (eprint LogCreateNew (world p')) defaultWriter
                                 jsonConfig).1.1) ∧
  (default ∅ (instance p) !! jsonConfig = None →
   is_Some (U jsonConfig defaultWriter).2 ∨
     Filename (U jsonConfig defaultWriter).1 = EmptyString →
   ∃ p', newFileWriter U p jsonConfig = (p', None) ∧
         world p' = eprint LogCreateNew (world p) ∧
         instance p' = Some (default ∅ (instance p))).
Proof.
  unfold newFileWriter.
  change (match instance p with None => ∅ | Some m => m end)
    with (default ∅ (instance p)).
  set (inst := default ∅ (instance p)). split.
  - intros p'. destruct (inst !! jsonConfig) as [v|] eqn:Hreg; [done|].
    destruct (Init U (eprint LogCreateNew (world p)) defaultWriter jsonConfig)
      as [[σ1 w1] [e|]] eqn:EI; [|done].
    intros [= <-]. simpl. split; [done|]. split; [done|]. split; [by eauto|].
    fold inst. rewrite Hreg.
    destruct (Init U (eprint LogCreateNew σ1) defaultWriter jsonConfig)
      as [[σ2 w2] [e2|]]; by eauto.
  - intros Hreg Hbad. rewrite Hreg. unfold Init.
    destruct (U jsonConfig defaultWriter) as [w [e|]]; simpl in *; [by eauto|].
    destruct Hbad as [[? [=]]|Hname]. rewrite Hname. simpl. by eauto.
Qed.

(** *** Rotations that rename nothing *)

Lemma createLogFile_clock σ w σ' r :
  createLogFile σ w = (σ', r) → now σ' = now σ ∧ sweeps σ' = sweeps σ.
Proof.
  unfold createLogFile, OS.OpenFile, OS.Chmod, OS.newFile. intros H.
  repeat (case_match; simplify_eq/=); done.
Qed.

Lemma createLogFile_keeps σ w σ' r :
  createLogFile σ w = (σ', r) → is_Some (OS.resolve σ (Filename w)) →
  names σ' = names σ ∧ (∀ j, contents σ' j = contents σ j) ∧
  (∀ fd, is_Some (files σ !! fd) → files σ' !! fd = files σ !! fd).
Proof.
  unfold createLogFile. intros H [[ino i] Hres].
  destruct (Strconv.ParseOctal (Perm w)) as [e|perm]; [by simplify_eq|].
  unfold OS.OpenFile in H. rewrite Hres in H.
  destruct (i_dir i); [by simplify_eq|].
  destruct (negb (OS.ownerWrite i)); [by simplify_eq|].
  unfold OS.newFile, OS.Chmod in H. simpl in H.
  replace (OS.resolve (set_files _ σ) (Filename w)) with (Some (ino, i)) in H.
  simplify_eq/=. split; [done|]. split.
  - intros j. unfold contents. simpl. apply resolve_inv in Hres as [_ Hi].
    destruct (decide (j = ino)) as [->|Hj].
    + by rewrite lookup_insert_eq, Hi.
    + by rewrite lookup_insert_ne.
  - intros fd Hfd. rewrite lookup_insert_ne; [done|].
    intros <-. apply elem_of_dom in Hfd. by apply is_fresh in Hfd.
Qed.

Lemma startLogger_clock σ w σ' w' r :
  startLogger σ w = (σ', w', r) → now σ' = now σ ∧ sweeps σ' = sweeps σ.
Proof.
  unfold startLogger.
  destruct (createLogFile σ w) as [σ1 [e|file]] eqn:E1;
    apply createLogFile_clock in E1 as [Hn Hs]; [by intros [= <- _ _]|].
  intros H. apply initFd_frame in H as (_ & (_ & _ & Hn' & _ & _ & Hs') & _).
  rewrite Hn', Hs'. destruct (fileWriter w) as [fd|]; [|done].
  destruct (OS.Close σ1 (Some fd)) as [σ2 r2] eqn:E2.
  apply Close_frame in E2 as ((_ & _ & Hn2 & _ & _ & Hs2) & _). simpl.
  by rewrite Hn2, Hs2.
Qed.

Lemma startLogger_keeps σ w σ' w' r :
  startLogger σ w = (σ', w', r) → is_Some (OS.resolve σ (Filename w)) →
  names σ' = names σ ∧ (∀ j, contents σ' j = contents σ j).
Proof.
  unfold startLogger. intros H Hres.
  destruct (createLogFile σ w) as [σ1 [e|file]] eqn:E1.
  { apply createLogFile_fail in E1. by simplify_eq. }
  apply createLogFile_keeps in E1 as (Hn & Hc & _); [|done].
  apply initFd_frame in H as (_ & (Hn' & Hi' & _) & _).
  rewrite Hn'. unfold contents in *. rewrite Hi'.
  destruct (fileWriter w) as [fd|]; [|done].
  destruct (OS.Close σ1 (Some fd)) as [σ2 r2] eqn:E2.
  apply Close_frame in E2 as ((Hn2 & Hi2 & _) & _). simpl.
  rewrite Hn2, Hi2. done.
Qed.

Lemma restartLogger_sweeps σ w err :
  sweeps (restartLogger σ w err).1.1 = S (sweeps σ) ∧
  now (restartLogger σ w err).1.1 = now σ.
Proof.
  unfold restartLogger. destruct (startLogger σ w) as [[σ1 w1] e1] eqn:E.
  apply startLogger_clock in E as [Hn Hs].
  destruct e1, err; simpl; by rewrite Hn, Hs.
Qed.

Lemma Rename_clock σ old new σ' r :
  OS.Rename σ old new = (σ', r) → now σ' = now σ ∧ sweeps σ' = sweeps σ.
Proof.
  unfold OS.Rename. intros H. repeat (case_match; simplify_eq/=); done.
Qed.

Lemma rotateLoop_done n : ∀ σ w tf err num fName σl err' num' fName',
  rotateLoop n σ w tf err num fName = LoopDone σl err' num' fName' →
  inodes σl = inodes σ ∧ sweeps σl = sweeps σ ∧ now σl = now σ.
Proof.
  induction n as [|n IH]; intros σ w tf err num fName σl err' num' fName'; simpl.
  { by intros [= <- _ _ _]. }
  destruct (negb _); [by intros [= <- _ _ _]|].
  destruct (OS.Lstat σ (numName w tf num)) as [e|fi].
  - destruct (num =? 1).
    + destruct (OS.Lstat σ (withoutNumName w tf)) as [e'|fi'].
      * by intros [= <- _ _ _].
      * destruct (_ && _); [done|].
        destruct (OS.Rename σ _ _) as [σ1 r1] eqn:E.
        destruct (Rename_clock _ _ _ _ _ E) as [Hn Hs].
        apply Rename_frame in E as (_ & Hi & _).
        intros H. apply IH in H as (Hi' & Hs' & Hn'). rewrite Hi', Hs', Hn'.
        by destruct r1.
    + intros H. by apply IH in H.
  - intros H. by apply IH in H.
Qed.

Lemma Lstat_resolve σ path :
  (is_Some (OS.resolve σ path) ↔ ∃ fi, OS.Lstat σ path = inr fi) ∧
  (OS.resolve σ path = None ↔ ∃ e, OS.Lstat σ path = inl e).
Proof.
  unfold OS.Lstat. destruct (OS.resolve σ path) as [[ino i]|].
  - split; split; [by eauto|done|done|by intros [? ?]].
  - split; split; [by intros [? ?]|by intros [? ?]|by eauto|done].
Qed.

Lemma appendMsg_clock σ w msg σ' w' r :
  appendMsg σ w msg = (σ', w', r) → now σ' = now σ ∧ sweeps σ' = sweeps σ.
Proof.
  unfold appendMsg, OS.Write. intros H.
  repeat (case_match; simplify_eq/=); done.
Qed.

Lemma rotateLoop_step_taken n σ w tf num fName :
  num ≤ maxSuffixNum → is_Some (OS.resolve σ (numName w tf num)) →
  rotateLoop (S n) σ w tf None num fName =
    rotateLoop n (eprint (LogFileExist (numName w tf num)) σ) w tf None (num + 1)
      (numName w tf num).
Proof.
  intros Hnum Hres. apply Lstat_resolve in Hres as [fi Hfi]. simpl.
  destruct (Z.leb_spec num maxSuffixNum); [simpl|lia]. by rewrite Hfi.
Qed.

Lemma rotateLoop_taken w tf n : ∀ σ num fName,
  num + Z.of_nat n = maxSuffixNum + 1 →
  (∀ k, num ≤ k ≤ maxSuffixNum → is_Some (OS.resolve σ (numName w tf k))) →
  ∃ σl fName',
    rotateLoop (S n) σ w tf None num fName = LoopDone σl None (maxSuffixNum + 1) fName' ∧
    names σl = names σ ∧ inodes σl = inodes σ ∧ files σl = files σ ∧
    sweeps σl = sweeps σ ∧ rotations σl = rotations σ.
Proof.
  induction n as [|n IH]; intros σ num fName Hnum Hall.
  - assert (num = maxSuffixNum + 1) as -> by lia. by exists σ, fName.
  - rewrite rotateLoop_step_taken by (try apply Hall; lia).
    destruct (IH (eprint (LogFileExist (numName w tf num)) σ) (num + 1)
                (numName w tf num)) as (σl & f' & -> & Hn & Hi & Hf & Hs & Hr).
    { lia. }
    { intros k Hk. apply (Hall k). lia. }
    exists σl, f'. rewrite Hr, rotations_eprint. simpl.
    rewrite Nat.add_0_r. by repeat split.
Qed.

Lemma numbersTaken_all σ w k :
  numbersTaken σ w = true → 1 ≤ k ≤ maxSuffixNum →
  is_Some (OS.resolve σ (numName w (timeFormat w) k)).
Proof.
  unfold numbersTaken. rewrite forallb_forall. intros H Hk.
  eapply bool_decide_eq_true_1, (H k), list_elem_of_In, elem_of_seqZ. lia.
Qed.

Lemma doRotate_no_free_number σ w logTime perm :
  Strconv.ParseOctal (RotatePerm w) = inr perm →
  is_Some (OS.resolve σ (Filename w)) →
  numbersTaken σ w = true →
  ∃ σ', doRotate σ w logTime =
          (σ', w, Some (Errorf "rotate: Cannot find free log number to rename "
                          (Filename w))) ∧
        names σ' = names σ ∧ inodes σ' = inodes σ ∧ files σ' = files σ ∧
        sweeps σ' = sweeps σ ∧ rotations σ' = S (rotations σ).
Proof.
  intros HP Hres Htaken. unfold doRotate. rewrite HP.
  apply Lstat_resolve in Hres as [fi Hfi].
  change (OS.Lstat (eprint (LogDoRotate logTime) σ) (Filename w))
    with (OS.Lstat σ (Filename w)). rewrite Hfi.
  destruct (rotateLoop_taken w (timeFormat w) (Z.to_nat maxSuffixNum)
              (eprint (LogDoRotate logTime) σ) 1 EmptyString)
    as (σl & f' & -> & Hn & Hi & Hf & Hs & Hr).
  { rewrite Z2Nat.id; unfold maxSuffixNum; lia. }
  { intros k Hk. apply (numbersTaken_all σ w k Htaken). lia. }
  rewrite bool_decide_eq_true_2 by done.
  destruct (Z.ltb_spec maxSuffixNum (maxSuffixNum + 1)); [cbn [andb]|lia].
  exists σl. split; [done|]. rewrite Hr, rotations_eprint. simpl.
  rewrite Nat.add_1_r. by repeat split.
Qed.


Lemma rotateLoop_skip n σ w tf fName fi' :
  OS.resolve σ (numName w tf 1) = None →
  OS.Lstat σ (withoutNumName w tf) = inr fi' →
  MaxLines w = 0 → MaxSize w = 0 →
  rotateLoop (S n) σ w tf None 1 fName =
    LoopReturn (restartLogger (eprint (LogSkipRotate (withoutNumName w tf)) σ) w None).
Proof.
  intros Hres Hfi' HL HS. apply Lstat_resolve in Hres as [e He]. simpl.
  by rewrite He, Hfi', HL, HS.
Qed.

(** X11. When neither [MaxLines] nor [MaxSize] is set and the archive
    of the period the file was opened in is already there (and its
    [001] name is free), a rotation that is due archives nothing:
    [doRotate] is [restartLogger] after the two lines it prints, no name
    on disk changes, no file changes its contents, and one sweep is
    started.  The messages go on into the file that was active. *)
Theorem doRotate_skips_when_archive_exists σ w logTime perm fi' :
  Strconv.ParseOctal (RotatePerm w) = inr perm →
  is_Some (OS.resolve σ (Filename w)) →
  OS.resolve σ (numName w (timeFormat w) 1) = None →
  OS.Lstat σ (withoutNumName w (timeFormat w)) = inr fi' →
  MaxLines w = 0 → MaxSize w = 0 →
  doRotate σ w logTime =
    restartLogger (eprint (LogSkipRotate (withoutNumName w (timeFormat w)))
                     (eprint (LogDoRotate logTime) σ)) w None ∧
  names (doRotate σ w logTime).1.1 = names σ ∧
  (∀ j, contents (doRotate σ w logTime).1.1 j = contents σ j) ∧
  sweeps (doRotate σ w logTime).1.1 = S (sweeps σ) ∧
  ((doRotate σ w logTime).2 = None → knownHandle σ w = true →
   usable (doRotate σ w logTime).1.1 (fileWriter (doRotate σ w logTime).1.2) = true).
Proof.
  intros HP Hres H1 Hwo HL HS.
  assert (HD : doRotate σ w logTime =
                 restartLogger (eprint (LogSkipRotate (withoutNumName w (timeFormat w)))
                                  (eprint (LogDoRotate logTime) σ)) w None).
  { unfold doRotate. rewrite HP.
    destruct (proj1 (proj1 (Lstat_resolve σ (Filename w))) Hres) as [fi Hfi].
    change (OS.Lstat (eprint (LogDoRotate logTime) σ) (Filename w))
      with (OS.Lstat σ (Filename w)). rewrite Hfi.
    by rewrite (rotateLoop_skip _ _ _ _ _ fi'). }
  split; [done|]. rewrite HD. clear HD.
  set (σx := eprint _ (eprint _ σ)).
  pose proof (restartLogger_sweeps σx w None) as [Hsw _].
  unfold restartLogger in *.
  destruct (startLogger σx w) as [[σ1 w1] e1] eqn:E.
  destruct (startLogger_keeps _ _ _ _ _ E Hres) as [Hn Hc].
  assert (Hgoal : names (spawn σ1) = names σ ∧
                  (∀ j, contents (spawn σ1) j = contents σ j) ∧
                  sweeps (spawn σ1) = S (sweeps σ)).
  { split; [exact Hn|]. split; [exact Hc|]. by destruct e1. }
  destruct e1 as [e|]; simpl in *.
  - destruct Hgoal as (? & ? & ?). by repeat split.
  - destruct Hgoal as (? & ? & ?). repeat split; try done.
    intros _ Hk. rewrite <- (startLogger_ok _ _ _ _ E Hk).
    by apply usable_frame.
Qed.

Lemma Chmod_clock σ name mode σ' r :
  OS.Chmod σ name mode = (σ', r) → now σ' = now σ ∧ sweeps σ' = sweeps σ.
Proof.
  unfold OS.Chmod. intros H. repeat (case_match; simplify_eq/=); done.
Qed.

Lemma rotateLoop_return_clock n : ∀ σ w tf err num fName r,
  rotateLoop n σ w tf err num fName = LoopReturn r →
  ∃ σx, r = restartLogger σx w None ∧ sweeps σx = sweeps σ ∧ now σx = now σ.
Proof.
  induction n as [|n IH]; intros σ w tf err num fName r; simpl; [done|].
  destruct (negb _); [done|].
  destruct (OS.Lstat σ (numName w tf num)) as [e|fi].
  - destruct (num =? 1).
    + destruct (OS.Lstat σ (withoutNumName w tf)) as [e'|fi']; [done|].
      destruct (_ && _); [intros [= <-]; by eexists|].
      destruct (OS.Rename σ _ _) as [σ1 r1] eqn:E.
      apply Rename_clock in E as [Hn Hs].
      intros H. apply IH in H as (σx & -> & Hs' & Hn'). exists σx.
      split; [done|]. rewrite Hs', Hn'. by destruct r1.
    + intros H. by apply IH in H.
  - intros H. by apply IH in H.
Qed.

(** X12. [doRotate] starts the sweep of old logs once, whether the
    rename went through or not, and leaves the clock alone; the only
    runs that start none are those that end before anything is closed
    or renamed by the handle: [RotatePerm] is not an octal number, or no
    archive number is free.  In both the receiver is unchanged and an
    error is returned. *)
Theorem doRotate_starts_one_sweep σ w logTime σ' w' err :
  doRotate σ w logTime = (σ', w', err) →
  now σ' = now σ ∧
  (sweeps σ' = S (sweeps σ) ∨
   sweeps σ' = sweeps σ ∧ w' = w ∧ files σ' = files σ ∧ inodes σ' = inodes σ ∧
   (err = Some (Errorf "rotate: Cannot find free log number to rename " (Filename w)) ∨
    ∃ e, Strconv.ParseOctal (RotatePerm w) = inl e ∧ err = Some e)) ∧
  (err = None → sweeps σ' = S (sweeps σ)).
Proof.
  intros H.
  assert (HA : now σ' = now σ ∧
    (sweeps σ' = S (sweeps σ) ∨
     sweeps σ' = sweeps σ ∧ w' = w ∧ files σ' = files σ ∧ inodes σ' = inodes σ ∧
     (err = Some (Errorf "rotate: Cannot find free log number to rename " (Filename w)) ∨
      ∃ e, Strconv.ParseOctal (RotatePerm w) = inl e ∧ err = Some e))).
  2:{ destruct HA as [Hn HA]. split; [done|]. split; [done|]. intros ->.
      destruct HA as [?|(_ & _ & _ & _ & [?|(e & _ & ?)])]; done. }
  revert H. unfold doRotate.
  set (σ0 := eprint (LogDoRotate logTime) σ).
  assert (restart : ∀ σx e, sweeps σx = sweeps σ → now σx = now σ →
            restartLogger σx w e = (σ', w', err) →
            now σ' = now σ ∧ (sweeps σ' = S (sweeps σ) ∨
              sweeps σ' = sweeps σ ∧ w' = w ∧ files σ' = files σ ∧
              inodes σ' = inodes σ ∧
              (err = Some (Errorf "rotate: Cannot find free log number to rename "
                             (Filename w)) ∨
               ∃ e, Strconv.ParseOctal (RotatePerm w) = inl e ∧ err = Some e))).
  { intros σx e Hs Hn E. pose proof (restartLogger_sweeps σx w e) as [Hs' Hn'].
    rewrite E in Hs', Hn'. simpl in *. split; [congruence|left; congruence]. }
  destruct (Strconv.ParseOctal (RotatePerm w)) as [e|perm] eqn:HP.
  { intros [= <- <- <-]. split; [done|]. right. by eauto 10. }
  destruct (OS.Lstat σ0 (Filename w)) as [e|fi]; [by apply restart|].
  destruct (rotateLoop _ σ0 w _ None 1 EmptyString) as [r|σl e num fName] eqn:EL.
  { apply rotateLoop_return_clock in EL as (σx & -> & Hs & Hn). by apply restart. }
  destruct (rotateLoop_done _ _ _ _ _ _ _ _ _ _ _ EL) as (Hi & Hs & Hn).
  apply rotateLoop_files in EL.
  change (sweeps σ0) with (sweeps σ) in Hs. change (now σ0) with (now σ) in Hn.
  change (files σ0) with (files σ) in EL. change (inodes σ0) with (inodes σ) in Hi.
  destruct (bool_decide (e = None) && _).
  { intros [= <- <- <-]. split; [done|]. right. by eauto 10. }
  destruct (OS.Close σl (fileWriter w)) as [σc rc] eqn:Ec.
  apply Close_frame in Ec as ((_ & _ & Hnc & _ & _ & Hsc) & _).
  destruct (OS.Rename _ (Filename w) fName) as [σr rr] eqn:Er.
  apply Rename_clock in Er as [Hnr Hsr]. simpl in Hnr, Hsr.
  destruct rr as [e'|]; [apply restart; congruence|].
  destruct (OS.Chmod σr fName perm) as [σm rm] eqn:Em.
  apply Chmod_clock in Em as [Hnm Hsm]. apply restart; congruence.
Qed.

(** *** What every call preserves *)

Lemma keeps_refl σ : keeps σ σ.
Proof. intros ino i Hi. by exists i. Qed.

Lemma keeps_trans σ1 σ2 σ3 : keeps σ1 σ2 → keeps σ2 σ3 → keeps σ1 σ3.
Proof.
  intros H12 H23 ino i Hi.
  destruct (H12 _ _ Hi) as (i2 & Hi2 & ? & ? & ?).
  destruct (H23 _ _ Hi2) as (i3 & Hi3 & ? & ? & ?).
  exists i3. repeat split; congruence.
Qed.

Lemma keeps_inodes σ σ' : inodes σ' = inodes σ → keeps σ σ'.
Proof. intros H ino i Hi. exists i. by rewrite H. Qed.

Lemma sameDisk_keeps σ σ' : sameDisk σ σ' → keeps σ σ'.
Proof. intros (_ & Hi & _). by apply keeps_inodes. Qed.

Lemma Chmod_keeps σ name mode σ' r : OS.Chmod σ name mode = (σ', r) → keeps σ σ'.
Proof.
  unfold OS.Chmod. destruct (OS.resolve σ name) as [[ino i]|] eqn:Hres.
  - intros [= <- _] j ij Hj. simpl. apply resolve_inv in Hres as [_ Hi].
    destruct (decide (j = ino)) as [->|Hne].
    + rewrite lookup_insert_eq. eexists. split; [done|]. by simplify_eq.
    + rewrite lookup_insert_ne by done. by exists ij.
  - intros [= <- _]. apply keeps_refl.
Qed.

Lemma createLogFile_keeps_all σ w σ' r : createLogFile σ w = (σ', r) → keeps σ σ'.
Proof.
  unfold createLogFile.
  destruct (Strconv.ParseOctal (Perm w)) as [e|perm];
    [intros [= <- _]; apply keeps_refl|].
  destruct (OS.OpenFile σ (Filename w) perm) as [σ1 [e|fd]] eqn:E1.
  { intros [= <- _]. unfold OS.OpenFile in E1.
    repeat (case_match; simplify_eq/=); apply keeps_refl. }
  destruct (OS.Chmod σ1 (Filename w) perm) as [σ2 r2] eqn:E2.
  intros [= <- _]. apply (keeps_trans _ σ1); [|by eapply Chmod_keeps].
  unfold OS.OpenFile, OS.newFile in E1.
  repeat (case_match; simplify_eq/=); try (by apply keeps_inodes).
  intros j ij Hj. exists ij. simpl. rewrite lookup_insert_ne; [done|].
  intros <-. apply mk_is_Some, elem_of_dom in Hj. by apply is_fresh in Hj.
Qed.

(** [lines] leaves no file open. *)
Lemma Read_own σ fd n σ' r fl :
  OS.Read σ (Some fd) n = (σ', r) → files σ !! fd = Some fl →
  ∃ fl', files σ' !! fd = Some fl' ∧ f_ino fl' = f_ino fl ∧
         f_closed fl' = f_closed fl.
Proof.
  unfold OS.Read, OS.valid. intros H Hfl. rewrite Hfl in H.
  repeat (case_match; simplify_eq/=); try (by eexists).
  eexists. by rewrite lookup_insert_eq.
Qed.

Lemma linesLoop_own n : ∀ σ fd c σ' r fl,
  linesLoop n σ (Some fd) c = (σ', r) → files σ !! fd = Some fl →
  ∃ fl', files σ' !! fd = Some fl' ∧ f_ino fl' = f_ino fl ∧
         f_closed fl' = f_closed fl.
Proof.
  induction n as [|n IH]; intros σ fd c σ' r fl; simpl.
  { intros [= <- _] Hfl. by exists fl. }
  destruct (OS.Read σ (Some fd) readBuf) as [σ1 [buf err]] eqn:E.
  intros H Hfl. destruct (Read_own _ _ _ _ _ _ E Hfl) as (fl1 & Hfl1 & Hino & Hcl).
  destruct err as [e|].
  - destruct e; simplify_eq; by exists fl1.
  - destruct (IH _ _ _ _ _ _ H Hfl1) as (fl' & ? & ? & ?).
    exists fl'. repeat split; congruence.
Qed.

Lemma lines_closed σ w σ' r fd fl :
  lines σ w = (σ', r) → files σ' !! fd = Some fl → files σ !! fd = None →
  f_closed fl = true.
Proof.
  unfold lines, OS.Open.
  destruct (OS.resolve σ (Filename w)) as [[ino i]|] eqn:Hres;
    [|intros [= <- _]; congruence].
  destruct (negb (OS.ownerRead i)); [intros [= <- _]; congruence|].
  unfold OS.newFile. set (fd2 := fresh (dom (files σ))).
  set (σ1 := set_files _ σ).
  destruct (linesLoop _ σ1 (Some fd2) 0) as [σ2 res] eqn:E2.
  assert (H1 : files σ1 !! fd2 = Some (mkFile (Filename w) ino 0 false false))
    by apply lookup_insert_eq.
  destruct (linesLoop_own _ _ _ _ _ _ _ E2 H1) as (fl2 & Hfl2 & Hino & Hcl).
  apply linesLoop_frame in E2 as [(_ & Hi2 & _) Hother].
  apply resolve_inv in Hres as [_ Hi].
  unfold OS.Close, OS.valid. rewrite Hfl2, Hcl, Hi2, Hino. simpl. rewrite Hi.
  intros [= <- _]. simpl. intros Hfd Hnone.
  destruct (decide (fd = fd2)) as [->|Hne].
  - rewrite lookup_insert_eq in Hfd. by simplify_eq.
  - rewrite lookup_insert_ne in Hfd by done.
    rewrite Hother in Hfd by congruence. unfold σ1 in Hfd. simpl in Hfd.
    rewrite lookup_insert_ne in Hfd by done. congruence.
Qed.

Lemma initFd_post σ w fd fl i σ' w' r :
  fileWriter w = Some fd → files σ !! fd = Some fl → f_closed fl = false →
  inodes σ !! f_ino fl = Some i →
  initFd σ w = (σ', w', r) →
  fileWriter w' = Some fd ∧ maxSizeCurSize w' = Z.of_nat (length (i_data i)) ∧
  dailyOpenTime w' = i_mtime i ∧ DailyOpenDate w' = Time.Day (i_mtime i) ∧
  HourlyOpenDate w' = Time.Hour_ (i_mtime i) ∧
  sameDisk σ σ' ∧
  (∀ fd', is_Some (files σ !! fd') → files σ' !! fd' = files σ !! fd') ∧
  (∀ fd' fl', files σ' !! fd' = Some fl' → files σ !! fd' = None →
              f_closed fl' = true).
Proof.
  intros Hw Hfl Hcl Hi H.
  destruct (initFd_frame _ _ _ _ _ H) as (Hfw & Hsame & Hfiles).
  rewrite Hfw, Hw. split; [done|].
  assert (Hinfo : OS.Stat σ (fileWriter w) = inr (OS.info i)).
  { unfold OS.Stat. by rewrite Hw, (valid_open _ _ _ _ _ Hfl Hcl Hi). }
  assert (Hmeta : maxSizeCurSize w' = Z.of_nat (length (i_data i)) ∧
                  dailyOpenTime w' = i_mtime i ∧
                  DailyOpenDate w' = Time.Day (i_mtime i) ∧
                  HourlyOpenDate w' = Time.Hour_ (i_mtime i)).
  { revert H. unfold initFd. rewrite Hinfo. destruct (_ && _ && _).
    - destruct (lines σ _) as [σ1 [count err]].
      destruct err; intros [= _ <- _]; done.
    - intros [= _ <- _]. done. }
  destruct Hmeta as (? & ? & ? & ?).
  do 4 (split; [done|]). split; [done|]. split; [done|].
  revert H. unfold initFd. rewrite Hinfo. destruct (_ && _ && _).
  - destruct (lines σ _) as [σ1 [count err]] eqn:EL.
    intros H fd' fl' Hsome Hnone.
    assert (σ1 = σ') as -> by (destruct err; by simplify_eq).
    by eapply lines_closed.
  - intros [= <- _ _]. congruence.
Qed.

Lemma Close_own σ f σ' r fd fl' :
  OS.Close σ f = (σ', r) → files σ' !! fd = Some fl' →
  ∃ fl, files σ !! fd = Some fl ∧ f_ino fl' = f_ino fl ∧
        (f_closed fl = true → f_closed fl' = true).
Proof.
  unfold OS.Close, OS.valid. intros H Hfl.
  repeat (case_match; simplify_eq/=); try (by eexists).
  destruct (decide (fd = n)) as [->|Hne].
  - rewrite lookup_insert_eq in Hfl. simplify_eq. by eexists.
  - rewrite lookup_insert_ne in Hfl by done. by eexists.
Qed.

Lemma lines_live σ w σ' r : handlesLive σ → lines σ w = (σ', r) → handlesLive σ'.
Proof.
  intros Hlive. unfold lines, OS.Open.
  destruct (OS.resolve σ (Filename w)) as [[ino i]|] eqn:Hres;
    [|by intros [= <- _]].
  destruct (negb (OS.ownerRead i)); [by intros [= <- _]|].
  unfold OS.newFile. set (fd2 := fresh (dom (files σ))).
  set (σo := set_files _ σ).
  destruct (linesLoop _ σo (Some fd2) 0) as [σ2 res] eqn:E2.
  assert (Ho : files σo !! fd2 = Some (mkFile (Filename w) ino 0 false false))
    by apply lookup_insert_eq.
  destruct (linesLoop_own _ _ _ _ _ _ _ E2 Ho) as (fl2 & Hfl2 & Hino2 & _).
  apply linesLoop_frame in E2 as [(_ & Hi2 & _) Hoth2].
  destruct (OS.Close σ2 (Some fd2)) as [σ3 r3] eqn:E3.
  intros [= <- _] fd fl Hfl.
  destruct (Close_frame _ _ _ _ E3) as ((_ & Hi3 & _) & Hoth3 & _).
  rewrite Hi3, Hi2. change (inodes σo) with (inodes σ).
  apply resolve_inv in Hres as [_ Hi].
  destruct (decide (fd = fd2)) as [->|Hne].
  - destruct (Close_own _ _ _ _ _ _ E3 Hfl) as (fl0 & Hfl0 & -> & _).
    rewrite Hfl2 in Hfl0. simplify_eq. rewrite Hino2. simpl. by rewrite Hi.
  - rewrite Hoth3, Hoth2 in Hfl by congruence.
    unfold σo in Hfl. simpl in Hfl. rewrite lookup_insert_ne in Hfl by done.
    by eapply Hlive.
Qed.

Lemma initFd_live σ w σ' w' r :
  handlesLive σ → initFd σ w = (σ', w', r) → handlesLive σ'.
Proof.
  intros Hlive. unfold initFd.
  destruct (OS.Stat σ (fileWriter w)); [by intros [= <- _ _]|].
  destruct (_ && _ && _); [|by intros [= <- _ _]].
  destruct (lines σ _) as [σ1 [count err]] eqn:EL.
  apply lines_live in EL; [|done]. destruct err; by intros [= <- _ _].
Qed.

Lemma knownHandle_inv σ w fd :
  knownHandle σ w = true → fileWriter w = Some fd → is_Some (files σ !! fd).
Proof.
  unfold knownHandle. intros H Hw. rewrite Hw in H.
  by apply bool_decide_eq_true in H.
Qed.

(** [startLogger]: either the file could not be opened and nothing has
    changed, or the receiver has a new handle, open on the file the
    name now resolves to, the byte counter and the opening time are
    those of that file, the handle it had is closed, and every other
    descriptor the call opened is closed again. *)
Lemma startLogger_post σ w σ' w' r :
  knownHandle σ w = true → handlesLive σ →
  startLogger σ w = (σ', w', r) →
  keeps σ σ' ∧ handlesLive σ' ∧ knownHandle σ' w' = true ∧
  ((σ' = σ ∧ w' = w ∧ is_Some r) ∨
   ∃ fd fl i,
     fileWriter w' = Some fd ∧ files σ !! fd = None ∧
     files σ' !! fd = Some fl ∧ f_closed fl = false ∧ f_wr fl = true ∧
     names σ' !! Filename w = Some (f_ino fl) ∧
     inodes σ' !! f_ino fl = Some i ∧
     maxSizeCurSize w' = Z.of_nat (length (i_data i)) ∧
     dailyOpenTime w' = i_mtime i ∧
     (∀ fd' fl', fd' ≠ fd → files σ' !! fd' = Some fl' → f_closed fl' = false →
                 files σ !! fd' = Some fl' ∧ fileWriter w ≠ Some fd')).
Proof.
  intros Hk Hlive. unfold startLogger.
  destruct (createLogFile σ w) as [σ1 [e|file]] eqn:E1.
  { apply createLogFile_fail in E1 as ->. intros [= <- <- <-].
    split; [apply keeps_refl|]. split; [done|]. split; [done|]. left. by eauto. }
  pose proof (createLogFile_keeps_all _ _ _ _ E1) as Hkeep1.
  destruct (createLogFile_inv _ _ _ _ E1)
    as (perm & ino & _ & Hfresh & Hf1 & Hn1 & Hi1 & _).
  set (i1 := reopened σ (Filename w) perm) in Hi1.
  set (σc := match fileWriter w with Some _ => _ | None => σ1 end).
  assert (Hc : sameDisk σ1 σc ∧
               files σc !! file = Some (mkFile (Filename w) ino 0 true false) ∧
               (∀ fd fl, fd ≠ file → files σc !! fd = Some fl →
                  ∃ fl0, files σ !! fd = Some fl0 ∧ f_ino fl = f_ino fl0 ∧
                    (f_closed fl = false → fl = fl0 ∧ fileWriter w ≠ Some fd))).
  { unfold σc. destruct (fileWriter w) as [fdo|] eqn:Hfw.
    - destruct (knownHandle_inv _ _ _ Hk Hfw) as [flo Hflo].
      assert (Hne : fdo ≠ file) by congruence.
      destruct (OS.Close σ1 (Some fdo)) as [σx rx] eqn:E. simpl.
      destruct (Close_frame _ _ _ _ E) as (Hsame & Hoth & _).
      split; [done|]. split.
      { rewrite Hoth by congruence. by rewrite Hf1, lookup_insert_eq. }
      intros fd fl Hfd Hfl. destruct (decide (fd = fdo)) as [->|Hfdo].
      + exists flo. split; [done|].
        assert (H1 : files σ1 !! fdo = Some flo)
          by (by rewrite Hf1, lookup_insert_ne).
        destruct (Hlive _ _ Hflo) as [io Hio].
        destruct (Hkeep1 _ _ Hio) as (io' & Hio' & _).
        revert E. unfold OS.Close, OS.valid. rewrite H1.
        destruct (f_closed flo) eqn:Hclo.
        * intros [= <- _]. rewrite H1 in Hfl. simplify_eq. split; [done|].
          congruence.
        * rewrite Hio'. intros [= <- _]. simpl in Hfl.
          rewrite lookup_insert_eq in Hfl. simplify_eq. by split.
      + rewrite Hoth in Hfl by congruence.
        rewrite Hf1, lookup_insert_ne in Hfl by done.
        exists fl. split; [done|]. split; [done|]. intros _. split; [done|].
        congruence.
    - split; [apply sameDisk_refl|]. split; [by rewrite Hf1, lookup_insert_eq|].
      intros fd fl Hfd Hfl. rewrite Hf1, lookup_insert_ne in Hfl by done.
      exists fl. by repeat split. }
  destruct Hc as (Hsame & Hfile & Hold). clearbody σc.
  intros H.
  assert (Hic : inodes σc !! ino = Some i1).
  { destruct Hsame as (_ & -> & _). done. }
  destruct (initFd_post σc (with_fileWriter (Some file) w) file _ i1 _ _ _
              eq_refl Hfile eq_refl Hic H)
    as (Hfw' & Hsz & Hot & _ & _ & Hsame' & Hex & Hnew).
  assert (Hin' : inodes σ' = inodes σ1).
  { destruct Hsame' as (_ & -> & _). by destruct Hsame as (_ & -> & _). }
  assert (Hnm' : names σ' = names σ1).
  { destruct Hsame' as (-> & _). by destruct Hsame as (-> & _). }
  assert (Hkeep : keeps σ σ').
  { apply (keeps_trans _ σ1); [done|by apply keeps_inodes]. }
  assert (Hfile' : files σ' !! file = Some (mkFile (Filename w) ino 0 true false)).
  { rewrite Hex; [done|by rewrite Hfile]. }
  split; [done|]. split.
  { apply (initFd_live _ _ _ _ _) in H; [done|].
    intros fd fl Hfl. destruct Hsame as (_ & -> & _).
    destruct (decide (fd = file)) as [->|Hne].
    - rewrite Hfile in Hfl. simplify_eq. simpl. by rewrite Hi1.
    - destruct (Hold _ _ Hne Hfl) as (fl0 & Hfl0 & -> & _).
      destruct (Hlive _ _ Hfl0) as [i0 Hi0].
      destruct (Hkeep1 _ _ Hi0) as (i0' & -> & _). done. }
  split.
  { unfold knownHandle. rewrite Hfw'. simpl. apply bool_decide_eq_true.
    by rewrite Hfile'. }
  right. exists file, (mkFile (Filename w) ino 0 true false), i1.
  split; [done|]. split; [done|]. split; [done|]. split; [done|]. split; [done|].
  split. { simpl. rewrite Hnm', Hn1. apply lookup_insert_eq. }
  split. { simpl. by rewrite Hin'. }
  split; [done|]. split; [done|].
  intros fd' fl' Hne Hfl' Hcl'.
  destruct (files σc !! fd') as [flc|] eqn:Hflc.
  - rewrite Hex in Hfl' by (by rewrite Hflc). rewrite Hflc in Hfl'. simplify_eq.
    destruct (Hold _ _ Hne Hflc) as (fl0 & Hfl0 & _ & Hopen).
    destruct (Hopen Hcl') as [-> ?]. done.
  - rewrite (Hnew _ _ Hfl' Hflc) in Hcl'. done.
Qed.

Lemma rotateLoop_return_frame n : ∀ σ w tf err num fName r,
  rotateLoop n σ w tf err num fName = LoopReturn r →
  ∃ σx, r = restartLogger σx w None ∧ files σx = files σ ∧ inodes σx = inodes σ.
Proof.
  induction n as [|n IH]; intros σ w tf err num fName r; simpl; [done|].
  destruct (negb _); [done|].
  destruct (OS.Lstat σ (numName w tf num)) as [e|fi].
  - destruct (num =? 1).
    + destruct (OS.Lstat σ (withoutNumName w tf)) as [e'|fi']; [done|].
      destruct (_ && _); [intros [= <-]; by eexists|].
      destruct (OS.Rename σ _ _) as [σ1 r1] eqn:E.
      apply Rename_frame in E as (Hf & Hi & _).
      intros H. apply IH in H as (σx & -> & Hf' & Hi'). exists σx.
      split; [done|]. rewrite Hf', Hi'. by destruct r1.
    + intros H. by apply IH in H.
  - intros H. by apply IH in H.
Qed.

Lemma preRestart_same w σ σm :
  files σm = files σ → inodes σm = inodes σ → preRestart w σ σm.
Proof.
  intros Hf Hi. split; [by apply keeps_inodes|]. intros fd. left. by rewrite Hf.
Qed.

Lemma preRestart_Close w σ σ0 σc rc :
  files σ0 = files σ → inodes σ0 = inodes σ →
  OS.Close σ0 (fileWriter w) = (σc, rc) →
  preRestart w σ σc ∧ inodes σc = inodes σ.
Proof.
  intros Hf Hi E.
  destruct (Close_frame _ _ _ _ E) as ((_ & Hic & _) & Hoth & _).
  split; [|congruence]. split; [apply keeps_inodes; congruence|].
  intros fd. destruct (decide (fileWriter w = Some fd)) as [Hw|Hw].
  - revert E. unfold OS.Close, OS.valid. rewrite Hw.
    destruct (files σ0 !! fd) as [fl|] eqn:Hfl; [|intros [= <- _]; left; congruence].
    destruct (f_closed fl); [intros [= <- _]; left; congruence|].
    destruct (inodes σ0 !! f_ino fl); [|intros [= <- _]; left; congruence].
    intros [= <- _]. right. split; [done|]. exists fl. split; [congruence|].
    simpl. by rewrite lookup_insert_eq.
  - left. rewrite Hoth by done. by rewrite Hf.
Qed.

Lemma preRestart_step w σ σ1 σ2 :
  preRestart w σ σ1 → files σ2 = files σ1 → keeps σ1 σ2 → preRestart w σ σ2.
Proof.
  intros [Hk Hf] Hf2 Hk2. split; [by eapply keeps_trans|].
  intros fd. rewrite Hf2. apply Hf.
Qed.

(** The two ways [doRotate] ends: before anything is closed, with an
    error and the receiver as it was; or in [restartLogger]. *)
Lemma doRotate_shape σ w logTime σ' w' r :
  doRotate σ w logTime = (σ', w', r) →
  (w' = w ∧ is_Some r ∧ files σ' = files σ ∧ inodes σ' = inodes σ) ∨
  (∃ σm e, preRestart w σ σm ∧ restartLogger σm w e = (σ', w', r)).
Proof.
  unfold doRotate. set (σ0 := eprint (LogDoRotate logTime) σ).
  destruct (Strconv.ParseOctal (RotatePerm w)) as [e|perm].
  { intros [= <- <- <-]. left. by eauto. }
  destruct (OS.Lstat σ0 (Filename w)) as [e|fi].
  { intros H. right. exists σ0, (Some e). split; [by apply preRestart_same|done]. }
  destruct (rotateLoop _ σ0 w _ None 1 EmptyString) as [r0|σl e num fName] eqn:EL.
  { apply rotateLoop_return_frame in EL as (σx & -> & Hf & Hi).
    intros H. right. exists σx, None. split; [by apply preRestart_same|done]. }
  destruct (rotateLoop_done _ _ _ _ _ _ _ _ _ _ _ EL) as (Hi & _).
  apply rotateLoop_files in EL.
  change (files σ0) with (files σ) in EL. change (inodes σ0) with (inodes σ) in Hi.
  destruct (bool_decide (e = None) && _).
  { intros [= <- <- <-]. left. by eauto. }
  destruct (OS.Close σl (fileWriter w)) as [σc rc] eqn:Ec.
  destruct (preRestart_Close w σ σl σc rc EL Hi Ec) as [Hpre Hic].
  destruct (OS.Rename _ (Filename w) fName) as [σr rr] eqn:Er.
  apply Rename_frame in Er as (Hfr & Hir & _). simpl in Hfr, Hir.
  assert (Hpre_r : preRestart w σ σr).
  { apply (preRestart_step _ _ σc); [done|done|by apply keeps_inodes]. }
  destruct rr as [e'|].
  { intros H. right. by exists σr, (Some e'). }
  destruct (OS.Chmod σr fName perm) as [σm rm] eqn:Em.
  intros H. right. exists σm, rm. split; [|done].
  apply (preRestart_step _ _ σr); [done| |by eapply Chmod_keeps].
  by apply Chmod_frame in Em as [_ ?].
Qed.

Lemma preRestart_inv w σ σm :
  preRestart w σ σm → knownHandle σ w = true → handlesLive σ →
  knownHandle σm w = true ∧ handlesLive σm ∧
  (onlyHandle σ w → onlyHandle σm w) ∧ (sized σ w = true → sized σm w = true).
Proof.
  intros [Hk Hf] Hkn Hlive. split; [|split; [|split]].
  - unfold knownHandle in *. destruct (fileWriter w) as [fd|]; [|done].
    apply bool_decide_eq_true in Hkn as [fl Hfl]. apply bool_decide_eq_true.
    destruct (Hf fd) as [->|(_ & fl0 & _ & ->)]; by eauto.
  - intros fd fl Hfl.
    assert (∃ fl0, files σ !! fd = Some fl0 ∧ f_ino fl = f_ino fl0)
      as (fl0 & Hfl0 & ->).
    { destruct (Hf fd) as [Heq|(_ & fl0 & Hfl0 & Heq)].
      - exists fl. by rewrite <- Heq.
      - exists fl0. rewrite Heq in Hfl. by simplify_eq. }
    destruct (Hlive _ _ Hfl0) as [i Hi].
    destruct (Hk _ _ Hi) as (i' & -> & _). done.
  - intros Honly fd fl Hfl Hcl.
    destruct (Hf fd) as [Heq|(Hw & _)]; [|done].
    rewrite Heq in Hfl. by eapply Honly.
  - unfold sized, OS.Stat, OS.valid. destruct (fileWriter w) as [fd|]; [|done].
    destruct (Hf fd) as [->|(_ & fl0 & _ & ->)]; [|done].
    destruct (files σ !! fd) as [fl|] eqn:Hfl; [|done].
    destruct (f_closed fl); [done|].
    destruct (Hlive _ _ Hfl) as [i Hi]. rewrite Hi.
    destruct (Hk _ _ Hi) as (i' & -> & _ & Hd & _).
    unfold OS.info. simpl. by rewrite Hd.
Qed.

Lemma startLogger_inv σ w σ' w' r :
  knownHandle σ w = true → handlesLive σ →
  startLogger σ w = (σ', w', r) →
  keeps σ σ' ∧ knownHandle σ' w' = true ∧ handlesLive σ' ∧
  (onlyHandle σ w → onlyHandle σ' w') ∧ (sized σ w = true → sized σ' w' = true).
Proof.
  intros Hkn Hlive H.
  destruct (startLogger_post _ _ _ _ _ Hkn Hlive H)
    as (Hk & Hlive' & Hkn' & [(-> & -> & _)|Hnew]).
  { by repeat split. }
  destruct Hnew as (fd & fl & i & Hw' & Hfresh & Hfl & Hcl & _ & _ & Hi & Hsz & _ & Hoth).
  split; [done|]. split; [done|]. split; [done|]. split.
  - intros Honly fd' fl' Hfl' Hcl'. rewrite Hw'.
    destruct (decide (fd' = fd)) as [->|Hne]; [done|].
    destruct (Hoth _ _ Hne Hfl' Hcl') as [Hold Hnw].
    by rewrite (Honly _ _ Hold Hcl') in Hnw.
  - intros _. unfold sized, OS.Stat.
    rewrite Hw', (valid_open _ _ _ _ _ Hfl Hcl Hi), Hsz. apply Z.eqb_refl.
Qed.

Lemma doRotate_inv σ w logTime σ' w' r :
  knownHandle σ w = true → handlesLive σ →
  doRotate σ w logTime = (σ', w', r) →
  keeps σ σ' ∧ knownHandle σ' w' = true ∧ handlesLive σ' ∧
  (onlyHandle σ w → onlyHandle σ' w') ∧ (sized σ w = true → sized σ' w' = true).
Proof.
  intros Hkn Hlive H.
  destruct (doRotate_shape _ _ _ _ _ _ H) as [(-> & _ & Hf & Hi)|(σm & e & Hpre & HR)].
  { destruct (preRestart_inv w σ σ' (preRestart_same _ _ _ Hf Hi) Hkn Hlive)
      as (? & ? & ? & ?).
    split; [by apply keeps_inodes|done]. }
  destruct (preRestart_inv _ _ _ Hpre Hkn Hlive) as (Hkn1 & Hlive1 & Honly1 & Hsz1).
  unfold restartLogger in HR.
  destruct (startLogger σm w) as [[σ1 w1] e1] eqn:ES.
  destruct (startLogger_inv _ _ _ _ _ Hkn1 Hlive1 ES) as (Hk2 & Hkn2 & Hlive2 & Honly2 & Hsz2).
  assert (σ' = spawn σ1 ∧ w' = w1) as [-> ->] by (destruct e1, e; by simplify_eq).
  split; [apply (keeps_trans _ σm); [apply Hpre|apply Hk2]|].
  split; [done|]. split; [done|]. split; [by auto|by auto].
Qed.

(** *** A writer in its world *)

Lemma valid_op σ op op' f x :
  OS.valid σ op f = inr x → OS.valid σ op' f = inr x.
Proof.
  unfold OS.valid. intros H. repeat (case_match; simplify_eq/=); done.
Qed.

Lemma bytes_length (s : string) : length (bytes s) = String.length s.
Proof. unfold bytes. induction s as [|c s IH]; simpl; [done|by rewrite IH]. Qed.

Lemma appendMsg_inv σ w msg σ' w' err :
  appendMsg σ w msg = (σ', w', err) →
  files σ' = files σ ∧ fileWriter w' = fileWriter w ∧ names σ' = names σ ∧
  (∀ ino i, inodes σ !! ino = Some i →
     ∃ i', inodes σ' !! ino = Some i' ∧ i_dir i' = i_dir i ∧
           (i_data i' = i_data i ∨ (err = None ∧ i_data i' = i_data i ++ bytes msg))) ∧
  (sized σ w = true → fitsInt64 σ' → sized σ' w' = true).
Proof.
  unfold appendMsg, OS.Write.
  destruct (OS.valid σ "write" (fileWriter w)) as [e|[[fd fl] i]] eqn:Hv.
  { intros [= <- <- <-]. repeat split; try done. intros ino i Hi. by eauto. }
  destruct (negb (f_wr fl)).
  { intros [= <- <- <-]. repeat split; try done. intros ino i0 Hi. by eauto. }
  pose proof (valid_op _ _ "stat" _ _ Hv) as Hstat.
  assert (Hfd : fileWriter w = Some fd ∧ files σ !! fd = Some fl ∧
                f_closed fl = false ∧ inodes σ !! f_ino fl = Some i).
  { revert Hv. unfold OS.valid. intros Hv.
    repeat (case_match; simplify_eq/=). done. }
  destruct Hfd as (Hw & Hfl & Hcl & Hi).
  destruct (bytes msg) as [|c b] eqn:Hb.
  - intros [= <- <- <-]. repeat split; try done.
    { intros ino i0 Hi0. by eauto. }
    unfold sized, OS.Stat. simpl. rewrite Hstat. intros Hsz Hfit.
    apply Z.eqb_eq in Hsz. apply Z.eqb_eq. simpl in *.
    assert (len msg = 0) as ->.
    { unfold len. by rewrite <- bytes_length, Hb. }
    rewrite Z.add_0_r, Hsz. apply wrap64_id.
    pose proof (Hfit _ _ Hi). unfold inInt64, minInt64. simpl in *. lia.
  - intros [= <- <- <-]. simpl. repeat split; try done.
    { intros ino i0 Hi0. destruct (decide (ino = f_ino fl)) as [->|Hne].
      - rewrite lookup_insert_eq. eexists. split; [done|]. simpl.
        assert (i0 = i) as -> by congruence. split; [done|]. by right.
      - rewrite lookup_insert_ne by done. by eauto. }
    unfold sized, OS.Stat. simpl. rewrite Hstat. intros Hsz Hfit.
    apply Z.eqb_eq in Hsz. simpl in Hsz.
    set (i' := mkInode _ _ _ _).
    assert (Hi' : inodes (set_inodes (insert (f_ino fl) i') σ) !! f_ino fl = Some i')
      by apply lookup_insert_eq.
    rewrite Hw, (valid_open (set_inodes (insert (f_ino fl) i') σ) "stat" fd fl i'
                   Hfl Hcl Hi'). simpl.
    apply Z.eqb_eq. rewrite Hsz.
    pose proof (Hfit _ _ Hi') as Hle. simpl in Hle.
    assert (Hlen : len msg = Z.of_nat (length (c :: b))).
    { unfold len. by rewrite <- bytes_length, Hb. }
    rewrite length_app in *. rewrite Hlen.
    rewrite wrap64_id; [lia|]. unfold inInt64, minInt64. lia.
Qed.

Lemma rotateIfDue_inv σ w when msg d h σ1 w1 :
  rotateIfDue σ w when msg d h = (σ1, w1) →
  knownHandle σ w = true → handlesLive σ →
  keeps σ σ1 ∧ knownHandle σ1 w1 = true ∧ handlesLive σ1 ∧
  (onlyHandle σ w → onlyHandle σ1 w1) ∧ (sized σ w = true → sized σ1 w1 = true).
Proof.
  unfold rotateIfDue. intros H Hkn Hlive.
  assert (Hsame : (σ1, w1) = (σ, w) →
    keeps σ σ1 ∧ knownHandle σ1 w1 = true ∧ handlesLive σ1 ∧
    (onlyHandle σ w → onlyHandle σ1 w1) ∧ (sized σ w = true → sized σ1 w1 = true)).
  { intros [= -> ->]. split; [apply keeps_refl|done]. }
  destruct (Rotate w); [|by apply Hsame].
  destruct (needRotate w (len msg) d h); [|by apply Hsame].
  destruct (doRotate (eprint (LogWriteMsg d h) σ) w when) as [[σ2 w2] e2] eqn:ED.
  apply doRotate_inv in ED; [|done..].
  destruct e2; simplify_eq; exact ED.
Qed.

(** X13. A writer holds one descriptor.  [tidy]: every handle of the
    process is on a file that exists, and no file is open but the one
    behind the handle of the writer.  [Init] keeps it, every call of
    [WriteMsg] keeps it, rotation or not and whatever fails: the handle
    the receiver had is closed when it gets another, and the
    descriptor [lines] opens to count is closed again.  After [Destroy]
    no file is open at all. *)
Theorem writer_holds_one_descriptor :
  (∀ σ w0 jsonConfig σ' w' err,
     tidy σ (U jsonConfig w0).1 →
     Init U σ w0 jsonConfig = (σ', w', err) → tidy σ' w') ∧
  (∀ σ w when msg σ' w' err,
     tidy σ w →
     WriteMsg R σ w when msg = Some (σ', w', err) → tidy σ' w') ∧
  (∀ σ w, tidy σ w →
     tidy (Destroy σ w) w ∧
     map_Forall (λ _ fl, f_closed fl = true) (files (Destroy σ w))).
Proof.
  split; [|split].
  - intros σ w0 cfg σ' w' err (Hkn & Hlive & Honly). unfold Init.
    destruct (U cfg w0) as [w [e|]]; simpl in *; [by intros [= <- <- _]|].
    destruct (len (Filename w) =? 0); [by intros [= <- <- _]|].
    intros H. apply startLogger_inv in H; [|done..].
    destruct H as (_ & ? & ? & H & _). split; [done|]. split; [done|].
    by apply H.
  - intros σ w when msg σ' w' err (Hkn & Hlive & Honly). unfold WriteMsg.
    destruct (formatTimeHeader when) as [[[buf d] h]|]; [simpl|done].
    destruct (rotateIfDue σ w when (stripped R w msg) d h) as [σ1 w1] eqn:E1.
    destruct (rotateIfDue_inv _ _ _ _ _ _ _ _ E1 Hkn Hlive)
      as (_ & Hkn1 & Hlive1 & Honly1 & _).
    intros [= H]. destruct (appendMsg_inv _ _ _ _ _ _ H) as (Hf & Hw & _ & Hi & _).
    split; [|split].
    + unfold knownHandle in *. by rewrite Hw, Hf.
    + intros fd fl Hfl. rewrite Hf in Hfl.
      destruct (Hlive1 _ _ Hfl) as [i Hi1].
      destruct (Hi _ _ Hi1) as (i' & -> & _). done.
    + intros fd fl Hfl Hcl. rewrite Hf in Hfl. rewrite Hw.
      by apply (Honly1 Honly fd fl).
  - intros σ w (Hkn & Hlive & Honly). unfold Destroy.
    destruct (OS.Close σ (fileWriter w)) as [σc rc] eqn:Ec. simpl.
    destruct (preRestart_Close w σ σ σc rc eq_refl eq_refl Ec) as [Hpre _].
    destruct (preRestart_inv _ _ _ Hpre Hkn Hlive) as (? & ? & H & _).
    split; [split; [done|split; [done|by apply H]]|].
    intros fd fl Hfl. destruct (f_closed fl) eqn:Hcl; [done|].
    destruct Hpre as [_ Hf].
    destruct (Hf fd) as [Heq|(_ & fl0 & _ & Heq)].
    + rewrite Heq in Hfl. pose proof (Honly _ _ Hfl Hcl) as Hw.
      destruct (Hlive _ _ Hfl) as [i Hi].
      revert Ec. unfold OS.Close. rewrite Hw, (valid_open _ _ _ _ _ Hfl Hcl Hi).
      intros [= <- _]. simpl in Heq. rewrite lookup_insert_eq in Heq.
      rewrite Hfl in Heq. injection Heq as Heq. rewrite <- Heq in Hcl. done.
    + rewrite Heq in Hfl. by simplify_eq.
Qed.

(** X14. The byte counter is the size of the file.  [sized]:
    [maxSizeCurSize] is the size [Stat] reports for the handle.  [Init]
    establishes it whenever it opens the file ([initFd] reads the size),
    and every call of [WriteMsg] keeps it, rotation or not, as long as
    the files stay within the sizes an [int64] can tell: the counter
    grows by the bytes written and by nothing else. *)
Theorem maxSizeCurSize_is_file_size :
  (∀ σ w0 jsonConfig σ' w' err,
     knownHandle σ (U jsonConfig w0).1 = true → handlesLive σ →
     sized σ (U jsonConfig w0).1 = true →
     Init U σ w0 jsonConfig = (σ', w', err) → sized σ' w' = true) ∧
  (∀ σ w when msg σ' w' err,
     knownHandle σ w = true → handlesLive σ → sized σ w = true →
     WriteMsg R σ w when msg = Some (σ', w', err) →
     fitsInt64 σ' → sized σ' w' = true).
Proof.
  split.
  - intros σ w0 cfg σ' w' err. unfold Init.
    destruct (U cfg w0) as [w [e|]]; simpl; [by intros ? ? ? [= <- <- _]|].
    destruct (len (Filename w) =? 0); [by intros ? ? ? [= <- <- _]|].
    intros Hkn Hlive Hsz H. apply startLogger_inv in H; [|done..].
    destruct H as (_ & _ & _ & _ & H). by apply H.
  - intros σ w when msg σ' w' err Hkn Hlive Hsz. unfold WriteMsg.
    destruct (formatTimeHeader when) as [[[buf d] h]|]; [simpl|done].
    destruct (rotateIfDue σ w when (stripped R w msg) d h) as [σ1 w1] eqn:E1.
    destruct (rotateIfDue_inv _ _ _ _ _ _ _ _ E1 Hkn Hlive) as (_ & _ & _ & _ & Hsz1).
    intros [= H]. destruct (appendMsg_inv _ _ _ _ _ _ H) as (_ & _ & _ & _ & Hs).
    by auto.
Qed.

Lemma startLogger_keeps_all σ w σ' w' r : startLogger σ w = (σ', w', r) → keeps σ σ'.
Proof.
  unfold startLogger.
  destruct (createLogFile σ w) as [σ1 [e|file]] eqn:E1;
    apply createLogFile_keeps_all in E1; [by intros [= <- _ _]|].
  intros H. apply initFd_frame in H as (_ & Hsame & _).
  apply (keeps_trans _ σ1); [done|]. apply sameDisk_keeps.
  destruct (fileWriter w) as [fd|]; [|done].
  destruct (OS.Close σ1 (Some fd)) as [σ2 r2] eqn:E2.
  apply Close_frame in E2 as (Hc & _). by apply (sameDisk_trans _ σ2).
Qed.

Lemma doRotate_keeps σ w logTime σ' w' r :
  doRotate σ w logTime = (σ', w', r) → keeps σ σ'.
Proof.
  intros H.
  destruct (doRotate_shape _ _ _ _ _ _ H) as [(_ & _ & _ & Hi)|(σm & e & [Hk _] & HR)].
  { by apply keeps_inodes. }
  unfold restartLogger in HR.
  destruct (startLogger σm w) as [[σ1 w1] e1] eqn:ES.
  apply startLogger_keeps_all in ES.
  assert (σ' = spawn σ1) as -> by (destruct e1, e; by simplify_eq).
  by apply (keeps_trans _ σm).
Qed.

(** X15. The writer only ever appends.  A rotation changes names and
    modes, never the contents or the modification time of a file; and
    over a whole call of [WriteMsg] every file that was there is still
    there afterwards, with the contents it had or, when the call
    returned nil, with these followed by the bytes of the message as
    written.  Nothing is truncated or overwritten. *)
Theorem WriteMsg_only_appends σ w :
  (∀ logTime σ' w' r, doRotate σ w logTime = (σ', w', r) → keeps σ σ') ∧
  (∀ when msg σ' w' err,
     WriteMsg R σ w when msg = Some (σ', w', err) →
     ∀ ino i, inodes σ !! ino = Some i →
       ∃ i', inodes σ' !! ino = Some i' ∧ i_dir i' = i_dir i ∧
             (i_data i' = i_data i ∨
              (err = None ∧ i_data i' = i_data i ++ bytes (stripped R w msg)))).
Proof.
  split; [intros logTime σ' w' r; apply doRotate_keeps|].
  intros when msg σ' w' err. unfold WriteMsg.
  destruct (formatTimeHeader when) as [[[buf d] h]|]; [simpl|done].
  destruct (rotateIfDue σ w when (stripped R w msg) d h) as [σ1 w1] eqn:E1.
  assert (Hk : keeps σ σ1).
  { revert E1. unfold rotateIfDue.
    destruct (Rotate w); [|intros [= <- _]; apply keeps_refl].
    destruct (needRotate w _ d h); [|intros [= <- _]; apply keeps_refl].
    destruct (doRotate _ w when) as [[σ2 w2] e2] eqn:ED.
    apply doRotate_keeps in ED. destruct e2; intros [= <- _]; exact ED. }
  intros [= H] ino i Hi.
  destruct (appendMsg_inv _ _ _ _ _ _ H) as (_ & _ & _ & Ha & _).
  destruct (Hk _ _ Hi) as (i1 & Hi1 & Hd1 & Hdata1 & _).
  destruct (Ha _ _ Hi1) as (i' & Hi' & Hd' & Hdata').
  exists i'. split; [done|]. split; [congruence|]. rewrite <- Hdata1. exact Hdata'.
Qed.

(** *** A rotation from end to end *)

Lemma writableDir_resolve σ d :
  OS.writableDir σ d = None →
  ∃ dn di, OS.resolve σ d = Some (dn, di) ∧ i_dir di = true ∧ OS.ownerWrite di = true.
Proof.
  unfold OS.writableDir. destruct (OS.resolve σ d) as [[dn di]|]; [|done].
  destruct (i_dir di) eqn:Hd; [|done]. destruct (OS.ownerWrite di) eqn:Hw; [|done].
  intros _. by eauto.
Qed.

Lemma createLogFile_fresh σ w perm :
  Strconv.ParseOctal (Perm w) = inr perm →
  OS.resolve σ (Filename w) = None →
  OS.writableDir σ (Filepath.Dir (Filename w)) = None →
  ∃ σ',
    createLogFile σ w = (σ', inr (fresh (dom (files σ)))) ∧
    names σ' = <[Filename w := fresh (dom (inodes σ))]> (names σ) ∧
    inodes σ' = <[fresh (dom (inodes σ)) :=
                    mkInode false [] (now σ) (OS.permBits perm)]> (inodes σ) ∧
    files σ' = <[fresh (dom (files σ)) :=
                   mkFile (Filename w) (fresh (dom (inodes σ))) 0 true false]> (files σ) ∧
    now σ' = now σ ∧ stderr σ' = stderr σ ∧ sweeps σ' = sweeps σ.
Proof.
  intros HP Hres Hdir.
  destruct (writableDir_resolve _ _ Hdir) as (dn & di & Hd & Hdd & Hdw).
  unfold createLogFile, OS.OpenFile. rewrite HP, Hres, Hd, Hdd, Hdw. simpl.
  unfold OS.Chmod, OS.resolve. simpl.
  rewrite lookup_insert_eq. simpl. rewrite lookup_insert_eq. simpl.
  eexists. split; [done|]. simpl. by rewrite insert_insert_eq.
Qed.

Lemma startLogger_fresh σ w perm :
  Strconv.ParseOctal (Perm w) = inr perm →
  OS.resolve σ (Filename w) = None →
  OS.writableDir σ (Filepath.Dir (Filename w)) = None →
  knownHandle σ w = true →
  ∃ σ' w' fd,
    startLogger σ w = (σ', w', None) ∧
    fileWriter w' = Some fd ∧ files σ !! fd = None ∧
    files σ' !! fd = Some (mkFile (Filename w) (fresh (dom (inodes σ))) 0 true false) ∧
    (∀ fd', fd' ≠ fd → fileWriter w ≠ Some fd' → files σ' !! fd' = files σ !! fd') ∧
    maxLinesCurLines w' = 0 ∧ maxSizeCurSize w' = 0 ∧
    dailyOpenTime w' = now σ ∧ DailyOpenDate w' = Time.Day (now σ) ∧
    HourlyOpenDate w' = Time.Hour_ (now σ) ∧
    names σ' = <[Filename w := fresh (dom (inodes σ))]> (names σ) ∧
    inodes σ' = <[fresh (dom (inodes σ)) :=
                    mkInode false [] (now σ) (OS.permBits perm)]> (inodes σ) ∧
    now σ' = now σ ∧ stderr σ' = stderr σ ∧ sweeps σ' = sweeps σ.
Proof.
  intros HP Hres Hdir Hk. unfold startLogger.
  destruct (createLogFile_fresh σ w perm HP Hres Hdir)
    as (σ1 & -> & Hn1 & Hi1 & Hf1 & Hnow1 & He1 & Hs1).
  set (fd := fresh (dom (files σ))) in *. set (b := fresh (dom (inodes σ))) in *.
  assert (Hfresh : files σ !! fd = None) by apply not_elem_of_dom, is_fresh.
  set (f1 := mkFile (Filename w) b 0 true false) in *.
  set (σc := match fileWriter w with Some _ => _ | None => σ1 end).
  assert (Hc : sameDisk σ1 σc ∧ files σc !! fd = Some f1 ∧
               (∀ fd', fd' ≠ fd → fileWriter w ≠ Some fd' →
                       files σc !! fd' = files σ !! fd')).
  { unfold σc. destruct (fileWriter w) as [fdo|] eqn:Hfw.
    - destruct (OS.Close σ1 (Some fdo)) as [σx rx] eqn:E.
      apply Close_frame in E as (Hsd & Hf & _). simpl.
      destruct (knownHandle_inv _ _ _ Hk Hfw) as [flo Hflo].
      split; [done|]. split.
      + rewrite Hf by congruence. by rewrite Hf1, lookup_insert_eq.
      + intros fd' Hne Hne'. rewrite Hf by congruence.
        by rewrite Hf1, lookup_insert_ne.
    - split; [apply sameDisk_refl|]. split; [by rewrite Hf1, lookup_insert_eq|].
      intros fd' Hne _. by rewrite Hf1, lookup_insert_ne. }
  destruct Hc as ((Hnc & Hic & Hnowc & _ & Hec & Hsc) & Hfc & Hothc). clearbody σc.
  unfold initFd, OS.Stat.
  assert (Hib : inodes σc !! f_ino f1 = Some (mkInode false [] (now σ) (OS.permBits perm))).
  { rewrite Hic, Hi1. apply lookup_insert_eq. }
  change (fileWriter (with_fileWriter (Some fd) w)) with (Some fd).
  rewrite (valid_open _ _ _ _ _ Hfc eq_refl Hib). simpl.
  rewrite andb_false_r. simpl.
  eexists _, _, fd. split; [done|]. simpl.
  repeat (split; [done || congruence|]). congruence.
Qed.

Lemma Chmod_file σ name mode ino i :
  names σ !! name = Some ino → inodes σ !! ino = Some i →
  OS.Chmod σ name mode =
    (set_inodes (insert ino (mkInode (i_dir i) (i_data i) (i_mtime i) (OS.permBits mode))) σ,
     None).
Proof.
  intros Hn Hi. unfold OS.Chmod. by rewrite (resolve_some _ _ _ _ Hn Hi).
Qed.

(** [doRotate] when the name without a number is free: the active file
    is moved to it and given the mode [RotatePerm], and a new, empty
    active file is made. *)
Lemma doRotate_first σ w logTime perm rperm a ia :
  Strconv.ParseOctal (Perm w) = inr perm →
  Strconv.ParseOctal (RotatePerm w) = inr rperm →
  knownHandle σ w = true →
  names σ !! Filename w = Some a → inodes σ !! a = Some ia → i_dir ia = false →
  names σ !! numName w (timeFormat w) 1 = None →
  names σ !! withoutNumName w (timeFormat w) = None →
  OS.writableDir σ (Filepath.Dir (Filename w)) = None →
  OS.writableDir σ (Filepath.Dir (withoutNumName w (timeFormat w))) = None →
  ∃ σ' w' fd b,
    doRotate σ w logTime = (σ', w', None) ∧
    inodes σ !! b = None ∧
    names σ' = <[Filename w := b]>
                 (<[withoutNumName w (timeFormat w) := a]> (delete (Filename w) (names σ))) ∧
    inodes σ' = <[b := mkInode false [] (now σ) (OS.permBits perm)]>
                  (<[a := mkInode false (i_data ia) (i_mtime ia) (OS.permBits rperm)]>
                     (inodes σ)) ∧
    fileWriter w' = Some fd ∧
    files σ' !! fd = Some (mkFile (Filename w) b 0 true false) ∧
    maxLinesCurLines w' = 0 ∧ maxSizeCurSize w' = 0 ∧
    dailyOpenTime w' = now σ ∧ DailyOpenDate w' = Time.Day (now σ) ∧
    HourlyOpenDate w' = Time.Hour_ (now σ) ∧
    sweeps σ' = S (sweeps σ) ∧ now σ' = now σ.
Proof.
  clear U R.
  intros HP HRP Hk Hn Hi Hd H1 Hu HwF Hwu.
  set (u := withoutNumName w (timeFormat w)) in *.
  assert (HFu : Filename w ≠ u) by congruence.
  unfold doRotate. rewrite HRP.
  set (σa := eprint (LogDoRotate logTime) σ).
  rewrite (Lstat_some σa (Filename w) a ia Hn Hi).
  rewrite (rotateLoop_first _ σa w (timeFormat w) H1 Hu). fold u.
  rewrite bool_decide_eq_false_2 by done. cbn [andb].
  set (σl := eprint (LogUseFileName u) σa).
  destruct (OS.Close σl (fileWriter w)) as [σc rc] eqn:Ec.
  apply Close_frame in Ec as ((Hnc & Hic & Hnowc & _ & _ & Hsc) & _ & Hfc).
  change (names σl) with (names σ) in Hnc. change (inodes σl) with (inodes σ) in Hic.
  change (now σl) with (now σ) in Hnowc. change (sweeps σl) with (sweeps σ) in Hsc.
  change (files σl) with (files σ) in Hfc.
  set (σe := eprint (LogRenameLog (Filename w) u) σc).
  rewrite (Rename_file σe (Filename w) u a ia).
  2:{ simpl. by rewrite Hnc. }
  2:{ simpl. by rewrite Hic. }
  2:{ done. }
  2:{ simpl. by rewrite Hnc. }
  2:{ rewrite <- HwF. apply writableDir_frame; simpl; congruence. }
  2:{ rewrite <- Hwu. apply writableDir_frame; simpl; congruence. }
  set (σr := set_names _ σe).
  rewrite (Chmod_file σr u rperm a ia).
  2:{ simpl. rewrite Hnc. apply lookup_insert_eq. }
  2:{ simpl. by rewrite Hic. }
  rewrite Hd. set (ia' := mkInode false (i_data ia) (i_mtime ia) (OS.permBits rperm)).
  set (σm := set_inodes _ σr).
  assert (Hnm : names σm = <[u := a]> (delete (Filename w) (names σ)))
    by (simpl; by rewrite Hnc).
  assert (Him : inodes σm = <[a := ia']> (inodes σ)) by (simpl; by rewrite Hic).
  assert (Hfm : ∀ fd, is_Some (files σ !! fd) → is_Some (files σm !! fd))
    by (intros fd; apply Hfc).
  assert (Hnowm : now σm = now σ) by (simpl; congruence).
  assert (Hswm : sweeps σm = sweeps σ) by (simpl; congruence).
  clearbody σm. clear σr σe.
  assert (Hdom : dom (inodes σm) = dom (inodes σ)).
  { rewrite Him, dom_insert_L. apply mk_is_Some, elem_of_dom in Hi. set_solver. }
  destruct (startLogger_fresh σm w perm) as
    (σ1 & w1 & fd1 & HS & Hw1 & _ & Hfd1 & _ & Hl1 & Hs1 & Ht1 & Hday1 & Hh1 &
     Hn1 & Hi1 & Hnow1 & _ & Hsw1).
  { done. }
  { unfold OS.resolve. rewrite Hnm, lookup_insert_ne by done.
    by rewrite lookup_delete_eq. }
  { destruct (writableDir_resolve _ _ HwF) as (dn & di & Hres & Hdd & Hdw).
    apply resolve_inv in Hres as [Hdn Hdi].
    assert (Hne : Filepath.Dir (Filename w) ≠ Filename w).
    { intros Heq. rewrite Heq in Hdn. simplify_eq. congruence. }
    assert (Hnu : Filepath.Dir (Filename w) ≠ u) by congruence.
    assert (Hna : dn ≠ a) by (intros ->; congruence).
    unfold OS.writableDir.
    rewrite (resolve_some σm _ dn di).
    - by rewrite Hdd, Hdw.
    - by rewrite Hnm, lookup_insert_ne, lookup_delete_ne.
    - by rewrite Him, lookup_insert_ne. }
  { unfold knownHandle in *. destruct (fileWriter w) as [fd|]; [|done].
    apply bool_decide_eq_true in Hk. apply bool_decide_eq_true. by apply Hfm. }
  unfold restartLogger. rewrite HS.
  exists (spawn σ1), w1, fd1, (fresh (dom (inodes σ))).
  rewrite Hdom in *.
  split; [done|]. split; [apply not_elem_of_dom, is_fresh|].
  rewrite Hnowm, Hswm in *.
  simpl. rewrite Hn1, Hi1, Hnm, Him, Hsw1, Hnow1.
  repeat (split; [done|]). done.
Qed.

(** X16. A first rotation, from end to end.  When a rotation is due,
    the active file is a regular file in a directory the process may
    write to, and the archive name of its period and the [001] name are
    free, the call of [WriteMsg] returns nil and leaves: the old file,
    with every byte and the modification time it had and the mode
    [RotatePerm], under the archive name; a new file with the mode
    [Perm] under the active name, holding the bytes of the message and
    nothing else; every other name as it was; a usable handle on the
    new file; the counters at one line and the length of the message;
    the opening time at the time of the call; and one sweep started. *)
Theorem WriteMsg_first_rotation σ w when msg perm rperm a ia :
  is_Some (formatTimeHeader when) →
  Rotate w = true →
  needRotate w (len (stripped R w msg)) (Time.Day when) (Time.Hour_ when) = true →
  Strconv.ParseOctal (Perm w) = inr perm →
  Strconv.ParseOctal (RotatePerm w) = inr rperm →
  knownHandle σ w = true →
  names σ !! Filename w = Some a → inodes σ !! a = Some ia → i_dir ia = false →
  names σ !! numName w (timeFormat w) 1 = None →
  names σ !! withoutNumName w (timeFormat w) = None →
  OS.writableDir σ (Filepath.Dir (Filename w)) = None →
  OS.writableDir σ (Filepath.Dir (withoutNumName w (timeFormat w))) = None →
  len (stripped R w msg) ≤ maxInt64 →
  ∃ σ' w' b ib,
    WriteMsg R σ w when msg = Some (σ', w', None) ∧
    names σ' !! withoutNumName w (timeFormat w) = Some a ∧
    inodes σ' !! a = Some (mkInode false (i_data ia) (i_mtime ia) (OS.permBits rperm)) ∧
    names σ' !! Filename w = Some b ∧ inodes σ !! b = None ∧
    inodes σ' !! b = Some ib ∧
    i_data ib = bytes (stripped R w msg) ∧ i_mode ib = OS.permBits perm ∧
    (∀ p, p ≠ Filename w → p ≠ withoutNumName w (timeFormat w) →
          names σ' !! p = names σ !! p) ∧
    usable σ' (fileWriter w') = true ∧
    maxLinesCurLines w' = 1 ∧ maxSizeCurSize w' = len (stripped R w msg) ∧
    dailyOpenTime w' = now σ ∧ DailyOpenDate w' = Time.Day (now σ) ∧
    HourlyOpenDate w' = Time.Hour_ (now σ) ∧
    sweeps σ' = S (sweeps σ).
Proof.
  intros [[[buf d] h] Hh] Hrot Hneed HP HRP Hk Hn Hi Hd H1 Hu HwF Hwu Hlen.
  destruct (formatTimeHeader_day _ _ _ _ Hh) as [-> ->].
  rewrite (WriteMsg_unfold _ _ _ _ _ _ _ Hh).
  set (m := stripped R w msg) in *. set (u := withoutNumName w (timeFormat w)) in *.
  unfold rotateIfDue. rewrite Hrot, Hneed.
  set (σ0 := eprint (LogWriteMsg (Time.Day when) (Time.Hour_ when)) σ).
  destruct (doRotate_first σ0 w when perm rperm a ia HP HRP Hk Hn Hi Hd H1 Hu HwF Hwu)
    as (σ1 & w1 & fd & b & -> & Hb & Hn1 & Hi1 & Hw1 & Hfd & Hl1 & Hs1 & Ht1 & Hday1 &
        Hh1 & Hsw1 & Hnow1).
  fold u in Hn1.
  change (names σ0) with (names σ) in Hn1. change (inodes σ0) with (inodes σ) in Hi1, Hb.
  change (now σ0) with (now σ) in *. change (sweeps σ0) with (sweeps σ) in Hsw1.
  assert (Hba : b ≠ a) by congruence.
  assert (Hib : inodes σ1 !! f_ino (mkFile (Filename w) b 0 true false) =
                Some (mkInode false [] (now σ) (OS.permBits perm))).
  { simpl. rewrite Hi1. apply lookup_insert_eq. }
  destruct (Write_data σ1 fd _ _ (bytes m) Hfd eq_refl eq_refl Hib)
    as (σ' & ib & HW & Hi' & Hdata & _ & Hmode & Hn' & Hf' & _).
  assert (HA : appendMsg σ1 w1 m =
                 (σ', with_counters (wrap64 (maxLinesCurLines w1 + 1))
                        (wrap64 (maxSizeCurSize w1 + len m)) w1, None)).
  { unfold appendMsg. by rewrite Hw1, HW. }
  destruct (appendMsg_clock _ _ _ _ _ _ HA) as [_ Hsw'].
  rewrite HA. simpl in Hi'.
  exists σ', (with_counters (wrap64 (maxLinesCurLines w1 + 1))
               (wrap64 (maxSizeCurSize w1 + len m)) w1), b, ib.
  assert (HFu : Filename w ≠ u) by congruence.
  split; [done|]. rewrite Hn', Hn1, Hi', Hi1.
  split. { rewrite lookup_insert_ne by done. apply lookup_insert_eq. }
  split. { rewrite !lookup_insert_ne by done. apply lookup_insert_eq. }
  split; [apply lookup_insert_eq|]. split; [done|].
  split; [apply lookup_insert_eq|]. split; [by rewrite Hdata|]. split; [done|].
  split. { intros p HpF Hpu. rewrite !lookup_insert_ne by done.
           by rewrite lookup_delete_ne. }
  split.
  { simpl. rewrite Hw1.
    apply (usable_intro _ _ (mkFile (Filename w) b 0 true false) ib);
      [by rewrite Hf'|done|done|]. simpl. rewrite Hi'. apply lookup_insert_eq. }
  simpl. rewrite Hl1, Hs1. split; [done|].
  split. { apply wrap64_id. unfold inInt64, minInt64, len in *. lia. }
  split; [done|]. split; [done|]. split; [done|]. by rewrite Hsw', Hsw1.
Qed.

(** *** Counting the lines, and the period of a file found *)

(** X18. [lines] on any file system: it never changes a name, an
    inode or a handle that was there, and the descriptor it opens is
    closed when it returns, whatever it returns.  It fails with the
    error of the open when the file is missing or may not be read, and
    with the error of the read when the name is that of a directory;
    on a regular file it returns the number of newline bytes in it,
    however many reads of 32 KiB that takes. *)
Theorem lines_outcomes σ w :
  ∃ σ' r,
    lines σ w = (σ', r) ∧ sameDisk σ σ' ∧
    (∀ fd, is_Some (files σ !! fd) → files σ' !! fd = files σ !! fd) ∧
    (∀ fd fl, files σ' !! fd = Some fl → files σ !! fd = None → f_closed fl = true) ∧
    match OS.resolve σ (Filename w) with
    | None => r = (0, Some (PathError "open" (Filename w) ENOENT))
    | Some (_, i) =>
        if negb (OS.ownerRead i)
        then r = (0, Some (PathError "open" (Filename w) EACCES))
        else if i_dir i
             then r = (0, Some (PathError "read" (Filename w) EISDIR))
             else Z.of_nat (length (i_data i)) ≤ maxInt64 →
                  r = (Strings.Count (i_data i) newline, None)
    end.
Proof.
  destruct (lines σ w) as [σ' r] eqn:E. exists σ', r. split; [done|].
  destruct (lines_frame _ _ _ _ E) as [Hsame Hfiles].
  split; [done|]. split; [done|]. split.
  { intros fd fl. by apply (lines_closed _ _ _ _ _ _ E). }
  destruct (OS.resolve σ (Filename w)) as [[ino i]|] eqn:Hres.
  2:{ revert E. unfold lines, OS.Open. rewrite Hres. by intros [= _ <-]. }
  destruct (negb (OS.ownerRead i)) eqn:Hr.
  { revert E. unfold lines, OS.Open. rewrite Hres, Hr. by intros [= _ <-]. }
  apply negb_false_iff in Hr. destruct (resolve_inv _ _ _ _ Hres) as [Hn Hi].
  destruct (i_dir i) eqn:Hd.
  - revert E. unfold lines, OS.Open. rewrite Hres, Hr. simpl.
    set (fd := fresh (dom (files σ))).
    set (f0 := mkFile (Filename w) ino 0 false false).
    set (σ1 := set_files (insert fd f0) σ).
    assert (Hf0 : files σ1 !! fd = Some f0) by (simpl; by rewrite lookup_insert_eq).
    assert (Hv : ∀ op, OS.valid σ1 op (Some fd) = inr (fd, f0, i))
      by (intros op; by apply valid_open).
    unfold readsLeft. rewrite Hv. cbn [linesLoop]. unfold OS.Read. rewrite Hv.
    simpl. rewrite Hd.
    destruct (OS.Close σ1 (Some fd)) as [σ2 r2]. by intros [= _ <-].
  - intros Hmax.
    destruct (lines_spec σ w ino i Hn Hi Hd Hr Hmax) as (σ2 & E2 & _).
    rewrite E2 in E. by simplify_eq.
Qed.

(** X19. [Init] on a log file that is there takes up the period of the
    file, not the time of the call: the opening time is the
    modification time of the file, [DailyOpenDate] and [HourlyOpenDate]
    are its day of the month and hour, and the byte counter is its
    size; so the calendar part of [needRotate] compares with the day
    and hour the file was last written in, and the archive a rotation
    makes next is named after that time. *)
Theorem Init_resumes_period σ w0 jsonConfig w perm ino i :
  U jsonConfig w0 = (w, None) →
  Filename w ≠ EmptyString →
  Strconv.ParseOctal (Perm w) = inr perm →
  names σ !! Filename w = Some ino → inodes σ !! ino = Some i →
  i_dir i = false → OS.ownerWrite i = true →
  (Rotate w && (0 <? MaxLines w) = true → Z.testbit perm 8 = true) →
  Z.of_nat (length (i_data i)) ≤ maxInt64 →
  knownHandle σ w = true →
  ∃ σ' w',
    Init U σ w0 jsonConfig = (σ', w', None) ∧
    dailyOpenTime w' = i_mtime i ∧
    DailyOpenDate w' = Time.Day (i_mtime i) ∧
    HourlyOpenDate w' = Time.Hour_ (i_mtime i) ∧
    maxSizeCurSize w' = Z.of_nat (length (i_data i)) ∧
    (∀ day hour,
       calendarDue w' day hour =
         (Daily w && negb (day =? Time.Day (i_mtime i))) ||
         (Hourly w && negb (hour =? Time.Hour_ (i_mtime i)))) ∧
    withoutNumName w' (timeFormat w') =
      (fileNameOnly w' ++ "." ++ Time.Format (i_mtime i) (timeFormat w) ++ suffix w')%string ∧
    i_data <$> inodes σ' !! ino = Some (i_data i) ∧ names σ' = names σ.
Proof.
  intros HU Hname HP Hn Hi Hd Hw Hr Hmax Hk. unfold Init. rewrite HU.
  destruct (Z.eqb_spec (len (Filename w)) 0) as [H0|_].
  { destruct (Filename w); [done|]. unfold len in H0. simpl in H0. lia. }
  set (w1 := with_names _ _ w).
  destruct (startLogger_existing σ w1 perm ino i HP Hn Hi Hd Hw Hr Hmax Hk)
    as (σ' & fd & -> & _ & _ & Hn' & Hi' & _).
  exists σ', (opened w1 fd i). split; [done|].
  do 4 (split; [done|]). split; [done|]. split; [done|].
  split; [|done]. rewrite Hi', lookup_insert_eq. done.
Qed.

(** X20. The retention of [deleteOldLog] is [24 * time.Hour * MaxDays]
    in an [int64] of nanoseconds: from [MaxDays] 106752 on the product
    wraps, and up to 213503 it is negative.  With a retention that is
    zero or negative, by wrapping or because [MaxDays] is, the callback
    removes every file with the name of a log that was modified before
    now, however recently. *)
Theorem deleteOldLog_retention_wraps w :
  (106751 < MaxDays w ≤ 213503 →
   wrap64 (24 * Time.Hour * MaxDays w) = 24 * Time.Hour * MaxDays w - 2 ^ 64 ∧
   wrap64 (24 * Time.Hour * MaxDays w) < 0) ∧
  (wrap64 (24 * Time.Hour * MaxDays w) ≤ 0 →
   ∀ σ path fi,
     IsDir fi = false → ModTime fi < now σ → nameMatches w path = true →
     deleteOldLogFn w σ path (Some fi) = (OS.Remove σ path).1).
Proof.
  clear U R. split.
  - intros H. unfold wrap64, Time.Hour. split; Z.div_mod_to_equations; lia.
  - intros Hneg σ path fi Hd Hm Hname. unfold deleteOldLogFn, OS.Now.
    rewrite Hd. simpl. unfold Time.Before, Time.Add.
    destruct (Z.ltb_spec (ModTime fi + wrap64 (24 * Time.Hour * MaxDays w)) (now σ));
      [|lia].
    unfold nameMatches in Hname. by rewrite Hname.
Qed.

(** *** Configurations that cannot work *)

(** X22. The two permission strings are read at different times.
    [Perm] is parsed by [createLogFile]: when it is not an octal
    number, [Init] returns the error of [strconv.ParseInt] and has
    touched nothing.  [RotatePerm] is parsed by [doRotate] only: [Init]
    does not look at it, and when it is not an octal number every
    rotation that is due ends at once with the error of
    [strconv.ParseInt], which [WriteMsg] prints and does not return;
    the message is appended to the file that was active, which is never
    archived. *)
Theorem invalid_permissions :
  (∀ σ w0 jsonConfig w e,
     U jsonConfig w0 = (w, None) → Filename w ≠ EmptyString →
     Strconv.ParseOctal (Perm w) = inl e →
     ∃ w', Init U σ w0 jsonConfig = (σ, w', Some e) ∧
           fileWriter w' = fileWriter w) ∧
  (∀ σ w e,
     Strconv.ParseOctal (RotatePerm w) = inl e →
     (∀ logTime, doRotate σ w logTime = (eprint (LogDoRotate logTime) σ, w, Some e)) ∧
     ∀ when msg,
       is_Some (formatTimeHeader when) →
       Rotate w = true →
       needRotate w (len (stripped R w msg)) (Time.Day when) (Time.Hour_ when) = true →
       usable σ (fileWriter w) = true →
       ∃ σ',
         WriteMsg R σ w when msg =
           Some (σ', with_counters (wrap64 (maxLinesCurLines w + 1))
                       (wrap64 (maxSizeCurSize w + len (stripped R w msg))) w, None) ∧
         names σ' = names σ ∧ files σ' = files σ ∧ sweeps σ' = sweeps σ ∧
         LogWriteMsgErr when (Filename w) e ∈ stderr σ').
Proof.
  split.
  - intros σ w0 cfg w e HU Hname HP. unfold Init. rewrite HU.
    destruct (Z.eqb_spec (len (Filename w)) 0) as [H0|_].
    { destruct (Filename w); [done|]. unfold len in H0. simpl in H0. lia. }
    unfold startLogger, createLogFile. simpl. rewrite HP.
    eexists. by split.
  - intros σ w e HRP.
    assert (HD : ∀ σ0 logTime,
               doRotate σ0 w logTime = (eprint (LogDoRotate logTime) σ0, w, Some e)).
    { intros σ0 logTime. unfold doRotate. by rewrite HRP. }
    split; [apply HD|].
    intros when msg [[[buf d] h] Hh] Hrot Hneed Huse.
    destruct (formatTimeHeader_day _ _ _ _ Hh) as [-> ->].
    rewrite (WriteMsg_unfold _ _ _ _ _ _ _ Hh).
    unfold rotateIfDue. rewrite Hrot, Hneed, HD.
    set (σ2 := eprint _ (eprint _ (eprint _ σ))).
    assert (Huse2 : usable σ2 (fileWriter w) = true).
    { rewrite <- Huse. by apply usable_frame. }
    destruct (appendMsg_usable σ2 w (stripped R w msg) Huse2)
      as (σ' & HA & Hu' & He' & Hn' & Hf').
    destruct (appendMsg_clock _ _ _ _ _ _ HA) as [_ Hs'].
    rewrite HA. exists σ'. split; [done|]. rewrite Hn', Hf', Hs'.
    split; [done|]. split; [done|]. split; [done|].
    rewrite He'. simpl. apply elem_of_app. right. by left.
Qed.

(** X23. A log file removed from outside.  When a rotation is due and
    the active name is no longer there (its directory can be written
    to), [doRotate] archives nothing and makes the file anew: the name
    is that of a new, empty file with the mode [Perm], the receiver has
    a usable handle on it and counters at zero, the handle it had is no
    longer usable, one sweep is started, and the error returned is that
    of the [Lstat] that missed the file.  [WriteMsg] prints that error,
    appends its message to the new file and returns nil. *)
Theorem doRotate_missing_active_file σ w perm rperm :
  Strconv.ParseOctal (Perm w) = inr perm →
  Strconv.ParseOctal (RotatePerm w) = inr rperm →
  OS.resolve σ (Filename w) = None →
  OS.writableDir σ (Filepath.Dir (Filename w)) = None →
  knownHandle σ w = true →
  (∀ logTime, ∃ σ' w' fd b,
     doRotate σ w logTime =
       (σ', w', Some (Errorf "rotate: restartLogger err: "
                        (Error (PathError "lstat" (Filename w) ENOENT)))) ∧
     inodes σ !! b = None ∧
     names σ' = <[Filename w := b]> (names σ) ∧
     inodes σ' = <[b := mkInode false [] (now σ) (OS.permBits perm)]> (inodes σ) ∧
     fileWriter w' = Some fd ∧ usable σ' (Some fd) = true ∧
     maxLinesCurLines w' = 0 ∧ maxSizeCurSize w' = 0 ∧ dailyOpenTime w' = now σ ∧
     sweeps σ' = S (sweeps σ)) ∧
  (∀ when msg,
     is_Some (formatTimeHeader when) →
     Rotate w = true →
     needRotate w (len (stripped R w msg)) (Time.Day when) (Time.Hour_ when) = true →
     ∃ σ' w' b ib,
       WriteMsg R σ w when msg = Some (σ', w', None) ∧
       inodes σ !! b = None ∧ names σ' = <[Filename w := b]> (names σ) ∧
       inodes σ' !! b = Some ib ∧ i_data ib = bytes (stripped R w msg) ∧
       usable σ' (fileWriter w') = true).
Proof.
  intros HP HRP Hres HwF Hk.
  assert (HD : ∀ σ0 logTime,
    names σ0 = names σ → inodes σ0 = inodes σ → files σ0 = files σ →
    now σ0 = now σ → sweeps σ0 = sweeps σ →
    ∃ σ' w' fd,
      doRotate σ0 w logTime =
        (σ', w', Some (Errorf "rotate: restartLogger err: "
                         (Error (PathError "lstat" (Filename w) ENOENT)))) ∧
      names σ' = <[Filename w := fresh (dom (inodes σ))]> (names σ) ∧
      inodes σ' = <[fresh (dom (inodes σ)) :=
                      mkInode false [] (now σ) (OS.permBits perm)]> (inodes σ) ∧
      fileWriter w' = Some fd ∧
      files σ' !! fd = Some (mkFile (Filename w) (fresh (dom (inodes σ))) 0 true false) ∧
      maxLinesCurLines w' = 0 ∧ maxSizeCurSize w' = 0 ∧ dailyOpenTime w' = now σ ∧
      sweeps σ' = S (sweeps σ)).
  { intros σ0 logTime Hn0 Hi0 Hf0 Hnow0 Hs0. unfold doRotate. rewrite HRP.
    set (σa := eprint (LogDoRotate logTime) σ0).
    assert (Hresa : OS.resolve σa (Filename w) = None).
    { unfold OS.resolve. simpl. rewrite Hn0, Hi0. exact Hres. }
    unfold OS.Lstat at 1. rewrite Hresa.
    destruct (startLogger_fresh σa w perm) as
      (σ1 & w1 & fd1 & HS & Hw1 & _ & Hfd1 & _ & Hl1 & Hs1 & Ht1 & _ & _ &
       Hn1 & Hi1 & _ & _ & Hsw1); try done.
    { rewrite <- HwF. apply writableDir_frame; simpl; congruence. }
    { unfold knownHandle in *. simpl. by rewrite Hf0. }
    unfold restartLogger. rewrite HS.
    exists (spawn σ1), w1, fd1. split; [done|]. simpl.
    simpl in Hn1, Hi1, Hfd1, Ht1, Hsw1.
    rewrite Hi0, Hnow0 in *. rewrite Hn0 in Hn1. rewrite Hs0 in Hsw1.
    rewrite Hn1, Hi1, Hsw1. by repeat split. }
  split.
  - intros logTime.
    destruct (HD σ logTime) as (σ' & w' & fd & HE & Hn & Hi & Hw & Hfd & ? & ? & ? & ?);
      try done.
    exists σ', w', fd, (fresh (dom (inodes σ))).
    split; [done|]. split; [apply not_elem_of_dom, is_fresh|].
    do 3 (split; [done|]). split; [|done].
    eapply usable_intro; [done..|]. simpl. rewrite Hi. apply lookup_insert_eq.
  - intros when msg [[[buf d] h] Hh] Hrot Hneed.
    destruct (formatTimeHeader_day _ _ _ _ Hh) as [-> ->].
    rewrite (WriteMsg_unfold _ _ _ _ _ _ _ Hh).
    unfold rotateIfDue. rewrite Hrot, Hneed.
    destruct (HD (eprint (LogWriteMsg (Time.Day when) (Time.Hour_ when)) σ) when)
      as (σ1 & w1 & fd & -> & Hn & Hi & Hw & Hfd & _); try done.
    set (σ2 := eprint _ σ1).
    assert (Hib : inodes σ2 !! f_ino (mkFile (Filename w) (fresh (dom (inodes σ))) 0
                                        true false) =
                  Some (mkInode false [] (now σ) (OS.permBits perm))).
    { simpl. rewrite Hi. apply lookup_insert_eq. }
    destruct (Write_data σ2 fd _ _ (bytes (stripped R w msg)) Hfd eq_refl eq_refl Hib)
      as (σ' & ib & HW & Hi' & Hdata & _ & _ & Hn' & Hf' & _).
    assert (HA : appendMsg σ2 w1 (stripped R w msg) =
                   (σ', with_counters (wrap64 (maxLinesCurLines w1 + 1))
                          (wrap64 (maxSizeCurSize w1 + len (stripped R w msg))) w1, None)).
    { unfold appendMsg. by rewrite Hw, HW. }
    rewrite HA. simpl in Hi'.
    exists σ', (with_counters (wrap64 (maxLinesCurLines w1 + 1))
                 (wrap64 (maxSizeCurSize w1 + len (stripped R w msg))) w1),
      (fresh (dom (inodes σ))), ib.
    split; [done|]. split; [apply not_elem_of_dom, is_fresh|].
    split; [by rewrite Hn'|]. split; [rewrite Hi'; apply lookup_insert_eq|].
    split; [by rewrite Hdata|]. simpl. rewrite Hw.
    eapply usable_intro; [by rewrite Hf'|done|done|].
    simpl. rewrite Hi'. apply lookup_insert_eq.
Qed.

End Properties.

(** ** The statements on the runs *)

Ltac by_compute :=
  first [ vm_compute; reflexivity
        | apply (bool_decide_unpack _); vm_compute; exact I ].

Ltac conj_compute :=
  lazymatch goal with
  | |- _ ∧ _ => split; [vm_compute; reflexivity | conj_compute]
  | _ => vm_compute; reflexivity
  end.

(** C1, tried on a directory that has become read-only: the rename fails,
    the file is opened again, and the rename failure is reported. *)
Lemma doRotate_rename_failure_witness :
  let σ := Run.world_of Run.readOnlyDir in
  let w := Run.writer_of Run.readOnlyDir in
  knownHandle σ w = true ∧
  renameFails σ w Run.jan15_11h Run.archive1 Run.renameDenied
    (Run.renameAttempt Run.readOnlyDir) ∧
  ∃ σ' w' r,
    startLogger (Run.renameAttempt Run.readOnlyDir) w = (σ', w', r) ∧
    doRotate σ w Run.jan15_11h =
      (spawn σ', w',
       Some (match r with
             | None => Errorf "rotate: restartLogger err: " (Error Run.renameDenied)
             | Some e' => Errorf "rotate: restartLogger startLoggerErr: " (Error e')
             end)) ∧
    (r = None → usable (spawn σ') (fileWriter w') = true) ∧
    (∀ e', (createLogFile (Run.renameAttempt Run.readOnlyDir) w).2 = inl e' →
           r = Some e' ∧ usable (spawn σ') (fileWriter w') = false).
Proof.
  intros σ w.
  assert (H1 : knownHandle σ w = true) by by_compute.
  assert (H2 : renameFails σ w Run.jan15_11h Run.archive1 Run.renameDenied
                 (Run.renameAttempt Run.readOnlyDir)).
  { unfold renameFails. do 5 eexists. conj_compute. }
  exact (conj H1 (conj H2 (doRotate_rename_failure σ w _ _ _ _ H1 H2))).
Defined.

(** C1 as stated fails when the log file has become read-only as well:
    the rename fails, the file cannot be opened again, the writer is left
    with the handle [doRotate] closed, the error names the failed open
    and not the rename, and the write of that call fails on the closed
    handle. *)
Lemma reopen_failure_leaves_closed_handle :
  let σ := Run.world_of Run.readOnlyFile in
  let w := Run.writer_of Run.readOnlyFile in
  renameFails σ w Run.jan15_11h Run.archive1 Run.renameDenied
    (Run.renameAttempt Run.readOnlyFile) ∧
  usable (Run.world_of (doRotate σ w Run.jan15_11h))
    (fileWriter (Run.writer_of (doRotate σ w Run.jan15_11h))) = false ∧
  Run.error_of (doRotate σ w Run.jan15_11h) =
    Some (ErrorString
            "rotate: restartLogger startLoggerErr: open app.log: permission denied") ∧
  (λ r, (usable (Run.world_of r) (fileWriter (Run.writer_of r)), Run.error_of r)) <$>
    WriteMsg Run.R σ w Run.jan15_11h "a" =
    Some (false, Some (PathError "write" "app.log" ErrClosed)).
Proof.
  intros σ w. split.
  { unfold renameFails. do 5 eexists. conj_compute. }
  conj_compute.
Qed.

(** C2, tried on the second rotation of an hour: the first archive moves
    to the [001] name and the active file to the [002] name. *)
Lemma doRotate_archive_names_witness :
  let σ := Run.world_of Run.secondDue in
  let w := Run.writer_of Run.secondDue in
  let u := withoutNumName w (timeFormat w) in
  let n1 := numName w (timeFormat w) 1 in
  let n2 := numName w (timeFormat w) 2 in
  (Strconv.ParseOctal (RotatePerm w) = inr 288 ∧
   names σ !! Filename w = Some 2%nat ∧
   inodes σ !! 2%nat = Some (Run.inodeAt σ "app.log") ∧
   i_dir (Run.inodeAt σ "app.log") = false ∧
   Filename w ≠ u ∧
   (∀ p, p ∈ [Filename w; u; n1; n2] → OS.writableDir σ (Filepath.Dir p) = None) ∧
   names σ !! n1 = None) ∧
  (names σ !! u = Some 1%nat ∧
   inodes σ !! 1%nat = Some (Run.inodeAt σ u) ∧
   i_dir (Run.inodeAt σ u) = false ∧
   names σ !! n2 = None ∧
   (MaxLines w ≠ 0 ∨ MaxSize w ≠ 0)) ∧
  names (doRotate σ w Run.jan15).1.1 !! n1 = Some 1%nat ∧
  names (doRotate σ w Run.jan15).1.1 !! n2 = Some 2%nat ∧
  names (doRotate σ w Run.jan15).1.1 !! u = None.
Proof.
  intros σ w u n1 n2.
  assert (Hp : Strconv.ParseOctal (RotatePerm w) = inr 288) by by_compute.
  assert (Hn : names σ !! Filename w = Some 2%nat) by by_compute.
  assert (Hi : inodes σ !! 2%nat = Some (Run.inodeAt σ "app.log")) by by_compute.
  assert (Hd : i_dir (Run.inodeAt σ "app.log") = false) by by_compute.
  assert (Hne : Filename w ≠ u) by (apply String.eqb_neq; by_compute).
  assert (Hdirs : ∀ p, p ∈ [Filename w; u; n1; n2] →
                       OS.writableDir σ (Filepath.Dir p) = None).
  { intros p Hp'.
    repeat (apply elem_of_cons in Hp' as [->|Hp']);
      [by_compute..|exact (False_ind _ (proj1 (elem_of_nil p) Hp'))]. }
  assert (H1 : names σ !! n1 = None) by by_compute.
  assert (Hu : names σ !! u = Some 1%nat) by by_compute.
  assert (Hb : inodes σ !! 1%nat = Some (Run.inodeAt σ u)) by by_compute.
  assert (Hbd : i_dir (Run.inodeAt σ u) = false) by by_compute.
  assert (H2 : names σ !! n2 = None) by by_compute.
  assert (Hlim : MaxLines w ≠ 0 ∨ MaxSize w ≠ 0) by (left; by_compute).
  split; [exact (conj Hp (conj Hn (conj Hi (conj Hd (conj Hne (conj Hdirs H1))))))|].
  split; [exact (conj Hu (conj Hb (conj Hbd (conj H2 Hlim))))|].
  exact (proj2 (doRotate_archive_names σ w Run.jan15 288 2%nat _ Hp Hn Hi Hd Hne Hdirs H1)
           1%nat _ Hu Hb Hbd H2 Hlim).
Defined.

(** C2 as stated fails on that rotation: the active file, inode 2, is not
    the one found under the [001] name afterwards; that is the first
    archive, inode 1, and the active file is under the [002] name. *)
Lemma second_rotation_takes_002 :
  let σ := Run.world_of Run.secondDue in
  let w := Run.writer_of Run.secondDue in
  let σ' := Run.world_of (doRotate σ w Run.jan15) in
  MaxLines w = 2 ∧
  names σ !! "app.log"%string = Some 2%nat ∧
  names σ !! "app.2024-01-15-10.log"%string = Some 1%nat ∧
  names σ !! "app.2024-01-15-10.001.log"%string = None ∧
  names σ' !! "app.2024-01-15-10.001.log"%string = Some 1%nat ∧
  names σ' !! "app.2024-01-15-10.002.log"%string = Some 2%nat ∧
  names σ' !! "app.2024-01-15-10.log"%string = None.
Proof. intros σ w σ'. conj_compute. Qed.

(** C3, tried with [MaxLines] = 2: two writes, then the third. *)
Lemma maxLines_rotation_witness :
  let σ := Run.world_of Run.twoLines in
  let w := Run.writer_of Run.twoLines in
  let calls := [(Run.jan15, Run.line "a"); (Run.jan15, Run.line "b")] in
  (Rotate w = true ∧ 0 < MaxLines w ≤ maxInt64 ∧ maxLinesCurLines w = 0 ∧
   Z.of_nat (length calls) = MaxLines w ∧ usable σ (fileWriter w) = true ∧
   Forall (λ c, inBucket w c.1 = true) calls ∧
   is_Some (formatTimeHeader Run.jan15) ∧ MaxSize w ≤ 0) ∧
  ∃ σ1 w1 σ2 w2 err,
    WriteMsgs Run.R σ w calls = Some (σ1, w1, replicate (length calls) None) ∧
    rotations σ1 = rotations σ ∧
    WriteMsg Run.R σ1 w1 Run.jan15 (Run.line "c") = Some (σ2, w2, err) ∧
    rotations σ2 = S (rotations σ1).
Proof.
  intros σ w calls.
  assert (H1 : Rotate w = true) by by_compute.
  assert (H2 : 0 < MaxLines w ≤ maxInt64) by by_compute.
  assert (H3 : maxLinesCurLines w = 0) by by_compute.
  assert (H4 : Z.of_nat (length calls) = MaxLines w) by by_compute.
  assert (H5 : usable σ (fileWriter w) = true) by by_compute.
  assert (H6 : Forall (λ c, inBucket w c.1 = true) calls)
    by (repeat (constructor; [by_compute|]); constructor).
  assert (H7 : is_Some (formatTimeHeader Run.jan15)) by by_compute.
  assert (H8 : MaxSize w ≤ 0) by by_compute.
  split; [exact (conj H1 (conj H2 (conj H3 (conj H4 (conj H5 (conj H6 (conj H7 H8)))))))|].
  exact (maxLines_rotation Run.R σ w calls Run.jan15 (Run.line "c")
           H1 H2 H3 H4 H5 H6 H7 (or_introl H8)).
Defined.

(** C4, tried on two consecutive days. *)
Lemma daily_rotation_by_day_of_month_witness :
  let σ := Run.world_of Run.daily in
  let w := Run.writer_of Run.daily in
  (Rotate w = true ∧ Daily w = true ∧ Hourly w = false ∧ MaxLines w = 0 ∧
   MaxSize w = 0 ∧ usable σ (fileWriter w) = true ∧
   is_Some (formatTimeHeader Run.jan15) ∧ is_Some (formatTimeHeader Run.jan16) ∧
   Time.Day Run.jan15 = DailyOpenDate w) ∧
  ∃ σ1 w1 σ2 w2 err,
    WriteMsg Run.R σ w Run.jan15 "a" = Some (σ1, w1, None) ∧
    rotations σ1 = rotations σ ∧
    WriteMsg Run.R σ1 w1 Run.jan16 "b" = Some (σ2, w2, err) ∧
    rotations σ2 = if Time.Day Run.jan16 =? Time.Day Run.jan15 then rotations σ1
                   else S (rotations σ1).
Proof.
  intros σ w.
  assert (H1 : Rotate w = true) by by_compute.
  assert (H2 : Daily w = true) by by_compute.
  assert (H3 : Hourly w = false) by by_compute.
  assert (H4 : MaxLines w = 0) by by_compute.
  assert (H5 : MaxSize w = 0) by by_compute.
  assert (H6 : usable σ (fileWriter w) = true) by by_compute.
  assert (H7 : is_Some (formatTimeHeader Run.jan15)) by by_compute.
  assert (H8 : is_Some (formatTimeHeader Run.jan16)) by by_compute.
  assert (H9 : Time.Day Run.jan15 = DailyOpenDate w) by by_compute.
  split; [exact (conj H1 (conj H2 (conj H3 (conj H4 (conj H5 (conj H6
                   (conj H7 (conj H8 H9))))))))|].
  exact (daily_rotation_by_day_of_month Run.R σ w Run.jan15 "a" Run.jan16 "b"
           H1 H2 H3 H4 H5 H6 H7 H8 H9).
Defined.

(** C4 as stated fails on 15 January and 15 February: two calendar days
    with one day of the month, and the second write starts no rotation. *)
Lemma same_day_of_month_no_rotation :
  let w := Run.writer_of Run.daily in
  Daily w = true ∧ Hourly w = false ∧ Rotate w = true ∧
  Time.Date Run.jan15 = (2024, 1, 15) ∧ Time.Date Run.feb15 = (2024, 2, 15) ∧
  (λ r, rotations (Run.world_of r)) <$>
    Run.writeAll Run.daily [(Run.jan15, "a"%string)] = Some 0%nat ∧
  (λ r, (rotations (Run.world_of r), Run.error_of r)) <$>
    Run.writeAll Run.daily [(Run.jan15, "a"%string); (Run.feb15, "b"%string)]
    = Some (0%nat, None).
Proof. intros w. conj_compute. Qed.

(** C5, tried on the first write to a new file. *)
Lemma WriteMsg_counters_witness :
  let σ := Run.world_of Run.twoLines in
  let w := Run.writer_of Run.twoLines in
  let msg := Run.line "a" in
  is_Some (formatTimeHeader Run.jan15) ∧
  ∃ σ1 w1 σ' w' err,
    rotateIfDue σ w Run.jan15 (stripped Run.R w msg) (Time.Day Run.jan15)
      (Time.Hour_ Run.jan15) = (σ1, w1) ∧
    (Rotate w && needRotate w (len (stripped Run.R w msg)) (Time.Day Run.jan15)
                   (Time.Hour_ Run.jan15) = false → σ1 = σ ∧ w1 = w) ∧
    WriteMsg Run.R σ w Run.jan15 msg = Some (σ', w', err) ∧
    err = (OS.Write σ1 (fileWriter w1) (bytes (stripped Run.R w msg))).2.2 ∧
    match err with
    | None =>
        maxLinesCurLines w' = wrap64 (maxLinesCurLines w1 + 1) ∧
        maxSizeCurSize w' = wrap64 (maxSizeCurSize w1 + len (stripped Run.R w msg)) ∧
        (inInt64 (maxLinesCurLines w1 + 1) →
         maxLinesCurLines w' = maxLinesCurLines w1 + 1) ∧
        (inInt64 (maxSizeCurSize w1 + len (stripped Run.R w msg)) →
         maxSizeCurSize w' = maxSizeCurSize w1 + len (stripped Run.R w msg))
    | Some _ => w' = w1
    end.
Proof.
  intros σ w msg.
  assert (H : is_Some (formatTimeHeader Run.jan15)) by by_compute.
  exact (conj H (WriteMsg_counters Run.R σ w Run.jan15 msg H)).
Defined.

(** C6, tried on a file of three lines left by an earlier run. *)
Lemma Init_seeds_line_count_witness :
  let σ := Run.withOldLog Run.jan15 in
  let cfg := Run.config (Run.member "maxlines" "10") in
  let w := (Run.U cfg defaultWriter).1 in
  let i := Run.inodeAt σ "app.log" in
  let ls := [bytes "a"; bytes "b"; bytes "c"] in
  (Run.U cfg defaultWriter = (w, None) ∧ Filename w ≠ EmptyString ∧
   Rotate w = true ∧ 0 < MaxLines w ∧
   Strconv.ParseOctal (Perm w) = inr 432 ∧ Z.testbit 432 8 = true ∧
   knownHandle σ w = true ∧
   names σ !! Filename w = Some 1%nat ∧ inodes σ !! 1%nat = Some i ∧
   i_dir i = false ∧ OS.ownerWrite i = true ∧
   ls ≠ [] ∧ Forall (λ l, newline ∉ l) ls ∧
   i_data i = concat (map (λ l, l ++ [newline]) ls) ∧
   Z.of_nat (length (i_data i)) ≤ maxInt64) ∧
  ∃ σ' w' σl,
    Init Run.U σ defaultWriter cfg = (σ', w', None) ∧
    maxLinesCurLines w' = Z.of_nat (length ls) ∧
    lines σ' w' = (σl, (Z.of_nat (length ls), None)) ∧
    usable σ' (fileWriter w') = true ∧
    names σ' !! Filename w = Some 1%nat ∧
    i_data <$> inodes σ' !! 1%nat = Some (i_data i).
Proof.
  intros σ cfg w i ls.
  assert (H1 : Run.U cfg defaultWriter = (w, None)) by by_compute.
  assert (H2 : Filename w ≠ EmptyString) by (apply String.eqb_neq; by_compute).
  assert (H3 : Rotate w = true) by by_compute.
  assert (H4 : 0 < MaxLines w) by by_compute.
  assert (H5 : Strconv.ParseOctal (Perm w) = inr 432) by by_compute.
  assert (H6 : Z.testbit 432 8 = true) by by_compute.
  assert (H7 : knownHandle σ w = true) by by_compute.
  assert (H8 : names σ !! Filename w = Some 1%nat) by by_compute.
  assert (H9 : inodes σ !! 1%nat = Some i) by by_compute.
  assert (H10 : i_dir i = false) by by_compute.
  assert (H11 : OS.ownerWrite i = true) by by_compute.
  assert (H12 : ls ≠ []) by (intros H; discriminate H).
  assert (H13 : Forall (λ l, newline ∉ l) ls)
    by (repeat (constructor; [by_compute|]); constructor).
  assert (H14 : i_data i = concat (map (λ l, l ++ [newline]) ls)) by by_compute.
  assert (H15 : Z.of_nat (length (i_data i)) ≤ maxInt64) by by_compute.
  split; [exact (conj H1 (conj H2 (conj H3 (conj H4 (conj H5 (conj H6 (conj H7
                   (conj H8 (conj H9 (conj H10 (conj H11 (conj H12 (conj H13
                   (conj H14 H15))))))))))))))|].
  exact (Init_seeds_line_count Run.U σ defaultWriter cfg w 432 1%nat i ls
           H1 H2 H3 H4 H5 H6 H7 H8 H9 H10 H11 H12 H13 H14 H15).
Defined.

(** C7 as stated fails on two spellings of one configuration: the two
    strings decode to the same settings, and [newFileWriter] makes a
    writer for each, both with a handle they can append to on the same
    file. *)
Lemma two_spellings_two_writers :
  let r1 := newFileWriter Run.U Run.process0 Run.spelling1 in
  let r2 := newFileWriter Run.U r1.1 Run.spelling2 in
  Run.spelling1 ≠ Run.spelling2 ∧
  Run.U Run.spelling1 defaultWriter = Run.U Run.spelling2 defaultWriter ∧
  r1.2 = Some 0%nat ∧ r2.2 = Some 1%nat ∧
  (λ w, (Filename w, usable (world r2.1) (fileWriter w))) <$> heap r2.1 !! 0%nat
    = Some ("app.log"%string, true) ∧
  (λ w, (Filename w, usable (world r2.1) (fileWriter w))) <$> heap r2.1 !! 1%nat
    = Some ("app.log"%string, true) ∧
  (fileWriter <$> heap r2.1 !! 0%nat) ≠ (fileWriter <$> heap r2.1 !! 1%nat).
Proof.
  intros r1 r2.
  split; [apply String.eqb_neq; by_compute|].
  split; [by_compute|]. split; [by_compute|]. split; [by_compute|].
  split; [by_compute|]. split; [by_compute|].
  intros H. vm_compute in H. discriminate H.
Qed.

(** C8, tried on a directory with an old log, two archives and a file of
    another name. *)
Lemma deleteOldLog_sweeps_witness :
  let σ := Run.world_of Run.staleDaily in
  let w := Run.writer_of Run.staleDaily in
  (-106751 ≤ MaxDays w ≤ 106751 ∧
   (∀ q, swept σ w q = true → OS.writableDir σ (Filepath.Dir q) = None)) ∧
  (∀ p, names (deleteOldLog σ w) !! p = if swept σ w p then None else names σ !! p) ∧
  inodes (deleteOldLog σ w) = inodes σ.
Proof.
  intros σ w.
  assert (H1 : -106751 ≤ MaxDays w ≤ 106751) by by_compute.
  assert (H2 : ∀ q, swept σ w q = true → OS.writableDir σ (Filepath.Dir q) = None).
  { intros q Hq. apply andb_true_iff in Hq as [Hin _].
    apply bool_decide_eq_true in Hin.
    change ((OS.walkEntries σ (Filepath.Dir (Filename w))).*1)
      with Run.staleWalked in Hin.
    unfold Run.staleWalked in Hin.
    repeat (apply elem_of_cons in Hin as [->|Hin]);
      [by_compute..|exact (False_ind _ (proj1 (elem_of_nil q) Hin))]. }
  exact (conj (conj H1 H2) (deleteOldLog_sweeps σ w H1 H2)).
Defined.

(** C8 as stated fails on the active file: a rotation that is skipped
    because the archive of its day is there already starts a sweep while
    the active file is older than [MaxDays] days, and the sweep removes
    the active file, which the writer holds open, with the old archive;
    the newer archive and the other file stay. *)
Lemma sweep_removes_stale_active_file :
  let r := doRotate (Run.world_of Run.staleDaily) (Run.writer_of Run.staleDaily)
             Run.jan15 in
  let σ := Run.world_of r in
  let w := Run.writer_of r in
  sweeps σ = 1%nat ∧ Filename w = "app.log"%string ∧ MaxDays w = 7 ∧
  names σ !! "app.log"%string = Some 1%nat ∧
  usable σ (fileWriter w) = true ∧
  i_mtime (Run.inodeAt σ "app.log") = Run.jan1 ∧ now σ = Run.jan15 ∧
  names (deleteOldLog σ w) !! "app.log"%string = None ∧
  names (deleteOldLog σ w) !! "app.2024-01-01.log"%string = None ∧
  names (deleteOldLog σ w) !! "app.2024-01-14.log"%string = Some 3%nat ∧
  names (deleteOldLog σ w) !! "notes.txt"%string = Some 4%nat.
Proof. intros r σ w. conj_compute. Qed.

(** C9, tried with [MaxSize] = 10: eight bytes are counted, five more
    are written without a rotation, and the count is 13. *)
Lemma needRotate_ignores_size_witness :
  let σ := Run.world_of Run.tenBytes in
  let w := Run.writer_of Run.tenBytes in
  let msg := "abcde"%string in
  (is_Some (formatTimeHeader Run.jan15) ∧ usable σ (fileWriter w) = true ∧
   0 ≤ maxSizeCurSize w < MaxSize w ∧
   MaxSize w + len (stripped Run.R w msg) ≤ maxInt64 ∧
   needRotate w (len (stripped Run.R w msg)) (Time.Day Run.jan15)
     (Time.Hour_ Run.jan15) = false) ∧
  ∃ σ' w',
    WriteMsg Run.R σ w Run.jan15 msg = Some (σ', w', None) ∧
    rotations σ' = rotations σ ∧
    maxSizeCurSize w' = maxSizeCurSize w + len (stripped Run.R w msg) ∧
    (MaxSize w ≤ maxSizeCurSize w' →
     ∀ s day hour, Rotate w' && needRotate w' s day hour = Rotate w).
Proof.
  intros σ w msg.
  assert (H1 : is_Some (formatTimeHeader Run.jan15)) by by_compute.
  assert (H2 : usable σ (fileWriter w) = true) by by_compute.
  assert (H3 : 0 ≤ maxSizeCurSize w < MaxSize w) by by_compute.
  assert (H4 : MaxSize w + len (stripped Run.R w msg) ≤ maxInt64) by by_compute.
  assert (H5 : needRotate w (len (stripped Run.R w msg)) (Time.Day Run.jan15)
                 (Time.Hour_ Run.jan15) = false) by by_compute.
  split; [exact (conj H1 (conj H2 (conj H3 (conj H4 H5))))|].
  exact (proj2 (needRotate_ignores_size Run.R) σ w Run.jan15 msg H1 H2 H3 H4 H5).
Defined.

(** C10, tried on a message of two lines written to a new file: the
    count is 1, and 2 once the file is opened again. *)
Lemma line_count_diverges_from_recovery_witness :
  let σ := Run.world_of Run.tenLines in
  let w := Run.writer_of Run.tenLines in
  let msg := (Run.line "x" ++ Run.line "y")%string in
  let fl := mkFile "app.log" 1 0 true false in
  let i := Run.inodeAt σ "app.log" in
  (Rotate w = true ∧ 0 < MaxLines w ∧ is_Some (formatTimeHeader Run.jan15) ∧
   limitsDue w || calendarDue w (Time.Day Run.jan15) (Time.Hour_ Run.jan15) = false ∧
   fileWriter w = Some 0%nat ∧ files σ !! 0%nat = Some fl ∧
   f_closed fl = false ∧ f_wr fl = true ∧
   names σ !! Filename w = Some (f_ino fl) ∧ inodes σ !! f_ino fl = Some i ∧
   i_dir i = false ∧ OS.ownerWrite i = true ∧
   Strconv.ParseOctal (Perm w) = inr 432 ∧ Z.testbit 432 8 = true ∧
   maxLinesCurLines w = Strings.Count (i_data i) newline ∧
   Z.of_nat (length (i_data i)) + len (stripped Run.R w msg) < maxInt64) ∧
  ∃ σ1 w1 σ2 w2,
    WriteMsg Run.R σ w Run.jan15 msg = Some (σ1, w1, None) ∧
    maxLinesCurLines w1 = maxLinesCurLines w + 1 ∧
    startLogger σ1 w1 = (σ2, w2, None) ∧
    maxLinesCurLines w2 =
      maxLinesCurLines w + Strings.Count (bytes (stripped Run.R w msg)) newline ∧
    (maxLinesCurLines w1 ≠ maxLinesCurLines w2 ↔
     Strings.Count (bytes (stripped Run.R w msg)) newline ≠ 1).
Proof.
  intros σ w msg fl i.
  assert (H1 : Rotate w = true) by by_compute.
  assert (H2 : 0 < MaxLines w) by by_compute.
  assert (H3 : is_Some (formatTimeHeader Run.jan15)) by by_compute.
  assert (H4 : limitsDue w || calendarDue w (Time.Day Run.jan15) (Time.Hour_ Run.jan15)
               = false) by by_compute.
  assert (H5 : fileWriter w = Some 0%nat) by by_compute.
  assert (H6 : files σ !! 0%nat = Some fl) by by_compute.
  assert (H7 : f_closed fl = false) by by_compute.
  assert (H8 : f_wr fl = true) by by_compute.
  assert (H9 : names σ !! Filename w = Some (f_ino fl)) by by_compute.
  assert (H10 : inodes σ !! f_ino fl = Some i) by by_compute.
  assert (H11 : i_dir i = false) by by_compute.
  assert (H12 : OS.ownerWrite i = true) by by_compute.
  assert (H13 : Strconv.ParseOctal (Perm w) = inr 432) by by_compute.
  assert (H14 : Z.testbit 432 8 = true) by by_compute.
  assert (H15 : maxLinesCurLines w = Strings.Count (i_data i) newline) by by_compute.
  assert (H16 : Z.of_nat (length (i_data i)) + len (stripped Run.R w msg) < maxInt64)
    by by_compute.
  split; [exact (conj H1 (conj H2 (conj H3 (conj H4 (conj H5 (conj H6 (conj H7
                   (conj H8 (conj H9 (conj H10 (conj H11 (conj H12 (conj H13
                   (conj H14 (conj H15 H16)))))))))))))))|].
  exact (line_count_diverges_from_recovery Run.R σ w Run.jan15 msg 432 0%nat fl i
           H1 H2 H3 H4 H5 H6 H7 H8 H9 H10 H11 H12 H13 H14 H15 H16).
Defined.

(** ** More statements on the runs *)

(** X1, tried on the first write to a new file of two lines. *)
Lemma WriteMsg_rotates_once_when_due_witness :
  let σ := Run.world_of Run.twoLines in
  let w := Run.writer_of Run.twoLines in
  let msg := Run.line "a" in
  is_Some (formatTimeHeader Run.jan15) ∧
  ∃ σ' w' err,
    WriteMsg Run.R σ w Run.jan15 msg = Some (σ', w', err) ∧
    rotations σ' =
      (rotations σ +
       if Rotate w && needRotate w (len (stripped Run.R w msg)) (Time.Day Run.jan15)
                        (Time.Hour_ Run.jan15)
       then 1 else 0)%nat.
Proof.
  intros σ w msg.
  assert (H : is_Some (formatTimeHeader Run.jan15)) by by_compute.
  exact (conj H (WriteMsg_rotates_once_when_due Run.R σ w Run.jan15 msg H)).
Defined.

(** X2, tried on the same write. *)
Lemma WriteMsg_appends_verbatim_witness :
  let σ := Run.world_of Run.twoLines in
  let w := Run.writer_of Run.twoLines in
  let msg := Run.line "a" in
  let fl := mkFile "app.log" 1 0 true false in
  let i := Run.inodeAt σ "app.log" in
  (is_Some (formatTimeHeader Run.jan15) ∧
   Rotate w && needRotate w (len (stripped Run.R w msg)) (Time.Day Run.jan15)
                 (Time.Hour_ Run.jan15) = false ∧
   fileWriter w = Some 0%nat ∧ files σ !! 0%nat = Some fl ∧
   f_closed fl = false ∧ f_wr fl = true ∧ inodes σ !! f_ino fl = Some i) ∧
  ∃ σ' w',
    WriteMsg Run.R σ w Run.jan15 msg = Some (σ', w', None) ∧
    fileWriter w' = Some 0%nat ∧ files σ' = files σ ∧ names σ' = names σ ∧
    i_data <$> inodes σ' !! f_ino fl = Some (i_data i ++ bytes (stripped Run.R w msg)) ∧
    ∀ j, j ≠ f_ino fl → inodes σ' !! j = inodes σ !! j.
Proof.
  intros σ w msg fl i.
  assert (H1 : is_Some (formatTimeHeader Run.jan15)) by by_compute.
  assert (H2 : Rotate w && needRotate w (len (stripped Run.R w msg))
                 (Time.Day Run.jan15) (Time.Hour_ Run.jan15) = false) by by_compute.
  assert (H3 : fileWriter w = Some 0%nat) by by_compute.
  assert (H4 : files σ !! 0%nat = Some fl) by by_compute.
  assert (H5 : f_closed fl = false) by by_compute.
  assert (H6 : f_wr fl = true) by by_compute.
  assert (H7 : inodes σ !! f_ino fl = Some i) by by_compute.
  split; [exact (conj H1 (conj H2 (conj H3 (conj H4 (conj H5 (conj H6 H7))))))|].
  exact (WriteMsg_appends_verbatim Run.R σ w Run.jan15 msg 0%nat fl i
           H1 H2 H3 H4 H5 H6 H7).
Defined.

(** X3, tried on the same writer, destroyed first. *)
Lemma WriteMsg_after_Destroy_witness :
  let σ := Run.world_of Run.twoLines in
  let w := Run.writer_of Run.twoLines in
  let msg := Run.line "a" in
  (is_Some (formatTimeHeader Run.jan15) ∧
   Rotate w && needRotate w (len (stripped Run.R w msg)) (Time.Day Run.jan15)
                 (Time.Hour_ Run.jan15) = false ∧
   usable σ (fileWriter w) = true) ∧
  ∃ name,
    WriteMsg Run.R (Destroy σ w) w Run.jan15 msg =
      Some (Destroy σ w, w, Some (PathError "write" name ErrClosed)) ∧
    names (Destroy σ w) = names σ ∧ inodes (Destroy σ w) = inodes σ.
Proof.
  intros σ w msg.
  assert (H1 : is_Some (formatTimeHeader Run.jan15)) by by_compute.
  assert (H2 : Rotate w && needRotate w (len (stripped Run.R w msg))
                 (Time.Day Run.jan15) (Time.Hour_ Run.jan15) = false) by by_compute.
  assert (H3 : usable σ (fileWriter w) = true) by by_compute.
  split; [exact (conj H1 (conj H2 H3))|].
  exact (WriteMsg_after_Destroy Run.R σ w Run.jan15 msg H1 H2 H3).
Defined.

(** X6, tried on an empty directory under umask 022: the file is made
    with mode 0640 and left with mode 0660. *)
Lemma createLogFile_opens_witness :
  let σ := Run.emptyDir in
  let w := Run.writer_of Run.twoLines in
  let σ' := (createLogFile σ w).1 in
  createLogFile σ w = (σ', inr 0%nat) ∧
  ∃ perm fi,
    Strconv.ParseOctal (Perm w) = inr perm ∧
    OS.Lstat σ' (Filename w) = inr fi ∧
    Mode fi = OS.permBits perm ∧ IsDir fi = false ∧
    match OS.Lstat σ (Filename w) with
    | inr fi0 => Size fi = Size fi0 ∧ ModTime fi = ModTime fi0
    | inl _ => Size fi = 0 ∧ ModTime fi = now σ
    end ∧
    usable σ' (Some 0%nat) = true ∧ files σ !! 0%nat = None ∧
    (∀ fd', fd' ≠ 0%nat → files σ' !! fd' = files σ !! fd') ∧
    (∀ p, p ≠ Filename w → names σ' !! p = names σ !! p) ∧
    (∀ ino i, inodes σ !! ino = Some i →
              ∃ i', inodes σ' !! ino = Some i' ∧ i_data i' = i_data i).
Proof.
  intros σ w σ'.
  assert (H : createLogFile σ w = (σ', inr 0%nat)) by by_compute.
  exact (conj H (createLogFile_opens σ w σ' 0%nat H)).
Defined.

(** X7, tried on the configuration that names [app.log]. *)
Lemma Init_splits_name_witness :
  let cfg := Run.config EmptyString in
  let w := (Run.U cfg defaultWriter).1 in
  let r := Init Run.U Run.emptyDir defaultWriter cfg in
  let w' := Run.writer_of r in
  (Run.U cfg defaultWriter = (w, None) ∧ Filename w ≠ EmptyString ∧
   Init Run.U Run.emptyDir defaultWriter cfg = (Run.world_of r, w', Run.error_of r)) ∧
  Filename w' = Filename w ∧
  (fileNameOnly w' ++ Filepath.Ext (Filename w))%string = Filename w ∧
  suffix w' = (if String.eqb (Filepath.Ext (Filename w)) EmptyString
               then ".log"%string else Filepath.Ext (Filename w)) ∧
  String.prefix "." (suffix w') = true ∧
  MaxLines w' = MaxLines w ∧ MaxSize w' = MaxSize w ∧ MaxDays w' = MaxDays w ∧
  Daily w' = Daily w ∧ Hourly w' = Hourly w ∧ Rotate w' = Rotate w ∧
  Perm w' = Perm w ∧ RotatePerm w' = RotatePerm w.
Proof.
  intros cfg w r w'.
  assert (H1 : Run.U cfg defaultWriter = (w, None)) by by_compute.
  assert (H2 : Filename w ≠ EmptyString) by by_compute.
  assert (H3 : Init Run.U Run.emptyDir defaultWriter cfg =
                 (Run.world_of r, w', Run.error_of r)) by by_compute.
  split; [exact (conj H1 (conj H2 H3))|].
  exact (Init_splits_name Run.U Run.emptyDir defaultWriter cfg w (Run.world_of r) w'
           (Run.error_of r) H1 H2 H3).
Defined.

(** X8, tried on the write that rotates a file of two lines. *)
Lemma WriteMsg_keeps_config_witness :
  let r0 := Run.after Run.twoLines [(Run.jan15, Run.line "a"); (Run.jan15, Run.line "b")] in
  let r := Run.after r0 [(Run.jan15, Run.line "c")] in
  WriteMsg Run.R (Run.world_of r0) (Run.writer_of r0) Run.jan15 (Run.line "c") =
    Some (Run.world_of r, Run.writer_of r, Run.error_of r) ∧
  sameConfig (Run.writer_of r0) (Run.writer_of r).
Proof.
  intros r0 r.
  assert (H : WriteMsg Run.R (Run.world_of r0) (Run.writer_of r0) Run.jan15
                (Run.line "c") =
              Some (Run.world_of r, Run.writer_of r, Run.error_of r)) by by_compute.
  exact (conj H (WriteMsg_keeps_config Run.R _ _ _ _ _ _ _ H)).
Defined.


(** X11, tried on a daily log last written on 1 January, beside the
    archive of that day. *)
Lemma doRotate_skips_when_archive_exists_witness :
  let σ := Run.world_of Run.staleDaily in
  let w := Run.writer_of Run.staleDaily in
  let fi' := OS.info (Run.inodeAt σ "app.2024-01-01.log") in
  (Strconv.ParseOctal (RotatePerm w) = inr 288 ∧
   is_Some (OS.resolve σ (Filename w)) ∧
   OS.resolve σ (numName w (timeFormat w) 1) = None ∧
   OS.Lstat σ (withoutNumName w (timeFormat w)) = inr fi' ∧
   MaxLines w = 0 ∧ MaxSize w = 0) ∧
  doRotate σ w Run.jan15 =
    restartLogger (eprint (LogSkipRotate (withoutNumName w (timeFormat w)))
                     (eprint (LogDoRotate Run.jan15) σ)) w None ∧
  names (doRotate σ w Run.jan15).1.1 = names σ ∧
  (∀ j, contents (doRotate σ w Run.jan15).1.1 j = contents σ j) ∧
  sweeps (doRotate σ w Run.jan15).1.1 = S (sweeps σ) ∧
  ((doRotate σ w Run.jan15).2 = None → knownHandle σ w = true →
   usable (doRotate σ w Run.jan15).1.1 (fileWriter (doRotate σ w Run.jan15).1.2) = true).
Proof.
  intros σ w fi'.
  assert (H1 : Strconv.ParseOctal (RotatePerm w) = inr 288) by by_compute.
  assert (H2 : is_Some (OS.resolve σ (Filename w))) by by_compute.
  assert (H3 : OS.resolve σ (numName w (timeFormat w) 1) = None) by by_compute.
  assert (H4 : OS.Lstat σ (withoutNumName w (timeFormat w)) = inr fi') by by_compute.
  assert (H5 : MaxLines w = 0) by by_compute.
  assert (H6 : MaxSize w = 0) by by_compute.
  split; [exact (conj H1 (conj H2 (conj H3 (conj H4 (conj H5 H6)))))|].
  exact (doRotate_skips_when_archive_exists σ w Run.jan15 288 fi' H1 H2 H3 H4 H5 H6).
Defined.

(** X12, tried on the rotation of a file of two lines. *)
Lemma doRotate_starts_one_sweep_witness :
  let r0 := Run.after Run.twoLines [(Run.jan15, Run.line "a"); (Run.jan15, Run.line "b")] in
  let r := doRotate (Run.world_of r0) (Run.writer_of r0) Run.jan15 in
  let σ := Run.world_of r0 in
  let w := Run.writer_of r0 in
  doRotate σ w Run.jan15 = (Run.world_of r, Run.writer_of r, Run.error_of r) ∧
  now (Run.world_of r) = now σ ∧
  (sweeps (Run.world_of r) = S (sweeps σ) ∨
   sweeps (Run.world_of r) = sweeps σ ∧ Run.writer_of r = w ∧
   files (Run.world_of r) = files σ ∧ inodes (Run.world_of r) = inodes σ ∧
   (Run.error_of r =
      Some (Errorf "rotate: Cannot find free log number to rename " (Filename w)) ∨
    ∃ e, Strconv.ParseOctal (RotatePerm w) = inl e ∧ Run.error_of r = Some e)) ∧
  (Run.error_of r = None → sweeps (Run.world_of r) = S (sweeps σ)).
Proof.
  intros r0 r σ w.
  assert (H : doRotate σ w Run.jan15 = (Run.world_of r, Run.writer_of r, Run.error_of r))
    by by_compute.
  exact (conj H (doRotate_starts_one_sweep σ w Run.jan15 _ _ _ H)).
Defined.

Ltac by_decide :=
  unfold tidy, handlesLive, onlyHandle, fitsInt64;
  apply (bool_decide_unpack _); vm_compute; exact I.

(** X13, tried on a new writer, its first write, and the write that
    rotates its file. *)
Lemma writer_holds_one_descriptor_witness :
  let cfg := Run.config (Run.member "maxlines" "2") in
  let r0 := Run.twoLines in
  let r2 := Run.after r0 [(Run.jan15, Run.line "a"); (Run.jan15, Run.line "b")] in
  let r3 := Run.after r2 [(Run.jan15, Run.line "c")] in
  (tidy Run.emptyDir (Run.U cfg defaultWriter).1 ∧
   Init Run.U Run.emptyDir defaultWriter cfg =
     (Run.world_of r0, Run.writer_of r0, Run.error_of r0) ∧
   tidy (Run.world_of r2) (Run.writer_of r2) ∧
   WriteMsg Run.R (Run.world_of r2) (Run.writer_of r2) Run.jan15 (Run.line "c") =
     Some (Run.world_of r3, Run.writer_of r3, Run.error_of r3)) ∧
  tidy (Run.world_of r0) (Run.writer_of r0) ∧
  tidy (Run.world_of r3) (Run.writer_of r3) ∧
  rotations (Run.world_of r3) = 1%nat ∧
  map_Forall (λ _ fl, f_closed fl = true)
    (files (Destroy (Run.world_of r3) (Run.writer_of r3))).
Proof.
  intros cfg r0 r2 r3.
  assert (H1 : tidy Run.emptyDir (Run.U cfg defaultWriter).1) by by_decide.
  assert (H2 : Init Run.U Run.emptyDir defaultWriter cfg =
                 (Run.world_of r0, Run.writer_of r0, Run.error_of r0)) by by_compute.
  assert (H3 : tidy (Run.world_of r2) (Run.writer_of r2)) by by_decide.
  assert (H4 : WriteMsg Run.R (Run.world_of r2) (Run.writer_of r2) Run.jan15
                 (Run.line "c") =
               Some (Run.world_of r3, Run.writer_of r3, Run.error_of r3)) by by_compute.
  split; [exact (conj H1 (conj H2 (conj H3 H4)))|].
  destruct (writer_holds_one_descriptor Run.U Run.R) as (HI & HW & HD).
  pose proof (HW _ _ _ _ _ _ _ H3 H4) as H5.
  split; [exact (HI _ _ _ _ _ _ H1 H2)|]. split; [exact H5|].
  split; [by_compute|]. exact (proj2 (HD _ _ H5)).
Defined.

(** X14, tried on the same run. *)
Lemma maxSizeCurSize_is_file_size_witness :
  let cfg := Run.config (Run.member "maxlines" "2") in
  let r0 := Run.twoLines in
  let r2 := Run.after r0 [(Run.jan15, Run.line "a"); (Run.jan15, Run.line "b")] in
  let r3 := Run.after r2 [(Run.jan15, Run.line "c")] in
  (knownHandle Run.emptyDir (Run.U cfg defaultWriter).1 = true ∧
   handlesLive Run.emptyDir ∧
   sized Run.emptyDir (Run.U cfg defaultWriter).1 = true ∧
   Init Run.U Run.emptyDir defaultWriter cfg =
     (Run.world_of r0, Run.writer_of r0, Run.error_of r0) ∧
   knownHandle (Run.world_of r2) (Run.writer_of r2) = true ∧
   handlesLive (Run.world_of r2) ∧
   sized (Run.world_of r2) (Run.writer_of r2) = true ∧
   WriteMsg Run.R (Run.world_of r2) (Run.writer_of r2) Run.jan15 (Run.line "c") =
     Some (Run.world_of r3, Run.writer_of r3, Run.error_of r3) ∧
   fitsInt64 (Run.world_of r3)) ∧
  sized (Run.world_of r0) (Run.writer_of r0) = true ∧
  sized (Run.world_of r3) (Run.writer_of r3) = true ∧
  maxSizeCurSize (Run.writer_of r2) = 4 ∧ maxSizeCurSize (Run.writer_of r3) = 2.
Proof.
  intros cfg r0 r2 r3.
  assert (H1 : knownHandle Run.emptyDir (Run.U cfg defaultWriter).1 = true) by by_compute.
  assert (H2 : handlesLive Run.emptyDir) by by_decide.
  assert (H3 : sized Run.emptyDir (Run.U cfg defaultWriter).1 = true) by by_compute.
  assert (H4 : Init Run.U Run.emptyDir defaultWriter cfg =
                 (Run.world_of r0, Run.writer_of r0, Run.error_of r0)) by by_compute.
  assert (H5 : knownHandle (Run.world_of r2) (Run.writer_of r2) = true) by by_compute.
  assert (H6 : handlesLive (Run.world_of r2)) by by_decide.
  assert (H7 : sized (Run.world_of r2) (Run.writer_of r2) = true) by by_compute.
  assert (H8 : WriteMsg Run.R (Run.world_of r2) (Run.writer_of r2) Run.jan15
                 (Run.line "c") =
               Some (Run.world_of r3, Run.writer_of r3, Run.error_of r3)) by by_compute.
  assert (H9 : fitsInt64 (Run.world_of r3)) by by_decide.
  split; [exact (conj H1 (conj H2 (conj H3 (conj H4 (conj H5 (conj H6
                  (conj H7 (conj H8 H9))))))))|].
  destruct (maxSizeCurSize_is_file_size Run.U Run.R) as (HI & HW).
  split; [exact (HI _ _ _ _ _ _ H1 H2 H3 H4)|].
  split; [exact (HW _ _ _ _ _ _ _ H5 H6 H7 H8 H9)|].
  split; by_compute.
Defined.

(** X15, tried on the write that rotates. *)
Lemma WriteMsg_only_appends_witness :
  let r2 := Run.after Run.twoLines [(Run.jan15, Run.line "a"); (Run.jan15, Run.line "b")] in
  let r3 := Run.after r2 [(Run.jan15, Run.line "c")] in
  let σ := Run.world_of r2 in
  let w := Run.writer_of r2 in
  let i := Run.inodeAt σ "app.log" in
  (WriteMsg Run.R σ w Run.jan15 (Run.line "c") =
     Some (Run.world_of r3, Run.writer_of r3, Run.error_of r3) ∧
   inodes σ !! 1%nat = Some i) ∧
  ∃ i', inodes (Run.world_of r3) !! 1%nat = Some i' ∧ i_dir i' = i_dir i ∧
        (i_data i' = i_data i ∨
         (Run.error_of r3 = None ∧
          i_data i' = i_data i ++ bytes (stripped Run.R w (Run.line "c")))).
Proof.
  intros r2 r3 σ w i.
  assert (H1 : WriteMsg Run.R σ w Run.jan15 (Run.line "c") =
                 Some (Run.world_of r3, Run.writer_of r3, Run.error_of r3)) by by_compute.
  assert (H2 : inodes σ !! 1%nat = Some i) by by_compute.
  split; [exact (conj H1 H2)|].
  exact (proj2 (WriteMsg_only_appends Run.R σ w) _ _ _ _ _ H1 _ _ H2).
Defined.

(** X16, tried on the write that rotates a file of two lines. *)
Lemma WriteMsg_first_rotation_witness :
  let r2 := Run.after Run.twoLines [(Run.jan15, Run.line "a"); (Run.jan15, Run.line "b")] in
  let σ := Run.world_of r2 in
  let w := Run.writer_of r2 in
  let msg := Run.line "c" in
  let ia := Run.inodeAt σ "app.log" in
  (is_Some (formatTimeHeader Run.jan15) ∧
   Rotate w = true ∧
   needRotate w (len (stripped Run.R w msg)) (Time.Day Run.jan15)
     (Time.Hour_ Run.jan15) = true ∧
   Strconv.ParseOctal (Perm w) = inr 432 ∧
   Strconv.ParseOctal (RotatePerm w) = inr 288 ∧
   knownHandle σ w = true ∧
   names σ !! Filename w = Some 1%nat ∧ inodes σ !! 1%nat = Some ia ∧
   i_dir ia = false ∧
   names σ !! numName w (timeFormat w) 1 = None ∧
   names σ !! withoutNumName w (timeFormat w) = None ∧
   OS.writableDir σ (Filepath.Dir (Filename w)) = None ∧
   OS.writableDir σ (Filepath.Dir (withoutNumName w (timeFormat w))) = None ∧
   len (stripped Run.R w msg) ≤ maxInt64) ∧
  ∃ σ' w' b ib,
    WriteMsg Run.R σ w Run.jan15 msg = Some (σ', w', None) ∧
    names σ' !! withoutNumName w (timeFormat w) = Some 1%nat ∧
    inodes σ' !! 1%nat =
      Some (mkInode false (i_data ia) (i_mtime ia) (OS.permBits 288)) ∧
    names σ' !! Filename w = Some b ∧ inodes σ !! b = None ∧
    inodes σ' !! b = Some ib ∧
    i_data ib = bytes (stripped Run.R w msg) ∧ i_mode ib = OS.permBits 432 ∧
    (∀ p, p ≠ Filename w → p ≠ withoutNumName w (timeFormat w) →
          names σ' !! p = names σ !! p) ∧
    usable σ' (fileWriter w') = true ∧
    maxLinesCurLines w' = 1 ∧ maxSizeCurSize w' = len (stripped Run.R w msg) ∧
    dailyOpenTime w' = now σ ∧ DailyOpenDate w' = Time.Day (now σ) ∧
    HourlyOpenDate w' = Time.Hour_ (now σ) ∧
    sweeps σ' = S (sweeps σ).
Proof.
  intros r2 σ w msg ia.
  assert (H1 : is_Some (formatTimeHeader Run.jan15)) by by_compute.
  assert (H2 : Rotate w = true) by by_compute.
  assert (H3 : needRotate w (len (stripped Run.R w msg)) (Time.Day Run.jan15)
                 (Time.Hour_ Run.jan15) = true) by by_compute.
  assert (H4 : Strconv.ParseOctal (Perm w) = inr 432) by by_compute.
  assert (H5 : Strconv.ParseOctal (RotatePerm w) = inr 288) by by_compute.
  assert (H6 : knownHandle σ w = true) by by_compute.
  assert (H7 : names σ !! Filename w = Some 1%nat) by by_compute.
  assert (H8 : inodes σ !! 1%nat = Some ia) by by_compute.
  assert (H9 : i_dir ia = false) by by_compute.
  assert (H10 : names σ !! numName w (timeFormat w) 1 = None) by by_compute.
  assert (H11 : names σ !! withoutNumName w (timeFormat w) = None) by by_compute.
  assert (H12 : OS.writableDir σ (Filepath.Dir (Filename w)) = None) by by_compute.
  assert (H13 : OS.writableDir σ (Filepath.Dir (withoutNumName w (timeFormat w))) = None)
    by by_compute.
  assert (H14 : len (stripped Run.R w msg) ≤ maxInt64) by by_compute.
  split; [exact (conj H1 (conj H2 (conj H3 (conj H4 (conj H5 (conj H6 (conj H7
                  (conj H8 (conj H9 (conj H10 (conj H11 (conj H12
                  (conj H13 H14)))))))))))))|].
  exact (WriteMsg_first_rotation Run.R σ w Run.jan15 msg 432 288 1%nat ia
           H1 H2 H3 H4 H5 H6 H7 H8 H9 H10 H11 H12 H13 H14).
Defined.

(** ** [Strip] with the pattern of the source *)

Lemma run_no_escape rest c s k :
  (Regexp.code c =? 27) = false →
  (Regexp.code c =? 194) &&
    match s with
    | c2 :: _ => Regexp.code c2 =? 155
    | [] => false
    end = false →
  Regexp.run
    (Regexp.Cat (Regexp.Alt (Regexp.one 27) (Regexp.Cat (Regexp.one 194) (Regexp.one 155)))
       rest) (c :: s) k = None.
Proof.
  intros H1 H2. simpl. rewrite H1.
  destruct (Regexp.code c =? 194); [|done].
  destruct s as [|c2 s]; [done|]. simpl in H2. by rewrite H2.
Qed.

Lemma removeAll_none n r c s :
  Regexp.run r (c :: s) Some = None →
  Regexp.removeAll (S n) r (c :: s) = c :: Regexp.removeAll n r s.
Proof. intros H. simpl. by rewrite H. Qed.

Lemma removeAll_nil n r : Regexp.removeAll n r [] = [].
Proof. by destruct n. Qed.

Lemma removeAll_plain s : ∀ n,
  noEscape s = true → Regexp.removeAll n Regexp.ansiRe s = s.
Proof.
  induction s as [|c s IH]; intros n Hs; [apply removeAll_nil|].
  destruct n as [|n]; [done|].
  simpl in Hs. apply andb_true_iff in Hs as [Hs Hrest].
  apply andb_true_iff in Hs as [H1 H2].
  apply negb_true_iff in H1, H2.
  rewrite removeAll_none; [by rewrite IH|].
  unfold Regexp.ansiRe. by apply run_no_escape.
Qed.

(** X21. [Strip] removes nothing from a text without escapes: when no
    byte of the message is ESC and no two bytes of it are U+009B in
    UTF-8, which is how every match of the pattern [ansi] begins, the
    message is written as it is, whether [StripColors] is set or not. *)
Theorem Strip_keeps_plain_text msg :
  noEscape (bytes msg) = true →
  Strip Regexp.ReplaceAllString msg = msg ∧
  ∀ w, stripped Regexp.ReplaceAllString w msg = msg.
Proof.
  intros H.
  assert (HS : Strip Regexp.ReplaceAllString msg = msg).
  { unfold Strip, Regexp.ReplaceAllString. rewrite removeAll_plain by done.
    apply string_of_list_ascii_of_string. }
  split; [done|]. intros w. unfold stripped. by destruct (StripColors w).
Qed.

(** X17, tried on 29 February 2024, 13:05:07.123. *)
Lemma formatTimeHeader_renders_time_witness :
  let buf := bytes "2024/02/29 13:05:07.123 " in
  formatTimeHeader Run.leapDay = Some (buf, 29, 13) ∧ buf = timeHeader Run.leapDay.
Proof.
  intros buf.
  assert (H : formatTimeHeader Run.leapDay = Some (buf, 29, 13)) by by_compute.
  exact (conj H (formatTimeHeader_renders_time Run.leapDay buf 29 13 H)).
Defined.

(** X19, tried on a log of three lines last written the day before. *)
Lemma Init_resumes_period_witness :
  let σ := Run.withOldLog Run.jan14 in
  let cfg := Run.config (Run.member "maxlines" "10") in
  let w := (Run.U cfg defaultWriter).1 in
  let i := Run.inodeAt σ "app.log" in
  (Run.U cfg defaultWriter = (w, None) ∧ Filename w ≠ EmptyString ∧
   Strconv.ParseOctal (Perm w) = inr 432 ∧
   names σ !! Filename w = Some 1%nat ∧ inodes σ !! 1%nat = Some i ∧
   i_dir i = false ∧ OS.ownerWrite i = true ∧
   (Rotate w && (0 <? MaxLines w) = true → Z.testbit 432 8 = true) ∧
   Z.of_nat (length (i_data i)) ≤ maxInt64 ∧
   knownHandle σ w = true) ∧
  ∃ σ' w',
    Init Run.U σ defaultWriter cfg = (σ', w', None) ∧
    dailyOpenTime w' = i_mtime i ∧
    DailyOpenDate w' = Time.Day (i_mtime i) ∧
    HourlyOpenDate w' = Time.Hour_ (i_mtime i) ∧
    maxSizeCurSize w' = Z.of_nat (length (i_data i)) ∧
    (∀ day hour,
       calendarDue w' day hour =
         (Daily w && negb (day =? Time.Day (i_mtime i))) ||
         (Hourly w && negb (hour =? Time.Hour_ (i_mtime i)))) ∧
    withoutNumName w' (timeFormat w') =
      (fileNameOnly w' ++ "." ++ Time.Format (i_mtime i) (timeFormat w) ++ suffix w')%string ∧
    i_data <$> inodes σ' !! 1%nat = Some (i_data i) ∧ names σ' = names σ.
Proof.
  intros σ cfg w i.
  assert (H1 : Run.U cfg defaultWriter = (w, None)) by by_compute.
  assert (H2 : Filename w ≠ EmptyString) by by_compute.
  assert (H3 : Strconv.ParseOctal (Perm w) = inr 432) by by_compute.
  assert (H4 : names σ !! Filename w = Some 1%nat) by by_compute.
  assert (H5 : inodes σ !! 1%nat = Some i) by by_compute.
  assert (H6 : i_dir i = false) by by_compute.
  assert (H7 : OS.ownerWrite i = true) by by_compute.
  assert (H8 : Rotate w && (0 <? MaxLines w) = true → Z.testbit 432 8 = true)
    by (intros _; by_compute).
  assert (H9 : Z.of_nat (length (i_data i)) ≤ maxInt64) by by_compute.
  assert (H10 : knownHandle σ w = true) by by_compute.
  split; [exact (conj H1 (conj H2 (conj H3 (conj H4 (conj H5 (conj H6 (conj H7
                  (conj H8 (conj H9 H10)))))))))|].
  exact (Init_resumes_period Run.U σ defaultWriter cfg w 432 1%nat i
           H1 H2 H3 H4 H5 H6 H7 H8 H9 H10).
Defined.

(** X20, tried on [MaxDays] 106752: the log file made a nanosecond ago
    is swept. *)
Lemma deleteOldLog_retention_wraps_witness :
  let σ := Run.world_of Run.longRetention in
  let w := Run.writer_of Run.longRetention in
  106751 < MaxDays w ≤ 213503 ∧
  wrap64 (24 * Time.Hour * MaxDays w) < 0 ∧
  (∀ path fi,
     IsDir fi = false → ModTime fi < now σ → nameMatches w path = true →
     deleteOldLogFn w σ path (Some fi) = (OS.Remove σ path).1) ∧
  is_Some (names σ !! "app.log"%string) ∧
  names (deleteOldLog σ w) !! "app.log"%string = None.
Proof.
  intros σ w.
  assert (H1 : 106751 < MaxDays w ≤ 213503) by (split; by_compute).
  pose proof (proj1 (deleteOldLog_retention_wraps w) H1) as [_ H2].
  split; [exact H1|]. split; [exact H2|]. split.
  { intros path fi. apply (proj2 (deleteOldLog_retention_wraps w)). lia. }
  split; by_compute.
Defined.

(** X21, tried on a line of an access log. *)
Lemma Strip_keeps_plain_text_witness :
  let msg := "GET /index.html 200"%string in
  noEscape (bytes msg) = true ∧
  Strip Regexp.ReplaceAllString msg = msg ∧
  ∀ w, stripped Regexp.ReplaceAllString w msg = msg.
Proof.
  intros msg.
  assert (H : noEscape (bytes msg) = true) by by_compute.
  exact (conj H (Strip_keeps_plain_text msg H)).
Defined.
